(** * text_data_repair: a shallow embedding of [model.py] and [viewmodel.py]

    The development follows the Python sources function by function.
    Python [str] values are sequences of Unicode code points, Python
    [bytes] are sequences of bytes, Python integers are [Z], exceptions
    are an explicit sum, and generators are the list of yielded values
    together with the way the generator body ended. *)

From Stdlib Require Import String Ascii DecimalString.
From Stdlib Require Import Strings.Byte.
From Stdlib Require Import List ZArith NArith Bool Lia Sorted.
Import ListNotations.
Open Scope Z_scope.

(** ** Python runtime values *)

Module Py.

Definition char := N.
Definition str := list char.
Definition bytes := list byte.

(** A [str] literal written with ASCII characters. *)
Definition lit (s : string) : str := map N_of_ascii (list_ascii_of_string s).
Arguments lit s%_string.

Definition CR : char := 13%N.
Definition LF : char := 10%N.
Definition space : char := 32%N.

Inductive exn :=
| IndexError
| ValueError
| UnicodeDecodeError
| FileNotFoundError
| RecursionError
| AttributeError (msg : string)
| Exception (msg : string).

Inductive result (A : Type) :=
| Returned (a : A)
| Raised (e : exn).
Arguments Returned {A} a.
Arguments Raised {A} e.
Arguments AttributeError msg%_string.
Arguments Exception msg%_string.

Definition bind {A B} (r : result A) (k : A -> result B) : result B :=
  match r with
  | Returned a => k a
  | Raised e => Raised e
  end.

(** A generator that has been run to its end: the values it yielded, in
    order, and the exception that ended it, if any. *)
Record generated (A : Type) := Generated {
  yielded : list A;
  ended : option exn
}.
Arguments Generated {A} yielded ended.
Arguments yielded {A} g.
Arguments ended {A} g.

(** Consuming a generator in a comprehension or a [for] loop: the
    exception, when there is one, reaches the consumer. *)
Definition consume {A} (g : generated A) : result (list A) :=
  match ended g with
  | None => Returned (yielded g)
  | Some e => Raised e
  end.

Definition len {A} (s : list A) : Z := Z.of_nat (length s).

Fixpoint str_eqb (s t : str) : bool :=
  match s, t with
  | [], [] => true
  | c :: s', d :: t' => (c =? d)%N && str_eqb s' t'
  | _, _ => false
  end.

(** Truthiness of a sequence: non-empty. *)
Definition truthy {A} (s : list A) : bool :=
  match s with [] => false | _ :: _ => true end.

(** Normalisation of a slice bound against a length [n]. *)
Definition clamp (n i : Z) : Z :=
  if i <? 0 then Z.max 0 (i + n) else Z.min i n.

(** [s[a:b]]; [None] is an omitted bound. *)
Definition slice {A} (s : list A) (a b : option Z) : list A :=
  let n := len s in
  let lo := match a with None => 0 | Some i => clamp n i end in
  let hi := match b with None => n | Some j => clamp n j end in
  firstn (Z.to_nat (hi - lo)) (skipn (Z.to_nat lo) s).

(** [s[i]] on a list. *)
Definition getitem {A} (s : list A) (i : Z) : result A :=
  let n := len s in
  let j := if i <? 0 then i + n else i in
  if (0 <=? j) && (j <? n) then
    match nth_error s (Z.to_nat j) with
    | Some x => Returned x
    | None => Raised IndexError
    end
  else Raised IndexError.

(** [s[i]] on a [str] is the one-character string. *)
Definition char_at (s : str) (i : Z) : result str :=
  bind (getitem s i) (fun c => Returned [c]).

(** [s[i] = v] on a list. *)
Fixpoint set_nth {A} (s : list A) (n : nat) (v : A) : list A :=
  match s, n with
  | [], _ => []
  | _ :: s', O => v :: s'
  | x :: s', S n' => x :: set_nth s' n' v
  end.

Definition setitem {A} (s : list A) (i : Z) (v : A) : result (list A) :=
  let n := len s in
  let j := if i <? 0 then i + n else i in
  if (0 <=? j) && (j <? n) then Returned (set_nth s (Z.to_nat j) v)
  else Raised IndexError.

Fixpoint startswith (s p : str) : bool :=
  match p, s with
  | [], _ => true
  | c :: p', d :: s' => (c =? d)%N && startswith s' p'
  | _ :: _, [] => false
  end.

(** First position, counted from [pos], at which [sub] occurs in [s]. *)
Fixpoint find_from (sub s : str) (pos : Z) : Z :=
  if startswith s sub then pos
  else match s with
       | [] => -1
       | _ :: s' => find_from sub s' (pos + 1)
       end.

(** [s.find(sub, start)]. *)
Definition find (s sub : str) (start : Z) : Z :=
  let n := len s in
  if n <? start then -1
  else let lo := clamp n start in find_from sub (skipn (Z.to_nat lo) s) lo.

Fixpoint rfind_from (sub s : str) (pos last : Z) : Z :=
  let last' := if startswith s sub then pos else last in
  match s with
  | [] => last'
  | _ :: s' => rfind_from sub s' (pos + 1) last'
  end.

(** [s.rfind(sub)]. *)
Definition rfind (s sub : str) : Z := rfind_from sub s 0 (-1).

(** [s.index(sub, start)] and [s.rindex(sub)] raise where [find] and
    [rfind] answer -1. *)
Definition index (s sub : str) (start : Z) : result Z :=
  let i := find s sub start in
  if i <? 0 then Raised ValueError else Returned i.

Definition rindex (s sub : str) : result Z :=
  let i := rfind s sub in
  if i <? 0 then Raised ValueError else Returned i.

(** [sub in s]. *)
Definition contains (sub s : str) : bool := 0 <=? find s sub 0.

(** [c in b] for a byte value and a [bytes] object. *)
Definition byte_in (c : N) (b : bytes) : bool :=
  existsb (fun x => (Byte.to_N x =? c)%N) b.

(** Non-overlapping occurrences are scanned from the left; [skip] is the
    number of characters still covered by the last occurrence. *)
Fixpoint count_from (sub s : str) (skip : nat) : Z :=
  match s with
  | [] => 0
  | _ :: s' =>
      match skip with
      | S k => count_from sub s' k
      | O => if startswith s sub
             then 1 + count_from sub s' (length sub - 1)
             else count_from sub s' 0
      end
  end.

(** [s.count(sub)]. *)
Definition count (s sub : str) : Z :=
  match sub with
  | [] => len s + 1
  | _ :: _ => count_from sub s 0
  end.

Fixpoint replace_from (old new s : str) (skip : nat) : str :=
  match s with
  | [] => []
  | c :: s' =>
      match skip with
      | S k => replace_from old new s' k
      | O => if startswith s old
             then new ++ replace_from old new s' (length old - 1)
             else c :: replace_from old new s' 0
      end
  end.

(** [s.replace(old, new)]; an empty [old] matches before every character
    and at the end. *)
Definition replace (s old new : str) : str :=
  match old with
  | [] => flat_map (fun c => new ++ [c]) s ++ new
  | _ :: _ => replace_from old new s 0
  end.

Fixpoint split_from (sep s : str) (skip : nat) (cur : str) : list str :=
  match s with
  | [] => [rev cur]
  | c :: s' =>
      match skip with
      | S k => split_from sep s' k cur
      | O => if startswith s sep
             then rev cur :: split_from sep s' (length sep - 1) []
             else split_from sep s' 0 (c :: cur)
      end
  end.

(** [s.split(sep)]; an empty separator is a [ValueError]. *)
Definition split (s sep : str) : result (list str) :=
  match sep with
  | [] => Raised ValueError
  | _ :: _ => Returned (split_from sep s 0 [])
  end.

Fixpoint dropwhile {A} (p : A -> bool) (s : list A) : list A :=
  match s with
  | [] => []
  | c :: s' => if p c then dropwhile p s' else s
  end.

Definition char_in (c : char) (chars : str) : bool :=
  existsb (fun d => (c =? d)%N) chars.

(** [s.rstrip(chars)]. *)
Definition rstrip (s chars : str) : str :=
  rev (dropwhile (fun c => char_in c chars) (rev s)).

(** The code points that [str.isspace] accepts, which [str.strip()]
    removes. *)
Definition is_space (c : char) : bool :=
  ((9 <=? c) && (c <=? 13) || (28 <=? c) && (c <=? 32)
   || (c =? 133) || (c =? 160) || (c =? 5760)
   || (8192 <=? c) && (c <=? 8202) || (c =? 8232) || (c =? 8233)
   || (c =? 8239) || (c =? 8287) || (c =? 12288))%N.

(** [s.strip()]. *)
Definition strip (s : str) : str :=
  rev (dropwhile is_space (rev (dropwhile is_space s))).

(** [sep.join(parts)]. *)
Fixpoint join (sep : str) (parts : list str) : str :=
  match parts with
  | [] => []
  | [p] => p
  | p :: ps => p ++ sep ++ join sep ps
  end.

(** [sum(...)] of integers. *)
Definition sum (l : list Z) : Z := fold_right Z.add 0 l.


(** *** Codecs *)

Definition is_cont (b : N) : bool := ((128 <=? b) && (b <=? 191))%N.

(** Strict UTF-8 as the [utf8] codec decodes it: no overlong forms, no
    surrogates, nothing above U+10FFFF, no truncated sequence. *)
Fixpoint utf8_points (bs : list N) : result str :=
  match bs with
  | [] => Returned []
  | b0 :: r0 =>
      if (b0 <? 128)%N then
        bind (utf8_points r0) (fun s => Returned (b0 :: s))
      else if ((194 <=? b0) && (b0 <=? 223))%N then
        match r0 with
        | b1 :: r1 =>
            if is_cont b1 then
              bind (utf8_points r1)
                   (fun s => Returned (((b0 - 192) * 64 + (b1 - 128))%N :: s))
            else Raised UnicodeDecodeError
        | _ => Raised UnicodeDecodeError
        end
      else if ((224 <=? b0) && (b0 <=? 239))%N then
        match r0 with
        | b1 :: b2 :: r2 =>
            let lo := if (b0 =? 224)%N then 160%N else 128%N in
            let hi := if (b0 =? 237)%N then 159%N else 191%N in
            if ((lo <=? b1) && (b1 <=? hi))%N && is_cont b2 then
              bind (utf8_points r2)
                   (fun s => Returned
                      ((((b0 - 224) * 64 + (b1 - 128)) * 64 + (b2 - 128))%N :: s))
            else Raised UnicodeDecodeError
        | _ => Raised UnicodeDecodeError
        end
      else if ((240 <=? b0) && (b0 <=? 244))%N then
        match r0 with
        | b1 :: b2 :: b3 :: r3 =>
            let lo := if (b0 =? 240)%N then 144%N else 128%N in
            let hi := if (b0 =? 244)%N then 143%N else 191%N in
            if ((lo <=? b1) && (b1 <=? hi))%N && is_cont b2 && is_cont b3 then
              bind (utf8_points r3)
                   (fun s => Returned
                      (((((b0 - 240) * 64 + (b1 - 128)) * 64 + (b2 - 128)) * 64
                        + (b3 - 128))%N :: s))
            else Raised UnicodeDecodeError
        | _ => Raised UnicodeDecodeError
        end
      else Raised UnicodeDecodeError
  end.

(** The decoding table of the [cp1252] codec; five bytes are undefined. *)
Definition cp1252_point (b : N) : option char :=
  (if (b <? 128) || (160 <=? b) then Some b
   else match b with
        | 128 => Some 8364 | 130 => Some 8218 | 131 => Some 402
        | 132 => Some 8222 | 133 => Some 8230 | 134 => Some 8224
        | 135 => Some 8225 | 136 => Some 710 | 137 => Some 8240
        | 138 => Some 352 | 139 => Some 8249 | 140 => Some 338
        | 142 => Some 381 | 145 => Some 8216 | 146 => Some 8217
        | 147 => Some 8220 | 148 => Some 8221 | 149 => Some 8226
        | 150 => Some 8211 | 151 => Some 8212 | 152 => Some 732
        | 153 => Some 8482 | 154 => Some 353 | 155 => Some 8250
        | 156 => Some 339 | 158 => Some 382 | 159 => Some 376
        | _ => None
        end)%N.

Fixpoint cp1252_points (bs : list N) : result str :=
  match bs with
  | [] => Returned []
  | b :: r =>
      match cp1252_point b with
      | Some c => bind (cp1252_points r) (fun s => Returned (c :: s))
      | None => Raised UnicodeDecodeError
      end
  end.

Inductive codec := utf8 | cp1252.

(** [b.decode(encoding)]. *)
Definition decode (b : bytes) (encoding : codec) : result str :=
  match encoding with
  | utf8 => utf8_points (map Byte.to_N b)
  | cp1252 => cp1252_points (map Byte.to_N b)
  end.

Definition codec_name (encoding : codec) : str :=
  match encoding with utf8 => lit "utf8" | cp1252 => lit "cp1252" end.

Definition hex_digit (n : N) : char :=
  (if n <? 10 then 48 + n else 87 + n)%N.

(** [str(b)] for a [bytes] object, which is its [repr]. *)
Definition bytes_repr (b : bytes) : str :=
  let has c := byte_in c b in
  let quote := if has 39%N && negb (has 34%N) then 34%N else 39%N in
  let esc (c : N) : str :=
    (if c =? 92 then [92; 92]
     else if c =? 9 then [92; 116]
     else if c =? 10 then [92; 110]
     else if c =? 13 then [92; 114]
     else if c =? quote then [92; c]
     else if (c <? 32) || (127 <=? c)
          then [92; 120; hex_digit (c / 16); hex_digit (c mod 16)]
     else [c])%N in
  [98%N; quote] ++ flat_map (fun x => esc (Byte.to_N x)) b ++ [quote].

(** *** Files *)

(** The lines of a file opened in binary mode, each with its terminator. *)
Fixpoint byte_lines_from (bs cur : bytes) : list bytes :=
  match bs with
  | [] => match cur with [] => [] | _ :: _ => [rev cur] end
  | b :: bs' =>
      if (Byte.to_N b =? 10)%N then rev (b :: cur) :: byte_lines_from bs' []
      else byte_lines_from bs' (b :: cur)
  end.

Definition byte_lines (content : bytes) : list bytes := byte_lines_from content [].

(** Universal newlines of text mode: CR LF and a lone CR read as LF. *)
Fixpoint universal_newlines (s : str) : str :=
  match s with
  | [] => []
  | c :: s' =>
      if (c =? 13)%N then
        match s' with
        | d :: s'' => if (d =? 10)%N then 10%N :: universal_newlines s''
                      else 10%N :: universal_newlines s'
        | [] => [10%N]
        end
      else c :: universal_newlines s'
  end.

Fixpoint text_lines_from (s cur : str) : list str :=
  match s with
  | [] => match cur with [] => [] | _ :: _ => [rev cur] end
  | c :: s' =>
      if (c =? 10)%N then rev (c :: cur) :: text_lines_from s' []
      else text_lines_from s' (c :: cur)
  end.

(** The lines a file object yields in text mode. *)
Definition text_lines (content : str) : list str :=
  text_lines_from (universal_newlines content) [].

(** [f.readline()] on a freshly opened file, and the lines left for the
    iteration that follows it. *)
Definition first_line {A} (lines : list (list A)) : list A :=
  match lines with [] => [] | l :: _ => l end.

Definition later_lines {A} (lines : list (list A)) : list (list A) :=
  match lines with [] => [] | _ :: ls => ls end.

End Py.

Import Py.

(** ** The regular expressions of [model.py]

    Each pattern of the source is a fixed shape; it is embedded as the
    scanner that decides it.  [\w] on a [str] asks the interpreter's
    Unicode database whether a character is alphanumeric; the database is
    an interface of the runtime, the ASCII range is written out. *)

Class UnicodeData := { isalnum_above_ascii : char -> bool }.

Module Re.

Definition is_word `{UnicodeData} (c : char) : bool :=
  (if c <? 128
   then (48 <=? c) && (c <=? 57) || (65 <=? c) && (c <=? 90)
        || (c =? 95) || (97 <=? c) && (c <=? 122)
   else isalnum_above_ascii c)%N.

(** [re.split(r"\w+", s)]: the pieces between the maximal runs of word
    characters, with the empty pieces at the ends. *)
Fixpoint split_words_from `{UnicodeData} (s cur : str) (in_word : bool) : list str :=
  match s with
  | [] => [rev cur]
  | c :: s' =>
      if is_word c then
        if in_word then split_words_from s' [] true
        else rev cur :: split_words_from s' [] true
      else split_words_from s' (c :: cur) false
  end.

Definition split_words `{UnicodeData} (s : str) : list str :=
  split_words_from s [] false.

(** A word character or the space. *)
Definition word_or_space `{UnicodeData} (c : char) : bool :=
  is_word c || (c =? space)%N.

(** [re.search("[^ ]", s) is None]. *)
Definition only_spaces (s : str) : bool := forallb (fun c => (c =? 32)%N) s.

(** [re.match(r"^\w+[).] ", line)]. *)
Definition list_marker `{UnicodeData} (line : str) : bool :=
  match line with
  | [] => false
  | c :: _ =>
      is_word c
      && match dropwhile is_word line with
         | m :: sp :: _ => ((m =? 41) || (m =? 46))%N && (sp =? 32)%N
         | _ => false
         end
  end.

(** [re.sub(r"^ +", "", s, 0, re.MULTILINE)]. *)
Fixpoint drop_indent (s : str) (line_start : bool) : str :=
  match s with
  | [] => []
  | c :: s' =>
      if line_start && (c =? 32)%N then drop_indent s' true
      else c :: drop_indent s' (c =? 10)%N
  end.

(** [re.sub(f"{delimiter}$", "", record)] for a delimiter that the
    pattern language reads literally and that is not the newline: [$]
    stands at the end of the string and before a newline that ends it. *)
Definition drop_final (delimiter record : str) : str :=
  let n := len record in
  let k := len delimiter in
  if negb (truthy delimiter) then record
  else if str_eqb (slice record (Some (n - k)) None) delimiter && (k <=? n)
  then slice record None (Some (n - k))
  else if str_eqb (slice record (Some (n - k - 1)) None) (delimiter ++ [10%N])
          && (k + 1 <=? n)
  then slice record None (Some (n - k - 1)) ++ [10%N]
  else record.

(** [re.findall(f"(?<=[^{q}]){q}+(?=[^{q}])", value)] for a qualifier
    character that the pattern language reads literally: the maximal runs
    of [q] with a character other than [q] on either side.  [run] is the
    run being read, when a character other than [q] stands before it. *)
Fixpoint inner_runs_from (q : char) (s : str) (run : option str) (after_other : bool)
  : list str :=
  match s with
  | [] => []
  | c :: s' =>
      if (c =? q)%N then
        match run with
        | Some r => inner_runs_from q s' (Some (c :: r)) false
        | None => inner_runs_from q s' (if after_other then Some [c] else None) false
        end
      else
        match run with
        | Some r => r :: inner_runs_from q s' None true
        | None => inner_runs_from q s' None true
        end
  end.

Definition inner_runs (q : char) (value : str) : list str :=
  inner_runs_from q value None false.

End Re.

(** ** [model.py] *)

(** [trim_indent] *)
Definition trim_indent (line : str) : str := strip (Re.drop_indent line true).

Module BadEscape.

Record t := Build {
  qualifier : str;
  record : str;
  values : list str
}.

Definition escape_qualifiers (self : t) (accumulator value : str) : str :=
  replace accumulator
    (qualifier self ++ value ++ qualifier self)
    (qualifier self
     ++ replace value (qualifier self) (qualifier self ++ qualifier self)
     ++ qualifier self).

Definition fix_record (self : t) : str :=
  fold_left (escape_qualifiers self) (values self) (record self).

End BadEscape.

Module PeekResult.

Record t := Build {
  code : Z;
  path : str;
  message : str;
  delimiter : str;
  qualifier : str;
  encoding : str
}.

(** The constructor with its three defaulted fields. *)
Definition failure (code : Z) (path message : str) : t :=
  Build code path message [] [] [].

End PeekResult.

Module BadDelimiterChange.

Record t := Build {
  row : Z;
  start : Z;
  end_ : Z;
  old_row : list str
}.

End BadDelimiterChange.

Module TextDataDoctor.

(** *** [peek_file]

    The file at [path] is [Some] of its bytes, or [None] when there is no
    such file.  The function answers with the labels it sent to
    [progress_signal], in order, and with what it returned or raised. *)

Definition null_byte_message : str := trim_indent (lit "
                        Found null byte in header line.
                        This usually means the file is not an 8 byte encoding.
                        Currently this application only supports 8 byte encodings").

Definition invalid_byte_message : str := trim_indent (lit "
                    Encoding is not ut8 and cp1252 failed as well.
                    This means the file contains an invalid byte that needs to be resolved:").

(** [for byte_line in f: lines.append(byte_line.decode(encoding))]. *)
Fixpoint decode_lines (byte_lines : list bytes) (encoding : codec) : result (list str) :=
  match byte_lines with
  | [] => Returned []
  | b :: bs =>
      bind (decode b encoding) (fun line =>
      bind (decode_lines bs encoding) (fun lines => Returned (line :: lines)))
  end.

(** The loop of the fallback pass: a line that does not decode is kept
    in [bad_lines]. *)
Fixpoint decode_lines_keeping_bad (byte_lines : list bytes) (encoding : codec)
  : list str * list bytes :=
  match byte_lines with
  | [] => ([], [])
  | b :: bs =>
      let (lines, bad_lines) := decode_lines_keeping_bad bs encoding in
      match decode b encoding with
      | Returned line => (line :: lines, bad_lines)
      | Raised _ => (lines, b :: bad_lines)
      end
  end.

(** How the [try] block ends. *)
Inductive try_end :=
| TryReturned (r : PeekResult.t)
| TryRaised (e : exn)
| TryCompleted (header : str) (lines : list str).

Definition peek_try (file : option bytes) (path : str) : list str * try_end :=
  match file with
  | None => ([], TryRaised FileNotFoundError)
  | Some content =>
      let f := byte_lines content in
      let byte_header := first_line f in
      let sent := [lit "Collecting byte header"; lit "Checking for non 8 byte encoding"] in
      if byte_in 0%N byte_header then
        (sent, TryReturned (PeekResult.failure (-6) path null_byte_message))
      else
        match decode byte_header utf8 with
        | Raised e => (sent, TryRaised e)
        | Returned h =>
            let header := rstrip h [CR; LF] in
            let sent := sent ++ [lit "Reading lines to confirm utf8 encoding"] in
            match decode_lines (later_lines f) utf8 with
            | Raised e => (sent, TryRaised e)
            | Returned lines => (sent, TryCompleted header lines)
            end
        end
  end.

(** The [except UnicodeDecodeError] handler, up to the statement that
    follows the second [with] block. *)
Definition peek_fallback (content : bytes)
  : list str * result (str * list str * list bytes) :=
  let sent := [lit "utf8 failed. Trying cp1252"] in
  let f := byte_lines content in
  match decode (first_line f) cp1252 with
  | Raised e => (sent, Raised e)
  | Returned h =>
      let header := rstrip h [CR; LF] in
      let (lines, bad_lines) := decode_lines_keeping_bad (later_lines f) cp1252 in
      (sent, Returned (header, lines, bad_lines))
  end.

(** [for char in check_space: if check_space.find(char) ==
    check_space.rfind(char): ...]: the first character that occurs
    once. *)
Fixpoint first_single (chars check_space : str) : option str :=
  match chars with
  | [] => None
  | c :: chars' =>
      if find check_space [c] 0 =? rfind check_space [c] then Some [c]
      else first_single chars' check_space
  end.

(** The characters of [set(s)].  The order in which a set is iterated is
    not fixed; [peek_file] uses the joined set only when it has one
    character. *)
Fixpoint distinct (s : str) : str :=
  match s with
  | [] => []
  | c :: s' => if char_in c s' then distinct s' else c :: distinct s'
  end.

(** From ["Finding delimiter and qualifier"] to the end. *)
Definition peek_guess `{UnicodeData} (path header : str) (encoding : codec)
  : list str * result PeekResult.t :=
  let sent := [lit "Finding delimiter and qualifier"] in
  let spacers :=
    map (fun spacer => replace spacer [space] [])
        (filter (fun spacer => negb (str_eqb (replace spacer [space] []) []))
                (Re.split_words header)) in
  (sent,
   bind (if 1 <? len spacers then getitem spacers 1 else getitem spacers 0)
   (fun check_space =>
   if Re.only_spaces check_space then
     Returned (PeekResult.failure (-3) path (lit "Could not find delimiter"))
   else
     let check_space := replace check_space [space] [] in
     match first_single check_space check_space with
     | None => Returned (PeekResult.failure (-4) path (lit "Could not find delimiter"))
     | Some delimiter =>
         let check_space := distinct (replace check_space delimiter []) in
         let qualifier := if len check_space =? 1 then check_space else [] in
         Returned (PeekResult.Build 1 path [] delimiter qualifier (codec_name encoding))
     end)).

Definition peek_file `{UnicodeData} (file : option bytes) (path : str)
  : list str * result PeekResult.t :=
  match peek_try file path with
  | (sent, TryReturned r) => (sent, Returned r)
  | (sent, TryRaised FileNotFoundError) =>
      (sent, Returned (PeekResult.failure (-1) path (lit "File not found")))
  | (sent, TryRaised UnicodeDecodeError) =>
      match file with
      | None => (sent, Raised FileNotFoundError)
      | Some content =>
          match peek_fallback content with
          | (sent', Raised e) => (sent ++ sent', Raised e)
          | (sent', Returned (header, lines, bad_lines)) =>
              (* [if bad_lines: PeekResult(...)]: the result is built and
                 dropped, the function goes on *)
              let dropped :=
                if truthy bad_lines then
                  Some (PeekResult.failure (-2) path
                          (invalid_byte_message
                           ++ join [] (map bytes_repr bad_lines)))
                else None in
              let (sent'', r) := peek_guess path header cp1252 in
              (sent ++ sent' ++ sent'', r)
          end
      end
  | (sent, TryRaised e) => (sent, Raised e)
  | (sent, TryCompleted header lines) =>
      let (sent', r) := peek_guess path header utf8 in
      (sent ++ sent', r)
  end.

(** *** The class

    [record_start_regex] is the compiled pattern as [get_records] uses
    it: whether [match(line)] finds a match.  [text] is the content of
    the file at [path], decoded under [encoding]: the model reads a file
    that decodes. *)

Record t := Build {
  record_start_regex : str -> bool;
  path : str;
  text : str;
  delimiter : str;
  qualifier : str;
  encoding : codec;
  overflow_lines : list Z;
  all_qualified : bool;
  header_line : str;
  columns : list str;
  header_delimiter_count : Z
}.

(** [__init__] *)
Definition init (record_start_regex : str -> bool) (path text delimiter qualifier : str)
  (encoding : codec) : result t :=
  let all_qualified := true in
  let header_line := rstrip (first_line (text_lines text)) [CR; LF] in
  bind (split header_line delimiter) (fun names =>
  Returned
    (Build record_start_regex path text delimiter qualifier encoding
       [] all_qualified header_line
       (map (fun column => replace column qualifier []) names)
       (count header_line delimiter))).

Definition all_qualified_pattern (self : t) : str :=
  qualifier self ++ delimiter self ++ qualifier self.

Definition start_pattern (self : t) : str := delimiter self ++ qualifier self.

Definition end_pattern (self : t) : str := qualifier self ++ delimiter self.

Definition is_not_end_qualified_values (self : t) (record : str) (start end_ : Z) : bool :=
  contains (start_pattern self) (slice record (Some start) (Some end_))
  && contains (end_pattern self) (slice record (Some start) (Some end_))
  && (start <? end_).

(** [find_value_end] calls itself with a position further right each
    time; [depth] bounds the nesting of the calls, and the length of the
    record, plus one, is never exhausted ([find_value_end_unfold]).  The
    recursion limit of the interpreter is not part of this definition;
    it is in [RecursionLimit.find_value_end]. *)
Fixpoint find_value_end_within (depth : nat) (self : t) (record : str) (end_position : Z)
  : Z :=
  let result := end_position in
  let next_start := find record (start_pattern self) (end_position + 1) in
  let next_end := find record (end_pattern self) (end_position + 1) in
  if negb (next_end =? -1) then
    if negb (next_start =? -1) && (next_end <? next_start) || (next_start =? -1) then
      match depth with
      | O => result
      | S depth' => find_value_end_within depth' self record next_end
      end
    else result
  else result.

Definition find_value_end (self : t) (record : str) (end_position : Z) : Z :=
  find_value_end_within (S (length record)) self record end_position.

(** *** [get_qualifier_values] *)

(** The variables of the [while] loop and what it has yielded. *)
Record scan := Scan {
  start : Z;
  loop_counter : Z;
  found : list str
}.

(** One evaluation of the loop: another turn, or the end of the
    generator. *)
Inductive turn :=
| Again (st : scan)
| Over (g : generated str).

(** The body of the [try]. *)
Definition scan_value (self : t) (record : str) (start : Z) : result (str * Z) :=
  bind (index record (start_pattern self) start) (fun value_start =>
  bind (index record (end_pattern self) value_start) (fun end_position =>
  let value_end := find_value_end self record end_position in
  Returned (slice record (Some (value_start + 2)) (Some value_end), value_end + 1))).

(** The two statements after the [try]. *)
Definition count_turn (st : scan) : turn :=
  let loop_counter := loop_counter st + 1 in
  if 100 <? loop_counter
  then Over (Generated (found st) (Some (Exception "Too many while loops")))
  else Again (Scan (start st) loop_counter (found st)).

Definition scan_turn (self : t) (record : str) (end_ : Z) (st : scan) : turn :=
  if is_not_end_qualified_values self record (start st) end_ then
    match scan_value self record (start st) with
    | Returned (value, start') =>
        count_turn (Scan start' (loop_counter st) (found st ++ [value]))
    | Raised IndexError => count_turn st
    | Raised e => Over (Generated (found st) (Some e))
    end
  else Over (Generated (found st) None).

(** The loop, run for at most [turns] turns; [None] when it has not
    ended by then. *)
Fixpoint scan_loop (turns : nat) (self : t) (record : str) (end_ : Z) (st : scan)
  : option (generated str) :=
  match turns with
  | O => None
  | S turns' =>
      match scan_turn self record end_ st with
      | Over g => Some g
      | Again st' => scan_loop turns' self record end_ st'
      end
  end.

(** The first [if]: what it yields and the new [start]. *)
Definition leading_value (self : t) (record : str) : result (list str * Z) :=
  bind (char_at record 0) (fun first =>
  if str_eqb first (qualifier self) && contains (end_pattern self) record then
    bind (index (slice record (Some 1) None) (end_pattern self) 0) (fun temp_start =>
    Returned ([slice record (Some 1) (Some temp_start)], temp_start))
  else Returned ([], 0)).

(** The second [if]: what it yields and the new [end]. *)
Definition trailing_value (self : t) (record : str) (end_ : Z) : result (list str * Z) :=
  bind (char_at record (-1)) (fun last =>
  if str_eqb last (qualifier self) && contains (start_pattern self) record then
    bind (rindex (slice record None (Some (-1))) (start_pattern self)) (fun last_pattern =>
    Returned ([slice record (Some (last_pattern + 1)) (Some (end_ - 1))], last_pattern + 1))
  else Returned ([], end_)).

(** The generator run with a bound on the turns of its loop. *)
Definition get_qualifier_values_within (turns : nat) (self : t) (record : str)
  : option (generated str) :=
  if negb (truthy (qualifier self)) then
    Some (Generated []
      (Some (AttributeError "Tried to get qualified values for file without qualifiers")))
  else if negb (truthy record) then
    Some (Generated []
      (Some (AttributeError "Tried to get qualified values for a blank record")))
  else
    match leading_value self record with
    | Raised e => Some (Generated [] (Some e))
    | Returned (head, start) =>
        match trailing_value self record (len record) with
        | Raised e => Some (Generated head (Some e))
        | Returned (tail, end_) =>
            scan_loop turns self record end_ (Scan start 0 (head ++ tail))
        end
    end.

(** 101 turns always end the loop ([get_qualifier_values_within_101]);
    the other branch of the [match] is never taken. *)
Definition get_qualifier_values (self : t) (record : str) : generated str :=
  match get_qualifier_values_within 101 self record with
  | Some g => g
  | None => Generated [] None
  end.

(** *** [non_escaped_qualifiers]

    The qualifier is one character ([validate_file_options]) that the
    pattern language reads literally; the method is not called with an
    empty qualifier. *)
Definition non_escaped_qualifiers (self : t) (value : str) : bool :=
  match qualifier self with
  | [q] =>
      existsb (fun m => negb (count m (qualifier self) mod 2 =? 0))
              (Re.inner_runs q value)
  | _ => false
  end.

(** *** [get_records] *)

(** The record being assembled, the records yielded so far and
    [self.overflow_lines]. *)
Record reader := Reader {
  record : str;
  passed : list str;
  overflow : list Z
}.

(** [record += f"\r{line}"; self.overflow_lines.append(i+2)]. *)
Definition fold_line (st : reader) (i : Z) (line : str) : reader :=
  Reader (record st ++ [CR] ++ line) (passed st) (overflow st ++ [i + 2]).

(** [yield record; record = line]. *)
Definition pass_record (st : reader) (line : str) : reader :=
  Reader line (passed st ++ [record st]) (overflow st).

(** The body of the [for] loop on line [i]. *)
Definition read_line `{UnicodeData} (self : t) (st : reader) (i : Z) (line : str)
  : result reader :=
  let line := rstrip line [CR; LF] in
  if record_start_regex self line then
    Returned (if truthy (record st) then pass_record st line
              else Reader line (passed st) (overflow st))
  else if negb (truthy line) then Returned (fold_line st i line)
  else
    bind
      (if truthy (qualifier self) then
         let last_start := rfind (record st) (start_pattern self) in
         let last_end := rfind (record st) (end_pattern self) in
         bind (char_at (record st) (-1)) (fun last =>
         Returned (negb (str_eqb last (qualifier self))
                   && negb (last_start =? -1)
                   && (last_end <? last_start)))
       else Returned false)
      (fun check_exp =>
       if check_exp then Returned (fold_line st i line)
       else if Re.list_marker line then Returned (fold_line st i line)
       else if negb (count line (delimiter self) =? header_delimiter_count self)
       then Returned (fold_line st i line)
       else Returned (pass_record st line)).

Fixpoint read_lines `{UnicodeData} (self : t) (lines : list str) (i : Z) (st : reader)
  : generated str * list Z :=
  match lines with
  | [] => (Generated (passed st ++ [record st]) None, overflow st)
  | line :: lines' =>
      match read_line self st i line with
      | Returned st' => read_lines self lines' (i + 1) st'
      | Raised e => (Generated (passed st) (Some e), overflow st)
      end
  end.

(** The generator run to its end, and [self.overflow_lines] after it. *)
Definition get_records `{UnicodeData} (self : t) : generated str * list Z :=
  read_lines self (later_lines (text_lines (text self))) 0 (Reader [] [] []).

End TextDataDoctor.

(** *** [get_qualifier_values] under the recursion limit

    [find_value_end] calls itself once for each end pattern it passes
    over, and the interpreter raises [RecursionError] for a call that
    finds no frame left on its stack.  [frames] is the number of frames
    left where [find_value_end] is called; with more frames than the
    record has characters these definitions are those of
    [TextDataDoctor] ([get_qualifier_values_deep_stack]). *)
Module RecursionLimit.

Import TextDataDoctor.

Fixpoint find_value_end (frames : nat) (self : t) (record : str) (end_position : Z)
  : result Z :=
  match frames with
  | O => Raised RecursionError
  | S frames' =>
      let result := end_position in
      let next_start := find record (start_pattern self) (end_position + 1) in
      let next_end := find record (end_pattern self) (end_position + 1) in
      if negb (next_end =? -1) then
        if negb (next_start =? -1) && (next_end <? next_start) || (next_start =? -1) then
          find_value_end frames' self record next_end
        else Returned result
      else Returned result
  end.

(** The body of the [try]. *)
Definition scan_value (frames : nat) (self : t) (record : str) (start : Z)
  : result (str * Z) :=
  bind (index record (start_pattern self) start) (fun value_start =>
  bind (index record (end_pattern self) value_start) (fun end_position =>
  bind (find_value_end frames self record end_position) (fun value_end =>
  Returned (slice record (Some (value_start + 2)) (Some value_end), value_end + 1)))).

(** One evaluation of the loop: its condition, the [try] with its
    [except IndexError] and the two statements that count the turn. *)
Definition scan_turn (frames : nat) (self : t) (record : str) (end_ : Z) (st : scan)
  : turn :=
  if is_not_end_qualified_values self record (start st) end_ then
    match scan_value frames self record (start st) with
    | Returned (value, start') =>
        count_turn (Scan start' (loop_counter st) (found st ++ [value]))
    | Raised IndexError => count_turn st
    | Raised e => Over (Generated (found st) (Some e))
    end
  else Over (Generated (found st) None).

(** The [while] loop as it runs, with no bound of the model's on its
    turns: from the variables [st], the loop evaluates its condition
    [n] times, the last time with the variables [last], and the
    generator ends as [g]. *)
Inductive runs (frames : nat) (self : t) (record : str) (end_ : Z)
  : scan -> nat -> scan -> generated str -> Prop :=
| runs_last (st : scan) (g : generated str) :
    scan_turn frames self record end_ st = Over g ->
    runs frames self record end_ st 1 st g
| runs_next (st st' : scan) (n : nat) (last : scan) (g : generated str) :
    scan_turn frames self record end_ st = Again st' ->
    runs frames self record end_ st' n last g ->
    runs frames self record end_ st (S n) last g.

(** The loop as a function, run for at most [turns] evaluations of its
    condition. *)
Fixpoint scan_loop (turns frames : nat) (self : t) (record : str) (end_ : Z) (st : scan)
  : option (generated str) :=
  match turns with
  | O => None
  | S turns' =>
      match scan_turn frames self record end_ st with
      | Over g => Some g
      | Again st' => scan_loop turns' frames self record end_ st'
      end
  end.

(** The generator up to its loop: how it ended, when it ended there, or
    the variables with which the loop is entered and [end]. *)
Definition entry (self : t) (record : str) : generated str + scan * Z :=
  if negb (truthy (qualifier self)) then
    inl (Generated []
      (Some (AttributeError "Tried to get qualified values for file without qualifiers")))
  else if negb (truthy record) then
    inl (Generated []
      (Some (AttributeError "Tried to get qualified values for a blank record")))
  else
    match leading_value self record with
    | Raised e => inl (Generated [] (Some e))
    | Returned (head, start) =>
        match trailing_value self record (len record) with
        | Raised e => inl (Generated head (Some e))
        | Returned (tail, end_) => inr (Scan start 0 (head ++ tail), end_)
        end
    end.

(** The generator run to its end.  101 evaluations always end the loop
    ([runs_within]); the last branch is never taken. *)
Definition get_qualifier_values (frames : nat) (self : t) (record : str) : generated str :=
  match entry self record with
  | inl g => g
  | inr (st, end_) =>
      match scan_loop 101 frames self record end_ st with
      | Some g => g
      | None => Generated [] None
      end
  end.

End RecursionLimit.

Module AnalyzeResult.

Record t := Build {
  code : Z;
  temp_file : str;
  delimiter : str;
  columns : list str;
  overflow_lines : list Z;
  message : str;
  bad_delimiters : list str;
  bad_escapes : list BadEscape.t
}.

End AnalyzeResult.

Module Analysis.

Import TextDataDoctor.

(** *** [analyze_file]

    [temp_file] is the text written to the temporary file, which is
    opened with [newline="\n"]: what is written is what the file
    holds. *)
Record pass := Pass {
  bad_escapes : list BadEscape.t;
  bad_delimiters : list str;
  too_few_delimiters : bool;
  temp_file : str
}.

(** [self.qualifier in record and self.qualifier] as a condition. *)
Definition qualifier_in (self : t) (record : str) : bool :=
  contains (qualifier self) record && truthy (qualifier self).

(** The values the escape check looks at. *)
Definition escape_checks (self : t) (record : str) : result (list str) :=
  if all_qualified self then
    split (slice record (Some 1) (Some (-1))) (all_qualified_pattern self)
  else consume (get_qualifier_values self record).

(** The delimiter count taken again when a qualifier is in the record. *)
Definition recount (self : t) (record : str) (delimiter_count : Z) : result Z :=
  if all_qualified self then
    bind (split record (all_qualified_pattern self)) (fun parts =>
    Returned (len parts - 1))
  else
    bind (consume (get_qualifier_values self record)) (fun values =>
    Returned (delimiter_count
              - sum (map (fun value => count value (delimiter self)) values))).

(** The body of the [for] loop. *)
Definition analyze_record (self : t) (st : pass) (record : str) : result pass :=
  let is_bad_record := false in
  bind
    (if qualifier_in self record then
       let record :=
         if all_qualified self then Re.drop_final (delimiter self) record
         else record in
       bind (escape_checks self record) (fun checks =>
       let result := filter (non_escaped_qualifiers self) checks in
       if truthy result then
         Returned (record,
                   bad_escapes st ++ [BadEscape.Build (qualifier self) record result],
                   true)
       else Returned (record, bad_escapes st, is_bad_record))
     else Returned (record, bad_escapes st, is_bad_record))
    (fun '(record, bad_escapes, is_bad_record) =>
     let delimiter_count := count record (delimiter self) in
     bind
       (if negb (delimiter_count =? header_delimiter_count self) then
          if qualifier_in self record then
            bind (recount self record delimiter_count) (fun delimiter_count =>
            if negb (delimiter_count =? header_delimiter_count self) then
              Returned (bad_delimiters st ++ [record], true,
                        delimiter_count <? header_delimiter_count self)
            else Returned (bad_delimiters st, is_bad_record, too_few_delimiters st))
          else
            Returned (bad_delimiters st ++ [record], true,
                      delimiter_count <? header_delimiter_count self)
        else Returned (bad_delimiters st, is_bad_record, too_few_delimiters st))
       (fun '(bad_delimiters, is_bad_record, too_few_delimiters) =>
        Returned
          (Pass bad_escapes bad_delimiters too_few_delimiters
             (if negb is_bad_record then temp_file st ++ record ++ [LF]
              else temp_file st)))).

Fixpoint analyze_records (self : t) (st : pass) (records : list str) : result pass :=
  match records with
  | [] => Returned st
  | record :: records' =>
      bind (analyze_record self st record) (fun st' =>
      analyze_records self st' records')
  end.

(** The [if]/[elif] chain that ends [analyze_file]: the code and the
    message as written, before [trim_indent]. *)
Definition classify (bad_escapes : list BadEscape.t) (bad_delimiters : list str)
  (qualifier : str) (too_few_delimiters : bool) (overflow_lines : list Z) : Z * str :=
  if truthy bad_escapes && truthy bad_delimiters then
    (-1, lit "
            Non-escaped qualifier and records with improper delimiters exist.
            No fix is available since assumptions cannot be made without error possibly arising.
            Please contact data owner to report this issue or try a new record start Regex")
  else if truthy bad_escapes then
    (-2, lit "
            Non-escaped qualifiers exist within the data.
            The issues have been resolved and the resulting fixed file can be exported")
  else if truthy bad_delimiters && negb (truthy qualifier) && negb too_few_delimiters then
    (-3, lit "
            Records with improper delimiters exist.
            To resolve these instance follow the steps in the fix file tab to merge values that
            appear to contain the delimiter but are not qualified to retain the original integrity
            of the data. More information can be found in the documentation")
  else if truthy bad_delimiters && too_few_delimiters then
    (-4, lit "
            Records with improper delimiters exist.
            However, there are records with too few delimiters. This is a case where the application
            cannot resolve the issue since we cannot infer the intended data structure. A possible
            solution could be a more precise/encompassing records start regex to better categorize 
            records. If all else fails please contact the data owner")
  else if truthy bad_delimiters && truthy qualifier then
    (-5, lit "
            Records with improper delimiters exist.
            However, a qualifier is present so we cannot merge and qualify values to resolve this
            issue. This may point to a bad record start regex so a rework of that might be needed.
            If not, please contact the data owner")
  else if negb (truthy bad_delimiters) && negb (truthy bad_escapes) then
    if truthy overflow_lines && negb (truthy qualifier) then
      (-6, lit "
                No issues found with the records.
                However, not qualifier was set but overflow of records was detected. This means most
                text data parsers might not be able to read this file so it would be best to export
                the file to qualify the file and properly structure the data")
    else
      (1, lit "No fix needed!")
  else
    (-7, lit "
            Unexpected error occurred. Pleas report this case and subsequent logs to
            the developer").

(** [temp_file.writelines(lines)] writes the lines one after the other. *)
Definition writelines (file : str) (lines : list str) : str := file ++ concat lines.

Definition analyze_file `{UnicodeData} (self : t) : result AnalyzeResult.t :=
  let written := header_line self ++ [LF] in
  let '(records, overflow_lines) := get_records self in
  bind (analyze_records self (Pass [] [] false written) (yielded records)) (fun st =>
  match ended records with
  | Some e => Raised e
  | None =>
      let written :=
        writelines (temp_file st) (map BadEscape.fix_record (bad_escapes st)) in
      let '(code, message) :=
        classify (bad_escapes st) (bad_delimiters st) (qualifier self)
                 (too_few_delimiters st) overflow_lines in
      Returned
        (AnalyzeResult.Build code written (delimiter self) (columns self)
           overflow_lines (trim_indent message) (bad_delimiters st) (bad_escapes st))
  end).

End Analysis.

(** ** [viewmodel.py]: the table of records with bad delimiters *)

Module BadDelimitersTableModel.

(** The fields the edits read and write.  The signal [dataChanged] is
    sent to the view and does not come back into the model. *)
Record t := Build {
  delimiter : str;
  current_change : Z;
  table_changes : list BadDelimiterChange.t;
  columns : list str;
  bad_delimiters : list (list str);
  good_records : list (list str)
}.

(** A slot that has run: the model it leaves and the exception that
    stopped it, if any. *)
Record ran := Ran {
  model : t;
  raised : option exn
}.

Definition with_rows (self : t) (rows : list (list str)) : t :=
  Build (delimiter self) (current_change self) (table_changes self)
        (columns self) rows (good_records self).

Definition with_cursor (self : t) (cursor : Z) : t :=
  Build (delimiter self) cursor (table_changes self)
        (columns self) (bad_delimiters self) (good_records self).

Definition with_changes (self : t) (changes : list BadDelimiterChange.t) : t :=
  Build (delimiter self) (current_change self) changes
        (columns self) (bad_delimiters self) (good_records self).

Definition get_row (self : t) (row : Z) : result (list str) :=
  if row =? -1 then Raised IndexError
  else if len (bad_delimiters self) - 1 <? row - 10 then Raised IndexError
  else getitem (bad_delimiters self) (row - 10).

Definition get_new_row (self : t) (row start end_ : Z) : result (list str) :=
  bind (get_row self row) (fun old_row =>
  let new_value := join (delimiter self) (slice old_row (Some start) (Some (end_ + 1))) in
  Returned (slice old_row None (Some start) ++ [new_value]
            ++ slice old_row (Some (end_ + 1)) None)).

(** [while len(self.table_changes) - 1 > self.current_change: del
    self.table_changes[-1]], on the list read from its last entry. *)
Fixpoint drop_later (reversed : list BadDelimiterChange.t) (current_change : Z)
  : list BadDelimiterChange.t :=
  match reversed with
  | [] => []
  | _ :: earlier =>
      if current_change <? len reversed - 1 then drop_later earlier current_change
      else reversed
  end.

Definition merge_cells (self : t) (row start end_ : Z) : ran :=
  match getitem (bad_delimiters self) (row - 10) with
  | Raised e => Ran self (Some e)
  | Returned cells =>
      if end_ <? len cells then
        match get_new_row self row start end_ with
        | Raised e => Ran self (Some e)
        | Returned new_row =>
            match get_row self row with
            | Raised e => Ran self (Some e)
            | Returned old_row =>
                let change := BadDelimiterChange.Build row start end_ old_row in
                match setitem (bad_delimiters self) (row - 10) new_row with
                | Raised e => Ran self (Some e)
                | Returned rows =>
                    let self := with_rows self rows in
                    let kept := rev (drop_later (rev (table_changes self))
                                                (current_change self)) in
                    let self := with_changes self (kept ++ [change]) in
                    Ran (with_cursor self (current_change self + 1)) None
                end
            end
        end
      else Ran self None
  end.

Definition undo_change (self : t) : ran :=
  if negb (truthy (table_changes self)) || (current_change self =? -1) then Ran self None
  else
    match getitem (table_changes self) (current_change self) with
    | Raised e => Ran self (Some e)
    | Returned change =>
        match setitem (bad_delimiters self) (BadDelimiterChange.row change - 10)
                      (BadDelimiterChange.old_row change) with
        | Raised e => Ran self (Some e)
        | Returned rows =>
            Ran (with_cursor (with_rows self rows) (current_change self - 1)) None
        end
    end.

Definition redo_change (self : t) : ran :=
  if current_change self + 1 =? len (table_changes self) then Ran self None
  else
    let self := with_cursor self (current_change self + 1) in
    match getitem (table_changes self) (current_change self) with
    | Raised e => Ran self (Some e)
    | Returned change =>
        match get_new_row self (BadDelimiterChange.row change)
                (BadDelimiterChange.start change) (BadDelimiterChange.end_ change) with
        | Raised e => Ran self (Some e)
        | Returned new_row =>
            match setitem (bad_delimiters self) (BadDelimiterChange.row change) new_row with
            | Raised e => Ran self (Some e)
            | Returned rows => Ran (with_rows self rows) None
            end
        end
    end.

(** One slot after another; an exception ends the slot it is raised in,
    the model stays as that slot left it. *)
Definition then_ (r : ran) (slot : t -> ran) : ran :=
  match raised r with
  | None => slot (model r)
  | Some _ => r
  end.

End BadDelimitersTableModel.

(** ** The rows of the outcome classification

    The chain of [analyze_file] read as a table: the code of each
    branch with the condition written on it, in the order of the chain.
    The last branch, [else], has no condition of its own. *)

Module Outcome.

Record facts := Facts {
  has_bad_escapes : bool;
  has_bad_delimiters : bool;
  has_qualifier : bool;
  too_few : bool;
  has_overflow : bool
}.

Definition facts_of (bad_escapes : list BadEscape.t) (bad_delimiters : list str)
  (qualifier : str) (too_few_delimiters : bool) (overflow_lines : list Z) : facts :=
  Facts (truthy bad_escapes) (truthy bad_delimiters) (truthy qualifier)
        too_few_delimiters (truthy overflow_lines).

Definition overflow_without_qualifier (f : facts) : bool :=
  has_overflow f && negb (has_qualifier f).

(** The rows of the table of section 4.6 of the specification, in its
    words: the condition stated for each code but the last. *)
Definition row (f : facts) (code : Z) : bool :=
  match code with
  | 1 => negb (has_bad_escapes f) && negb (has_bad_delimiters f)
         && negb (overflow_without_qualifier f)
  | -1 => has_bad_escapes f && has_bad_delimiters f
  | -2 => has_bad_escapes f && negb (has_bad_delimiters f)
  | -3 => negb (has_bad_escapes f) && has_bad_delimiters f
          && negb (has_qualifier f) && negb (too_few f)
  | -4 => negb (has_bad_escapes f) && has_bad_delimiters f && too_few f
  | -5 => negb (has_bad_escapes f) && has_bad_delimiters f && has_qualifier f
  | -6 => negb (has_bad_escapes f) && negb (has_bad_delimiters f)
          && has_overflow f && negb (has_qualifier f)
  | _ => false
  end.

(** The codes in the order in which the chain of [analyze_file] tests
    them; the last two are the two arms of its last test. *)
Definition chain_order : list Z := [-1; -2; -3; -4; -5; -6; 1].

(** The condition the table states for each code; the row of -7 is
    [none of the above combinations]. *)
Definition stated (f : facts) (code : Z) : bool :=
  match code with
  | -7 => negb (existsb (row f) chain_order)
  | _ => row f code
  end.

(** Exactly one row of the table applies. *)
Definition one_row_applies (f : facts) : Prop :=
  exists code,
    stated f code = true /\ forall code', stated f code' = true -> code' = code.

End Outcome.

(** ** Inputs of the worked cases *)

Module Cases.

(** A literal in which the apostrophe stands for the double quote. *)
Definition dq (s : string) : str :=
  map (fun c => if (c =? 39)%N then 34%N else c) (lit s).
Arguments dq s%_string.

(** A database with no alphanumeric character above ASCII, enough for
    ASCII input. *)
Definition ascii_only : UnicodeData := {| isalnum_above_ascii := fun _ => false |}.

(** The matcher of the pattern [\d] on ASCII lines. *)
Definition digit_first (line : str) : bool :=
  match line with
  | c :: _ => ((48 <=? c) && (c <=? 57))%N
  | [] => false
  end.

(** The matcher of the pattern made of a double quote and [\d], on
    ASCII lines. *)
Definition quoted_digit_first (line : str) : bool :=
  match line with
  | q :: c :: _ => ((q =? 34) && (48 <=? c) && (c <=? 57))%N
  | _ => false
  end.

Definition lines (ls : list str) : str := concat (map (fun l => l ++ [LF]) ls).

(** A doctor for the comma as delimiter and the double quote as
    qualifier, over a file that has only the header [id,name]. *)
Definition comma_quote : TextDataDoctor.t :=
  TextDataDoctor.Build digit_first (lit "/data/f.csv") (lit "id,name")
    (lit ",") (dq "'") utf8 [] true (lit "id,name") [lit "id"; lit "name"] 1.

(** The record of the two quoted fields [ab] and [cd]. *)
Definition two_quoted : str := dq "'ab','cd'".

(** Header [id,name] and one record: the number 1, then a quoted name
    with a double quote between [Al] and [ice]; read with [\d]. *)
Definition unquoted_id : result TextDataDoctor.t :=
  TextDataDoctor.init digit_first (lit "/data/f.csv")
    (lines [lit "id,name"; dq "1,'Al'ice'"]) (lit ",") (dq "'") utf8.

(** Every field quoted, three records, the first and the last with a
    qualifier that is not doubled; read with a double quote and [\d]. *)
Definition all_quoted : result TextDataDoctor.t :=
  TextDataDoctor.init quoted_digit_first (lit "/data/f.csv")
    (lines [dq "'id','name'"; dq "'1','Al'ice'"; dq "'2','Bob'"; dq "'3','C'at'"])
    (lit ",") (dq "'") utf8.

(** The first two scenarios of the specification, read with [\d]. *)
Definition scenario_one : result TextDataDoctor.t :=
  TextDataDoctor.init digit_first (lit "/data/f.csv")
    (lines [lit "id,name,notes"; lit "1,Alice,hello"; lit "2,Bob,hi there, friend"])
    (lit ",") [] utf8.

Definition scenario_two : result TextDataDoctor.t :=
  TextDataDoctor.init digit_first (lit "/data/f.csv")
    (lines [lit "id,name"; dq "1,'Alice, 'Ann'  Smith'"])
    (lit ",") (dq "'") utf8.

(** The bytes of [a,b], a newline, then the byte 0x81 and a newline:
    0x81 starts no UTF-8 sequence and has no character in cp1252. *)
Definition undecodable : bytes := [x61; x2c; x62; x0a; x81; x0a].

(** A table with one bad record [a,b,c] split at the delimiter. *)
Definition one_row : BadDelimitersTableModel.t :=
  BadDelimitersTableModel.Build (lit ",") (-1) []
    [lit "id"; lit "name"] [[lit "a"; lit "b"; lit "c"]] [].

(** A table with eleven bad records. *)
Definition eleven_rows : BadDelimitersTableModel.t :=
  BadDelimitersTableModel.Build (lit ",") (-1) []
    [lit "id"; lit "name"]
    ([lit "a"; lit "b"; lit "c"] :: repeat [lit "x"; lit "y"; lit "z"] 10) [].

(** Header [id,name] and one line that starts with a letter, read with
    [\d] and the double quote as qualifier. *)
Definition stray_line : TextDataDoctor.t :=
  TextDataDoctor.Build digit_first (lit "/data/f.csv")
    (lines [lit "id,name"; dq "x,'y'"])
    (lit ",") (dq "'") utf8 [] true (lit "id,name") [lit "id"; lit "name"] 1.

(** The bytes of the header [id name] and of the line [1 2]. *)
Definition words_header : bytes :=
  [x69; x64; x20; x6e; x61; x6d; x65; x0a; x31; x20; x32; x0a].

(** A record of [n] quoted fields between an unquoted first and last
    field. *)
Definition quoted_fields (n : nat) : str :=
  lit "0" ++ concat (repeat (dq ",'v'") n) ++ lit ",9".

End Cases.

(** ** The rest of the two files *)

(** [re.compile]: the matcher of [match] for a pattern that compiles,
    nothing for one that raises [re.error].  The pattern language is an
    interface of the runtime. *)
Class RegexEngine := { re_compile : str -> option (str -> bool) }.

Definition TAB : char := 9%N.

(** The two characters of the source text [\t]. *)
Definition backslash_t : str := [92%N; 116%N].

(** [str(n)] for an integer. *)
Definition str_of_int (n : Z) : str := lit (NilZero.string_of_int (Z.to_int n)).

(** [validate_file_options] *)
Definition validate_file_options `{RegexEngine} (regex delimiter qualifier : str)
  : bool * str :=
  let error_messages := [] in
  let error_messages :=
    match re_compile regex with
    | Some _ => error_messages
    | None => error_messages ++ [lit "Error while compiling regex"]
    end in
  let error_messages :=
    if negb (len (replace delimiter backslash_t [TAB]) =? 1)
    then error_messages
         ++ [lit "Delimiter can only be a single character or " ++ backslash_t]
    else error_messages in
  let error_messages :=
    if 1 <? len qualifier
    then error_messages ++ [lit "Qualifier can only be a single character or blank"]
    else error_messages in
  (negb (truthy error_messages), join [LF] error_messages).

(** The characters that a pattern of [re] built from the delimiter or
    the qualifier reads as themselves, inside a set and outside: the
    models of [re.sub(f"{delimiter}$", ...)] and of
    [non_escaped_qualifiers] are for such characters. *)
Definition reads_literally (c : char) : bool :=
  negb (char_in c (lit ".^$*+?{}[]\|()")) && negb (c =? LF)%N.

Module ViewModel.

(** [MainWindowViewModel.handle_peek_result]: the delimiter it keeps and
    shows for a result whose code is not negative. *)
Definition shown_delimiter (result : PeekResult.t) : str :=
  replace (PeekResult.delimiter result) [TAB] backslash_t.

(** [MainWindowViewModel.analyze_file], up to the start of the worker:
    the message of the dialog when the options are not valid, or else
    the doctor built from them.  [text] is the content of the file at
    [file_path], as for [TextDataDoctor.init]; a pattern that does not
    compile makes the constructor raise [re.error]. *)
Definition analyze_file `{RegexEngine} (record_start_regex file_path text : str)
  (delimiter qualifier : str) (encoding : codec) : str + result TextDataDoctor.t :=
  let (is_valid, error_message) :=
    validate_file_options record_start_regex delimiter qualifier in
  if negb is_valid then inl error_message
  else
    inr (match re_compile record_start_regex with
         | Some matcher =>
             TextDataDoctor.init matcher file_path text
               (replace delimiter backslash_t [TAB]) qualifier encoding
         | None => Raised (Exception "re.error")
         end).

(** [ResultWindowViewModel.__init__]: the rows of the table, one per
    record with bad delimiters. *)
Fixpoint bad_delimiter_records (delimiter : str) (bad_delimiters : list str)
  : result (list (list str)) :=
  match bad_delimiters with
  | [] => Returned []
  | bd :: rest =>
      bind (split bd delimiter) (fun cells =>
      bind (bad_delimiter_records delimiter rest) (fun rows =>
      Returned (cells :: rows)))
  end.

(** [max(...)] of a list of integers. *)
Definition max_of (l : list Z) : result Z :=
  match l with
  | [] => Raised ValueError
  | x :: rest => Returned (fold_left Z.max rest x)
  end.

(** [BadDelimitersTableModel.__init__]: [self.table_headers]. *)
Definition table_headers (columns : list str) (bad_delimiters : list (list str))
  : result (list str) :=
  bind (max_of (map len bad_delimiters)) (fun max_num_values =>
  let num_extra_columns := max_num_values - len columns in
  Returned
    (columns
     ++ map (fun i => lit "extra" ++ str_of_int (Z.of_nat i + 1))
            (seq 0 (Z.to_nat num_extra_columns)))).



(** [validate_fixes] *)
Definition validate_fixes (self : BadDelimitersTableModel.t) : bool :=
  let num_columns := len (BadDelimitersTableModel.columns self) in
  forallb (fun bd => len bd =? num_columns) (BadDelimitersTableModel.bad_delimiters self).

End ViewModel.

(** ** More inputs of worked cases *)

Module MoreCases.

(** An engine that compiles every pattern to the matcher of [\d]. *)
Definition digits_engine : RegexEngine :=
  {| re_compile := fun _ => Some Cases.digit_first |}.

(** Header [id,name], two records that start with a digit. *)
Definition plain_file : TextDataDoctor.t :=
  TextDataDoctor.Build Cases.digit_first (lit "/data/f.csv")
    (Cases.lines [lit "id,name"; lit "1,Ann"; lit "2,Bob"])
    (lit ",") [] utf8 [] true (lit "id,name") [lit "id"; lit "name"] 1.

(** The same with the double quote as qualifier. *)
Definition plain_file_quote : TextDataDoctor.t :=
  TextDataDoctor.Build Cases.digit_first (lit "/data/f.csv")
    (Cases.lines [lit "id,name"; lit "1,Ann"; lit "2,Bob"])
    (lit ",") (Cases.dq "'") utf8 [] true (lit "id,name") [lit "id"; lit "name"] 1.

(** A file that has its header and nothing else. *)
Definition header_only : TextDataDoctor.t :=
  TextDataDoctor.Build Cases.digit_first (lit "/data/f.csv")
    (Cases.lines [lit "id,name"])
    (lit ",") (Cases.dq "'") utf8 [] true (lit "id,name") [lit "id"; lit "name"] 1.

(** The bytes of a header of two quoted names, [a] and [b], with a
    comma between them. *)
Definition quoted_header : bytes := [x22; x61; x22; x2c; x22; x62; x22; x0a].

(** The bytes of the header [a,b]. *)
Definition plain_header : bytes := [x61; x2c; x62; x0a].

Definition quoted_header_sniffed : PeekResult.t :=
  PeekResult.Build 1 (lit "/data/f.csv") [] (lit ",") (Cases.dq "'") (lit "utf8").

(** The text of the first scenario: three columns, and a second record
    with a comma inside its last value. *)
Definition comma_in_value : str :=
  Cases.lines [lit "id,name,notes"; lit "1,Alice,hello"; lit "2,Bob,hi there, friend"].

(** A record whose one quoted value holds [n] times the qualifier
    followed by the delimiter, with no delimiter followed by the
    qualifier after its start. *)
Definition nested_ends (n : nat) : str :=
  lit "0" ++ Cases.dq ",'v" ++ concat (repeat (Cases.dq "',x") n) ++ lit "9".

(** The bytes of the file of [plain_file] and [plain_file_quote]. *)
Definition plain_file_bytes : bytes :=
  concat (map (fun l => list_byte_of_string l ++ [x0a]) ["id,name"; "1,Ann"; "2,Bob"]%string).

(** A database in which the letters of Latin-1 are alphanumeric. *)
Definition latin_letters : UnicodeData :=
  {| isalnum_above_ascii :=
       fun c => ((192 <=? c) && (c <=? 255) && negb (c =? 215) && negb (c =? 247))%N |}.

(** The bytes, in UTF-8, of a header of an e with an acute accent, a
    space and [b]. *)
Definition accented_header : bytes := [xc3; xa9; x20; x62; x0a].

(** The header [a b], then a line that holds the byte 0xE9 alone, which
    is no UTF-8 and is the e with an acute accent in cp1252. *)
Definition latin1_body : bytes := [x61; x20; x62; x0a; xe9; x0a].

(** The doctor [__init__] builds over it, with the comma as delimiter
    and no qualifier. *)
Definition comma_in_value_doctor : TextDataDoctor.t :=
  TextDataDoctor.Build Cases.digit_first (lit "/data/f.csv") comma_in_value
    (lit ",") [] utf8 [] true (lit "id,name,notes")
    [lit "id"; lit "name"; lit "notes"] 2.

End MoreCases.

(** * Properties *)

(** ** The runtime on small inputs *)

Example slice_inner : slice (lit "abcde") (Some 1) (Some (-1)) = lit "bcd".
Proof. reflexivity. Qed.

Example find_offset : find (lit "a,b,c") (lit ",") 2 = 3.
Proof. reflexivity. Qed.

Example find_past_end : find (lit "abc") (lit "") 4 = -1.
Proof. reflexivity. Qed.

Example rfind_last : rfind (lit "a,b,c") (lit ",") = 3.
Proof. reflexivity. Qed.

Example count_overlap : count (lit "aaaa") (lit "aa") = 2.
Proof. reflexivity. Qed.

Example replace_overlap : replace (lit "aaa") (lit "aa") (lit "b") = lit "ba".
Proof. reflexivity. Qed.

Example replace_empty : replace (lit "ab") (lit "") (lit "-") = lit "-a-b-".
Proof. reflexivity. Qed.

Example split_edges :
  split (lit ",a,,b,") (lit ",")
  = Returned [lit ""; lit "a"; lit ""; lit "b"; lit ""].
Proof. reflexivity. Qed.

Example last_of_empty : char_at (lit "") (-1) = Raised IndexError.
Proof. reflexivity. Qed.

Example utf8_two_bytes : decode [xc3; xa9] utf8 = Returned [233%N].
Proof. reflexivity. Qed.

Example utf8_overlong : decode [xc0; x80] utf8 = Raised UnicodeDecodeError.
Proof. reflexivity. Qed.

Example cp1252_euro : decode [x80] cp1252 = Returned [8364%N].
Proof. reflexivity. Qed.

Example split_words_header :
  @Re.split_words Cases.ascii_only (lit "id, name")
  = [lit ""; lit ", "; lit ""].
Proof. reflexivity. Qed.

Example inner_runs_middle :
  Re.inner_runs 34%N (Cases.dq "'a''b'c'") = [Cases.dq "''"; Cases.dq "'"].
Proof. reflexivity. Qed.

Example list_marker_item : @Re.list_marker Cases.ascii_only (lit "1) word") = true.
Proof. reflexivity. Qed.

(** ** Positions answered by [find] *)

Lemma find_from_range (sub s : str) (pos r : Z) :
  find_from sub s pos = r -> r <> -1 -> 0 <= pos -> pos <= r <= pos + len s.
Proof.
  revert pos. induction s as [|c s IH]; intros pos Hr Hne Hpos; cbn [find_from] in Hr.
  - destruct (startswith [] sub); unfold len; cbn; lia.
  - destruct (startswith (c :: s) sub).
    + unfold len; cbn [length]; lia.
    + apply IH in Hr; [|assumption|lia]. unfold len in *. cbn [length]. lia.
Qed.

Lemma clamp_range (n i : Z) : 0 <= n -> 0 <= clamp n i <= n.
Proof.
  intros Hn. unfold clamp. destruct (i <? 0) eqn:E.
  - apply Z.ltb_lt in E. lia.
  - apply Z.ltb_ge in E. lia.
Qed.

Lemma len_nonneg {A} (s : list A) : 0 <= len s.
Proof. unfold len. lia. Qed.

Lemma len_skipn {A} (s : list A) (k : Z) :
  0 <= k <= len s -> len (skipn (Z.to_nat k) s) = len s - k.
Proof. intros H. unfold len in *. rewrite length_skipn. lia. Qed.

(** A position answered by [find] is inside the string, and not before
    a start that is not negative. *)
Lemma find_range (s sub : str) (start r : Z) :
  find s sub start = r -> r <> -1 ->
  0 <= r <= len s /\ (0 <= start -> start <= r).
Proof.
  unfold find. intros Hr Hne.
  destruct (len s <? start) eqn:E; [congruence|]. apply Z.ltb_ge in E.
  pose proof (clamp_range (len s) start (len_nonneg s)) as Hc.
  apply find_from_range in Hr; [|assumption|lia].
  rewrite len_skipn in Hr by lia.
  split; [lia|]. intros H0. unfold clamp in Hr.
  destruct (start <? 0) eqn:E'; [apply Z.ltb_lt in E'; lia|]. lia.
Qed.

(** ** [find_value_end] *)

Section FindValueEnd.

Variable self : TextDataDoctor.t.
Variable rcd : str.

Import TextDataDoctor.

(** The condition under which [find_value_end] calls itself. *)
Let goes_on (end_position : Z) : bool :=
  let next_start := find rcd (start_pattern self) (end_position + 1) in
  let next_end := find rcd (end_pattern self) (end_position + 1) in
  negb (next_end =? -1)
  && (negb (next_start =? -1) && (next_end <? next_start) || (next_start =? -1)).

Let next (end_position : Z) : Z := find rcd (end_pattern self) (end_position + 1).

Lemma find_value_end_within_step (depth : nat) (end_position : Z) :
  find_value_end_within (S depth) self rcd end_position
  = if goes_on end_position
    then find_value_end_within depth self rcd (next end_position)
    else end_position.
Proof.
  unfold goes_on, next. cbn [find_value_end_within].
  destruct (negb (find rcd (end_pattern self) (end_position + 1) =? -1));
    cbn [andb]; reflexivity.
Qed.

Lemma goes_on_right (end_position : Z) :
  goes_on end_position = true ->
  0 <= next end_position <= len rcd /\ end_position < next end_position.
Proof.
  unfold goes_on, next. intros H. apply andb_prop in H as [H _].
  apply negb_true_iff, Z.eqb_neq in H.
  destruct (find_range rcd (end_pattern self) (end_position + 1) _ eq_refl H) as [Hr Hs].
  split; [exact Hr|]. destruct (Z_lt_le_dec (end_position + 1) 0); lia.
Qed.

(** Depth left over is not used: from a position that is not negative,
    the calls nest at most as deep as the characters to its right. *)
Lemma find_value_end_within_enough (depth : nat) (end_position : Z) :
  0 <= end_position -> len rcd - end_position <= Z.of_nat depth ->
  find_value_end_within (S depth) self rcd end_position
  = find_value_end_within depth self rcd end_position.
Proof.
  revert end_position. induction depth as [|depth IH]; intros e He Hd.
  - rewrite find_value_end_within_step.
    destruct (goes_on e) eqn:G.
    + apply goes_on_right in G. lia.
    + cbn [find_value_end_within]. fold (goes_on e) in *.
      unfold goes_on in G.
      destruct (negb (find rcd (end_pattern self) (e + 1) =? -1)); cbn [andb] in *;
        [rewrite G|]; reflexivity.
  - rewrite (find_value_end_within_step (S depth) e), (find_value_end_within_step depth e).
    destruct (goes_on e) eqn:G; [|reflexivity].
    apply goes_on_right in G. apply IH; lia.
Qed.

(** The function satisfies the equation its source is written as. *)
Lemma find_value_end_unfold (end_position : Z) :
  find_value_end self rcd end_position
  = if goes_on end_position
    then find_value_end self rcd (next end_position)
    else end_position.
Proof.
  unfold find_value_end. rewrite find_value_end_within_step.
  destruct (goes_on end_position) eqn:G; [|reflexivity].
  apply goes_on_right in G. symmetry. apply find_value_end_within_enough.
  - lia.
  - unfold len. lia.
Qed.

End FindValueEnd.

(** ** The loop of [get_qualifier_values] *)

Section ScanLoop.

Variable self : TextDataDoctor.t.
Variable rcd : str.
Variable end_ : Z.

Import TextDataDoctor.

Lemma count_turn_again (st st' : scan) :
  count_turn st = Again st' ->
  loop_counter st' = loop_counter st + 1 /\ loop_counter st' <= 100.
Proof.
  unfold count_turn. destruct (100 <? loop_counter st + 1) eqn:E; [discriminate|].
  intros H. injection H as <-. apply Z.ltb_ge in E. cbn. lia.
Qed.

(** A turn that is followed by another has counted one more, and has
    not passed 100. *)
Lemma scan_turn_again (st st' : scan) :
  scan_turn self rcd end_ st = Again st' ->
  loop_counter st' = loop_counter st + 1 /\ loop_counter st' <= 100.
Proof.
  unfold scan_turn.
  destruct (is_not_end_qualified_values self rcd (start st) end_); [|discriminate].
  destruct (scan_value self rcd (start st)) as [[value start']|e].
  - intros H. apply count_turn_again in H. exact H.
  - destruct e; try discriminate. apply count_turn_again.
Qed.

Lemma scan_loop_enough (turns : nat) (st : scan) :
  (0 < turns)%nat -> 101 - loop_counter st <= Z.of_nat turns ->
  exists g, scan_loop turns self rcd end_ st = Some g.
Proof.
  revert st. induction turns as [|turns IH]; intros st Hpos Hle; [lia|].
  cbn [scan_loop]. destruct (scan_turn self rcd end_ st) as [st'|g] eqn:T.
  - apply scan_turn_again in T as [Hc Hb]. apply IH; lia.
  - exists g. reflexivity.
Qed.

Lemma scan_loop_more (turns turns' : nat) (st : scan) (g : generated str) :
  scan_loop turns self rcd end_ st = Some g -> (turns <= turns')%nat ->
  scan_loop turns' self rcd end_ st = Some g.
Proof.
  revert turns' st. induction turns as [|turns IH]; intros turns' st H Hle;
    [discriminate|].
  destruct turns' as [|turns']; [lia|]. cbn [scan_loop] in *.
  destruct (scan_turn self rcd end_ st); [|exact H].
  apply IH; [exact H|lia].
Qed.

(** Once the counter has reached 100, a turn whose condition holds ends
    the generator with an exception: the one of the ceiling, or the
    [ValueError] of [str.index]. *)
Lemma scan_turn_at_ceiling (st : scan) :
  100 <= loop_counter st ->
  is_not_end_qualified_values self rcd (start st) end_ = true ->
  exists g, scan_turn self rcd end_ st = Over g
            /\ (ended g = Some (Exception "Too many while loops")
                \/ ended g = Some ValueError).
Proof.
  intros Hc Hcond. unfold scan_turn. rewrite Hcond.
  assert (Hover : forall s, loop_counter s = loop_counter st ->
            count_turn s = Over (Generated (found s) (Some (Exception "Too many while loops")))).
  { intros s Hs. unfold count_turn. rewrite Hs.
    destruct (100 <? loop_counter st + 1) eqn:E; [reflexivity|].
    apply Z.ltb_ge in E. lia. }
  unfold scan_value.
  destruct (index rcd (start_pattern self) (start st)) as [value_start|e] eqn:I1.
  - cbn [bind].
    destruct (index rcd (end_pattern self) value_start) as [end_position|e] eqn:I2.
    + cbn [bind]. rewrite Hover by reflexivity. eexists. split; [reflexivity|].
      left. reflexivity.
    + cbn [bind]. unfold index in I2.
      destruct (find rcd (end_pattern self) value_start <? 0); [|discriminate].
      injection I2 as <-. eexists. split; [reflexivity|]. right. reflexivity.
  - cbn [bind]. unfold index in I1.
    destruct (find rcd (start_pattern self) (start st) <? 0); [|discriminate].
    injection I1 as <-. eexists. split; [reflexivity|]. right. reflexivity.
Qed.

End ScanLoop.

(** The generator ends within 101 turns of its loop, whatever the
    record, and more turns change nothing. *)
Lemma get_qualifier_values_within_101 (self : TextDataDoctor.t) (record : str) :
  exists g,
    TextDataDoctor.get_qualifier_values_within 101 self record = Some g
    /\ forall turns, (101 <= turns)%nat ->
       TextDataDoctor.get_qualifier_values_within turns self record = Some g.
Proof.
  unfold TextDataDoctor.get_qualifier_values_within.
  destruct (negb (truthy (TextDataDoctor.qualifier self))); [eexists; split; reflexivity|].
  destruct (negb (truthy record)); [eexists; split; reflexivity|].
  destruct (TextDataDoctor.leading_value self record) as [[head start]|e];
    [|eexists; split; reflexivity].
  destruct (TextDataDoctor.trailing_value self record (len record)) as [[tail end_]|e];
    [|eexists; split; reflexivity].
  destruct (scan_loop_enough self record end_ 101
              (TextDataDoctor.Scan start 0 (head ++ tail))) as [g Hg]; [lia|cbn; lia|].
  exists g. split; [exact Hg|]. intros turns Hle.
  eapply scan_loop_more; [exact Hg|exact Hle].
Qed.

(** ** The loop under the recursion limit *)

Section RecursionLimited.

Variable frames : nat.
Variable self : TextDataDoctor.t.
Variable rcd : str.
Variable end_ : Z.

Import TextDataDoctor.

Lemma find_value_end_raises (n : nat) (end_position : Z) (e : exn) :
  RecursionLimit.find_value_end n self rcd end_position = Raised e -> e = RecursionError.
Proof.
  revert end_position. induction n as [|n IH]; intros end_position;
    cbn [RecursionLimit.find_value_end].
  - intros H. injection H as <-. reflexivity.
  - destruct (negb _); [destruct (_ || _)|]; try discriminate. apply IH.
Qed.

(** What the body of the [try] raises: the [ValueError] of [str.index]
    or the [RecursionError] of [find_value_end]. *)
Lemma scan_value_raises (start : Z) (e : exn) :
  RecursionLimit.scan_value frames self rcd start = Raised e ->
  e = ValueError \/ e = RecursionError.
Proof.
  unfold RecursionLimit.scan_value, index.
  destruct (find rcd (start_pattern self) start <? 0); cbn [bind];
    [intros H; injection H as <-; left; reflexivity|].
  destruct (find rcd (end_pattern self) _ <? 0); cbn [bind];
    [intros H; injection H as <-; left; reflexivity|].
  destruct (RecursionLimit.find_value_end frames self rcd _) as [value_end|e'] eqn:F;
    cbn [bind]; [discriminate|].
  intros H. injection H as <-. right. eapply find_value_end_raises. exact F.
Qed.

(** A turn that is followed by another has counted one more, and has
    not passed 100. *)
Lemma limited_turn_again (st st' : scan) :
  RecursionLimit.scan_turn frames self rcd end_ st = Again st' ->
  loop_counter st' = loop_counter st + 1 /\ loop_counter st' <= 100.
Proof.
  unfold RecursionLimit.scan_turn.
  destruct (is_not_end_qualified_values self rcd (start st) end_); [|discriminate].
  destruct (RecursionLimit.scan_value frames self rcd (start st)) as [[value start']|e].
  - intros H. apply count_turn_again in H. exact H.
  - destruct e; try discriminate. apply count_turn_again.
Qed.

(** How the turn that ends the generator ends it. *)
Lemma limited_turn_over (st : scan) (g : generated str) :
  RecursionLimit.scan_turn frames self rcd end_ st = Over g ->
  if is_not_end_qualified_values self rcd (start st) end_ then
    match RecursionLimit.scan_value frames self rcd (start st) with
    | Returned (value, _) =>
        100 <= loop_counter st
        /\ g = Generated (found st ++ [value]) (Some (Exception "Too many while loops"))
    | Raised e =>
        g = Generated (found st) (Some e) /\ (e = ValueError \/ e = RecursionError)
    end
  else g = Generated (found st) None.
Proof.
  unfold RecursionLimit.scan_turn.
  destruct (is_not_end_qualified_values self rcd (start st) end_);
    [|intros H; injection H as <-; reflexivity].
  destruct (RecursionLimit.scan_value frames self rcd (start st)) as [[value start']|e] eqn:V.
  - unfold count_turn. cbn [loop_counter found].
    destruct (100 <? loop_counter st + 1) eqn:E; [|discriminate].
    apply Z.ltb_lt in E. intros H. injection H as <-. split; [lia|reflexivity].
  - destruct (scan_value_raises _ _ V) as [->| ->]; intros H; injection H as <-;
      (split; [reflexivity|]); [left|right]; reflexivity.
Qed.

(** The loop ends within the evaluations that the counter leaves, and
    the function [scan_loop] is the loop. *)
Lemma runs_within (turns : nat) (st : scan) :
  (0 < turns)%nat -> 101 - loop_counter st <= Z.of_nat turns ->
  exists n last g,
    RecursionLimit.runs frames self rcd end_ st n last g
    /\ (0 < n <= turns)%nat
    /\ RecursionLimit.scan_loop turns frames self rcd end_ st = Some g
    /\ loop_counter last = loop_counter st + Z.of_nat n - 1.
Proof.
  revert st. induction turns as [|turns IH]; intros st Hpos Hle; [lia|].
  cbn [RecursionLimit.scan_loop].
  destruct (RecursionLimit.scan_turn frames self rcd end_ st) as [st'|g] eqn:T.
  - pose proof (limited_turn_again _ _ T) as [Hc Hb].
    destruct (IH st') as [n [last [g [Hruns [Hn [Hloop Hlast]]]]]]; [lia|lia|].
    exists (S n), last, g. split; [eapply RecursionLimit.runs_next; eassumption|].
    split; [lia|]. split; [exact Hloop|]. lia.
  - exists 1%nat, st, g. split; [apply RecursionLimit.runs_last; exact T|].
    split; [lia|]. split; [reflexivity|]. lia.
Qed.

(** The loop runs in one way only. *)
Lemma runs_once (st : scan) (n n' : nat) (last last' : scan) (g g' : generated str) :
  RecursionLimit.runs frames self rcd end_ st n last g ->
  RecursionLimit.runs frames self rcd end_ st n' last' g' ->
  n' = n /\ last' = last /\ g' = g.
Proof.
  intros H. revert n' last' g'.
  induction H as [st g T|st st' n last g T _ IH]; intros n' last' g' H'.
  - inversion H' as [st0 g0 T'|st0 st1 n0 last0 g0 T' _]; subst.
    + rewrite T in T'. injection T' as <-. repeat split.
    + rewrite T in T'. discriminate.
  - inversion H' as [st0 g0 T'|st0 st1 n0 last0 g0 T' Hrest]; subst.
    + rewrite T in T'. discriminate.
    + rewrite T in T'. injection T' as <-.
      destruct (IH _ _ _ Hrest) as [-> [-> ->]]. repeat split.
Qed.

End RecursionLimited.

(** With frames enough for the characters of the record, the call
    returns, and returns what [TextDataDoctor.find_value_end] answers. *)
Lemma find_value_end_deep_stack (frames : nat) (self : TextDataDoctor.t) (record : str)
  (end_position : Z) :
  0 <= end_position -> len record - end_position < Z.of_nat frames -> (0 < frames)%nat ->
  RecursionLimit.find_value_end frames self record end_position
  = Returned (TextDataDoctor.find_value_end self record end_position).
Proof.
  revert end_position. induction frames as [|frames IH]; intros e He Hd Hpos; [lia|].
  pose proof (find_value_end_unfold self record e) as Hunfold. cbv zeta beta in Hunfold.
  rewrite Hunfold. cbn [RecursionLimit.find_value_end].
  destruct (negb (find record (TextDataDoctor.end_pattern self) (e + 1) =? -1)) eqn:N;
    cbn [andb]; [|reflexivity].
  destruct (_ || _); [|reflexivity].
  apply negb_true_iff, Z.eqb_neq in N.
  destruct (find_range record _ (e + 1) _ eq_refl N) as [Hr Hs].
  apply IH; lia.
Qed.

(** Whenever the call returns, it returns that position. *)
Lemma find_value_end_returns (frames : nat) (self : TextDataDoctor.t) (record : str)
  (end_position result : Z) :
  RecursionLimit.find_value_end frames self record end_position = Returned result ->
  result = TextDataDoctor.find_value_end self record end_position.
Proof.
  revert end_position. induction frames as [|frames IH]; intros e; [discriminate|].
  pose proof (find_value_end_unfold self record e) as Hunfold. cbv zeta beta in Hunfold.
  rewrite Hunfold. cbn [RecursionLimit.find_value_end].
  destruct (negb (find record (TextDataDoctor.end_pattern self) (e + 1) =? -1));
    cbn [andb]; [|intros H; injection H as <-; reflexivity].
  destruct (_ || _); [apply IH|intros H; injection H as <-; reflexivity].
Qed.

Lemma scan_turn_deep_stack (frames : nat) (self : TextDataDoctor.t) (record : str)
  (end_ : Z) (st : TextDataDoctor.scan) :
  (length record < frames)%nat ->
  RecursionLimit.scan_turn frames self record end_ st
  = TextDataDoctor.scan_turn self record end_ st.
Proof.
  intros Hdeep. unfold RecursionLimit.scan_turn, TextDataDoctor.scan_turn.
  destruct (TextDataDoctor.is_not_end_qualified_values _ _ _ _); [|reflexivity].
  assert (Hvalue : RecursionLimit.scan_value frames self record (TextDataDoctor.start st)
                   = TextDataDoctor.scan_value self record (TextDataDoctor.start st)).
  { unfold RecursionLimit.scan_value, TextDataDoctor.scan_value, index.
    destruct (find record _ (TextDataDoctor.start st) <? 0); cbn [bind]; [reflexivity|].
    destruct (find record (TextDataDoctor.end_pattern self) _ <? 0) eqn:E; cbn [bind];
      [reflexivity|].
    apply Z.ltb_ge in E. rewrite find_value_end_deep_stack; [reflexivity|exact E| |lia].
    unfold len. lia. }
  rewrite Hvalue. reflexivity.
Qed.

(** With a stack deep enough the generator is that of [TextDataDoctor],
    which the other properties are about. *)
Lemma get_qualifier_values_deep_stack (frames : nat) (self : TextDataDoctor.t)
  (record : str) :
  (length record < frames)%nat ->
  RecursionLimit.get_qualifier_values frames self record
  = TextDataDoctor.get_qualifier_values self record.
Proof.
  intros Hdeep.
  assert (Hloop : forall turns end_ st,
             RecursionLimit.scan_loop turns frames self record end_ st
             = TextDataDoctor.scan_loop turns self record end_ st).
  { induction turns as [|turns IH]; intros end_ st; [reflexivity|].
    cbn [RecursionLimit.scan_loop TextDataDoctor.scan_loop].
    rewrite scan_turn_deep_stack by exact Hdeep.
    destruct (TextDataDoctor.scan_turn self record end_ st); [apply IH|reflexivity]. }
  unfold RecursionLimit.get_qualifier_values, TextDataDoctor.get_qualifier_values,
    RecursionLimit.entry, TextDataDoctor.get_qualifier_values_within.
  destruct (negb (truthy (TextDataDoctor.qualifier self))); [reflexivity|].
  destruct (negb (truthy record)); [reflexivity|].
  destruct (TextDataDoctor.leading_value self record) as [[head start]|e]; [|reflexivity].
  destruct (TextDataDoctor.trailing_value self record (len record)) as [[tail end_]|e];
    [|reflexivity].
  rewrite Hloop. reflexivity.
Qed.

(** C6. The loop that extracts qualified values in
    [get_qualifier_values] never runs forever, for every record,
    qualifier, delimiter and depth of the stack.  When the generator
    does not end before its loop, the loop evaluates its condition at
    most 101 times, in one way only, and the generator ends as it ends.
    The end is silent only where the condition of the loop is false;
    where it is true, the generator ends with the exception the body
    raised, or, when the body has run to its end for the 101st time,
    with the exception of the ceiling. *)
Theorem qualifier_scan_bounded (frames : nat) (self : TextDataDoctor.t) (record : str) :
  match RecursionLimit.entry self record with
  | inl g =>
      RecursionLimit.get_qualifier_values frames self record = g /\ ended g <> None
  | inr (st, end_) =>
      exists n last g,
        RecursionLimit.runs frames self record end_ st n last g
        /\ (forall n' last' g',
              RecursionLimit.runs frames self record end_ st n' last' g' ->
              n' = n /\ last' = last /\ g' = g)
        /\ (0 < n <= 101)%nat
        /\ TextDataDoctor.loop_counter last = Z.of_nat n - 1
        /\ RecursionLimit.get_qualifier_values frames self record = g
        /\ if TextDataDoctor.is_not_end_qualified_values self record
                (TextDataDoctor.start last) end_
           then
             match RecursionLimit.scan_value frames self record
                     (TextDataDoctor.start last) with
             | Returned (value, _) =>
                 n = 101%nat
                 /\ g = Generated (TextDataDoctor.found last ++ [value])
                          (Some (Exception "Too many while loops"))
             | Raised e =>
                 g = Generated (TextDataDoctor.found last) (Some e)
                 /\ (e = ValueError \/ e = RecursionError)
             end
           else g = Generated (TextDataDoctor.found last) None
  end.
Proof.
  destruct (RecursionLimit.entry self record) as [g|[st end_]] eqn:E.
  - unfold RecursionLimit.get_qualifier_values. rewrite E. split; [reflexivity|].
    unfold RecursionLimit.entry in E.
    destruct (negb (truthy (TextDataDoctor.qualifier self)));
      [injection E as <-; discriminate|].
    destruct (negb (truthy record)); [injection E as <-; discriminate|].
    destruct (TextDataDoctor.leading_value self record) as [[head start]|e];
      [|injection E as <-; discriminate].
    destruct (TextDataDoctor.trailing_value self record (len record)) as [[tail end_]|e];
      [discriminate|injection E as <-; discriminate].
  - assert (Hzero : TextDataDoctor.loop_counter st = 0).
    { unfold RecursionLimit.entry in E.
      destruct (negb (truthy (TextDataDoctor.qualifier self))); [discriminate|].
      destruct (negb (truthy record)); [discriminate|].
      destruct (TextDataDoctor.leading_value self record) as [[head start]|e];
        [|discriminate].
      destruct (TextDataDoctor.trailing_value self record (len record))
        as [[tail end0]|e]; [|discriminate].
      injection E as <- _. reflexivity. }
    destruct (runs_within frames self record end_ 101 st) as [n [last [g [Hruns [Hn [Hloop Hlast]]]]]];
      [lia|rewrite Hzero; cbn; lia|].
    exists n, last, g. split; [exact Hruns|].
    split; [intros n' last' g' H'; exact (runs_once _ _ _ _ _ _ _ _ _ _ _ Hruns H')|].
    split; [exact Hn|]. split; [lia|].
    split; [unfold RecursionLimit.get_qualifier_values; rewrite E, Hloop; reflexivity|].
    assert (Hover : RecursionLimit.scan_turn frames self record end_ last
                    = TextDataDoctor.Over g).
    { clear - Hruns. induction Hruns as [st g T|st st' n last g _ _ IH]; assumption. }
    pose proof (limited_turn_over frames self record end_ last g Hover) as Hend.
    destruct (TextDataDoctor.is_not_end_qualified_values self record _ end_);
      [|exact Hend].
    destruct (RecursionLimit.scan_value frames self record _) as [[value start']|e];
      [|exact Hend].
    destruct Hend as [Hceiling ->]. split; [lia|reflexivity].
Qed.

(** A value that holds more end patterns than the stack has frames:
    nothing is yielded and the generator ends with [RecursionError]. *)
Example nested_ends_exhaust_the_stack :
  RecursionLimit.get_qualifier_values 1000 Cases.comma_quote (MoreCases.nested_ends 1200)
  = Generated [] (Some RecursionError).
Proof. vm_compute. reflexivity. Qed.

Example ceiling_reached_under_limit :
  let g := RecursionLimit.get_qualifier_values 1000 Cases.comma_quote
             (Cases.quoted_fields 101) in
  yielded g = repeat (lit "v") 101
  /\ ended g = Some (Exception "Too many while loops").
Proof. vm_compute. split; reflexivity. Qed.

(** A record with 101 quoted fields between two unquoted ones reaches
    the ceiling: 101 values are yielded, then the exception is raised. *)
Example ceiling_reached :
  let g := TextDataDoctor.get_qualifier_values Cases.comma_quote (Cases.quoted_fields 101) in
  yielded g = repeat (lit "v") 101
  /\ ended g = Some (Exception "Too many while loops").
Proof. vm_compute. split; reflexivity. Qed.

Example ceiling_not_reached :
  TextDataDoctor.get_qualifier_values Cases.comma_quote (Cases.quoted_fields 100)
  = Generated (repeat (lit "v") 100) None.
Proof. vm_compute. reflexivity. Qed.

(** ** The outcome classification *)

Section Classification.

Variable bad_escapes : list BadEscape.t.
Variable bad_delimiters : list str.
Variable qualifier : str.
Variable too_few_delimiters : bool.
Variable overflow_lines : list Z.

Let code : Z :=
  fst (Analysis.classify bad_escapes bad_delimiters qualifier too_few_delimiters
         overflow_lines).

Let facts : Outcome.facts :=
  Outcome.facts_of bad_escapes bad_delimiters qualifier too_few_delimiters
    overflow_lines.

Ltac by_cases :=
  subst code facts;
  destruct bad_escapes, bad_delimiters, qualifier, too_few_delimiters, overflow_lines.

(** The chain never takes its last branch. *)
Lemma classify_codes : In code [1; -1; -2; -3; -4; -5; -6].
Proof. by_cases; cbn; tauto. Qed.

(** The code answered satisfies the condition that the table of the
    specification states for it. *)
Lemma classify_as_stated : Outcome.stated facts code = true.
Proof. by_cases; reflexivity. Qed.

End Classification.

(** The codes for which the table has a row. *)
Lemma stated_codes (f : Outcome.facts) (code : Z) :
  Outcome.stated f code = true -> In code [1; -1; -2; -3; -4; -5; -6; -7].
Proof.
  unfold Outcome.stated.
  destruct code as [|p|p]; cbn [Outcome.row]; try discriminate;
    repeat (destruct p as [p|p|]; cbn [Outcome.row]; try discriminate);
    intros _; cbn; tauto.
Qed.

(** The statement of C1 fails where there are bad delimiters only, a
    qualifier is configured and the last bad record had too few
    delimiters: the rows of -4 and of -5 both hold. *)
Lemma two_rows_of_the_table_hold :
  Outcome.stated (Outcome.facts_of [] [lit "1,Ann"] (Cases.dq "'") true []) (-4) = true
  /\ Outcome.stated (Outcome.facts_of [] [lit "1,Ann"] (Cases.dq "'") true []) (-5) = true
  /\ fst (Analysis.classify [] [lit "1,Ann"] (Cases.dq "'") true []) = -4
  /\ ~ Outcome.one_row_applies (Outcome.facts_of [] [lit "1,Ann"] (Cases.dq "'") true []).
Proof.
  repeat split. intros [code [_ Hone]].
  pose proof (Hone (-4) eq_refl) as H4. pose proof (Hone (-5) eq_refl) as H5.
  rewrite <- H4 in H5. discriminate.
Qed.

(** The combination is one that a file reaches: header [id,name,notes]
    and the record [1,Ann], with the double quote as qualifier. *)
Example too_few_with_qualifier (U : UnicodeData) :
  exists doctor result,
    TextDataDoctor.init Cases.digit_first (lit "/data/f.csv")
      (Cases.lines [lit "id,name,notes"; lit "1,Ann"]) (lit ",") (Cases.dq "'") utf8
    = Returned doctor
    /\ Analysis.analyze_file doctor = Returned result
    /\ AnalyzeResult.code result = -4
    /\ AnalyzeResult.bad_escapes result = []
    /\ AnalyzeResult.bad_delimiters result = [lit "1,Ann"].
Proof. do 2 eexists. split; [reflexivity|]. vm_compute. repeat split. Qed.

(** C1, amended. The outcome classification that ends [analyze_file] is
    total and deterministic: for every combination of bad escapes, bad
    delimiters, qualifier, too-few flag and overflow lines, the code
    returned is never -7 and the row of -7 never holds, at least one
    other row of the table holds, and the code is that of the first row
    that holds in the order in which the chain tests them.  The rows exclude one another except those of -4
    and -5, which hold together where the code is -4. *)
Theorem classification_takes_first_row
  (bad_escapes : list BadEscape.t) (bad_delimiters : list str) (qualifier : str)
  (too_few_delimiters : bool) (overflow_lines : list Z) :
  let code := fst (Analysis.classify bad_escapes bad_delimiters qualifier
                     too_few_delimiters overflow_lines) in
  let facts := Outcome.facts_of bad_escapes bad_delimiters qualifier
                 too_few_delimiters overflow_lines in
  code <> -7
  /\ Outcome.stated facts (-7) = false
  /\ In code [1; -1; -2; -3; -4; -5; -6]
  /\ Outcome.stated facts code = true
  /\ List.find (Outcome.stated facts) Outcome.chain_order = Some code
  /\ (forall code', Outcome.stated facts code' = true ->
      code' = code \/ (code = -4 /\ code' = -5))
  /\ (Outcome.stated facts (-4) = true -> Outcome.stated facts (-5) = true ->
      code = -4).
Proof.
  intros code facts.
  pose proof (classify_codes bad_escapes bad_delimiters qualifier too_few_delimiters
                overflow_lines) as Hin.
  fold code in Hin.
  split; [|split; [|split; [exact Hin|split; [|split; [|split]]]]].
  - intros H. rewrite H in Hin. cbn in Hin.
    repeat (destruct Hin as [Hin|Hin]; [discriminate|]). exact Hin.
  - subst code facts.
    destruct bad_escapes, bad_delimiters, qualifier, too_few_delimiters, overflow_lines;
      reflexivity.
  - apply classify_as_stated.
  - subst code facts.
    destruct bad_escapes, bad_delimiters, qualifier, too_few_delimiters, overflow_lines;
      reflexivity.
  - intros code' H. pose proof (stated_codes facts code' H) as Hcode'.
    cbn in Hcode'. subst code facts. revert H.
    destruct bad_escapes, bad_delimiters, qualifier, too_few_delimiters, overflow_lines;
      repeat (destruct Hcode' as [<-|Hcode']; [cbn; intros H; try discriminate H;
                                                 first [left; reflexivity
                                                       |right; split; reflexivity]|]);
      contradiction.
  - subst code facts.
    destruct bad_escapes, bad_delimiters, qualifier, too_few_delimiters, overflow_lines;
      cbn; intros H4 H5; try discriminate; reflexivity.
Qed.

(** ** The mode switch *)

(** C8. Under the default settings, which are those [__init__] sets,
    [all_qualified] is true, and both the values of the escape check and
    the recomputed delimiter count of [analyze_file] come from the split
    on the qualifier-delimiter-qualifier pattern; the branch that calls
    [get_qualifier_values] is not taken, for any record. *)
Theorem default_takes_uniform_split
  (regex : str -> bool) (path text delimiter qualifier : str) (encoding : codec)
  (self : TextDataDoctor.t) :
  TextDataDoctor.init regex path text delimiter qualifier encoding = Returned self ->
  TextDataDoctor.all_qualified self = true
  /\ (forall record,
        Analysis.escape_checks self record
        = split (slice record (Some 1) (Some (-1)))
                (TextDataDoctor.all_qualified_pattern self))
  /\ (forall record delimiter_count,
        Analysis.recount self record delimiter_count
        = bind (split record (TextDataDoctor.all_qualified_pattern self))
               (fun parts => Returned (len parts - 1))).
Proof.
  unfold TextDataDoctor.init. intros H.
  destruct (split _ delimiter) as [names|e]; [|discriminate].
  cbn [bind] in H. injection H as <-.
  split; [reflexivity|]. split; intros; reflexivity.
Qed.

(** ** The first line after the header *)

(** C9. With a qualifier configured, when the first physical line after
    the header is not empty and does not match the record-start pattern,
    [get_records] raises [IndexError] before it yields a record: it
    indexes the last character of the record buffer, which is still
    empty.  Nothing catches it in [analyze_file]. *)
Theorem first_line_not_a_record_start
  (U : UnicodeData) (self : TextDataDoctor.t) (header line : str) (rest : list str) :
  truthy (TextDataDoctor.qualifier self) = true ->
  text_lines (TextDataDoctor.text self) = header :: line :: rest ->
  rstrip line [CR; LF] <> [] ->
  TextDataDoctor.record_start_regex self (rstrip line [CR; LF]) = false ->
  TextDataDoctor.get_records self = (Generated [] (Some IndexError), [])
  /\ Analysis.analyze_file self = Raised IndexError.
Proof.
  intros Hq Hlines Hline Hregex.
  assert (Hrec : TextDataDoctor.get_records self = (Generated [] (Some IndexError), [])).
  { unfold TextDataDoctor.get_records. rewrite Hlines.
    cbn [later_lines TextDataDoctor.read_lines].
    unfold TextDataDoctor.read_line. rewrite Hregex.
    destruct (rstrip line [CR; LF]) as [|c l]; [contradiction|].
    cbn [truthy negb]. rewrite Hq. reflexivity. }
  split; [exact Hrec|].
  unfold Analysis.analyze_file. rewrite Hrec. reflexivity.
Qed.

(** ** A header of words and spaces *)

Section HeaderOfWords.

Context {U : UnicodeData}.

Lemma startswith_nil (s : str) : startswith s [] = true.
Proof. destruct s; reflexivity. Qed.

Lemma replace_spaces (s : str) :
  forallb (fun c => (c =? space)%N) s = true -> replace s [space] [] = [].
Proof.
  unfold replace. induction s as [|c s IH]; [reflexivity|].
  cbn [forallb]. intros H. apply andb_prop in H as [Hc Hs].
  apply N.eqb_eq in Hc. subst c. cbn. rewrite startswith_nil. apply IH. exact Hs.
Qed.

(** The pieces of [re.split] hold no word character of the string. *)
Lemma split_words_from_pieces (s cur : str) (in_word : bool) (piece : str) :
  forallb Re.word_or_space s = true ->
  forallb (fun c => (c =? space)%N) cur = true ->
  In piece (Re.split_words_from s cur in_word) ->
  forallb (fun c => (c =? space)%N) piece = true.
Proof.
  revert cur in_word. induction s as [|c s IH]; intros cur in_word Hs Hcur Hin.
  - cbn in Hin. destruct Hin as [<-|[]].
    rewrite forallb_forall in *. intros x Hx. apply Hcur. apply in_rev. exact Hx.
  - cbn [forallb] in Hs. apply andb_prop in Hs as [Hc Hs].
    cbn [Re.split_words_from] in Hin. destruct (Re.is_word c) eqn:W.
    + destruct in_word.
      * eapply IH; [exact Hs| |exact Hin]. reflexivity.
      * destruct Hin as [<-|Hin].
        -- rewrite forallb_forall in *. intros x Hx. apply Hcur. apply in_rev. exact Hx.
        -- eapply IH; [exact Hs| |exact Hin]. reflexivity.
    + unfold Re.word_or_space in Hc. rewrite W in Hc. cbn [orb] in Hc.
      eapply IH; [exact Hs| |exact Hin]. cbn [forallb]. rewrite Hc, Hcur. reflexivity.
Qed.

Lemma no_spacer (pieces : list str) :
  (forall piece, In piece pieces -> forallb (fun c => (c =? space)%N) piece = true) ->
  filter (fun spacer => negb (str_eqb (replace spacer [space] []) [])) pieces = [].
Proof.
  induction pieces as [|p ps IH]; intros H; [reflexivity|].
  cbn [filter]. rewrite replace_spaces by (apply H; left; reflexivity).
  cbn. apply IH. intros piece Hin. apply H. right. exact Hin.
Qed.

(** The search for a delimiter in such a header indexes an empty list
    of spacers. *)
Lemma peek_guess_header_of_words (path header : str) (encoding : codec) :
  forallb Re.word_or_space header = true ->
  snd (TextDataDoctor.peek_guess path header encoding) = Raised IndexError.
Proof.
  intros H. unfold TextDataDoctor.peek_guess. cbn [snd].
  rewrite no_spacer; [reflexivity|].
  intros piece Hin. unfold Re.split_words in Hin.
  eapply split_words_from_pieces; [exact H| |exact Hin]. reflexivity.
Qed.

End HeaderOfWords.

(** ** Decoding raises one exception only *)

Lemma utf8_points_raises (n : nat) :
  forall bs e, (length bs <= n)%nat -> utf8_points bs = Raised e -> e = UnicodeDecodeError.
Proof.
  induction n as [|n IH]; intros bs e Hlen H.
  - destruct bs; [discriminate|cbn in Hlen; lia].
  - destruct bs as [|b0 r0]; [discriminate|]. cbn [utf8_points] in H.
    cbn [length] in Hlen.
    repeat first
      [ discriminate
      | match goal with
        | H : Raised _ = Raised _ |- _ => injection H as <-; reflexivity
        | H : bind (utf8_points ?r) _ = Raised _ |- _ =>
            let E := fresh "E" in
            destruct (utf8_points r) eqn:E; cbn [bind] in H;
            [discriminate|injection H as <-; eapply IH; [|exact E]; cbn [length] in *; lia]
        | H : (if ?c then _ else _) = Raised _ |- _ => destruct c
        | H : match ?l with [] => _ | _ :: _ => _ end = Raised _ |- _ =>
            destruct l; cbn [length] in *
        end ].
Qed.

Lemma cp1252_points_raises (bs : list N) (e : exn) :
  cp1252_points bs = Raised e -> e = UnicodeDecodeError.
Proof.
  induction bs as [|b r IH]; [discriminate|]. cbn [cp1252_points].
  destruct (cp1252_point b); [|intros H; injection H as <-; reflexivity].
  destruct (cp1252_points r); cbn [bind]; [discriminate|].
  intros H. injection H as <-. apply IH. reflexivity.
Qed.

Lemma decode_raises (b : bytes) (encoding : codec) (e : exn) :
  decode b encoding = Raised e -> e = UnicodeDecodeError.
Proof.
  destruct encoding; cbn [decode].
  - apply (utf8_points_raises (length (map Byte.to_N b))). lia.
  - apply cp1252_points_raises.
Qed.

Lemma decode_lines_raises (ls : list bytes) (encoding : codec) (e : exn) :
  TextDataDoctor.decode_lines ls encoding = Raised e -> e = UnicodeDecodeError.
Proof.
  induction ls as [|l ls IH]; [discriminate|]. cbn [TextDataDoctor.decode_lines].
  destruct (decode l encoding) eqn:D; cbn [bind].
  - destruct (TextDataDoctor.decode_lines ls encoding); cbn [bind]; [discriminate|].
    intros H. injection H as <-. apply IH. reflexivity.
  - intros H. injection H as <-. eapply decode_raises. exact D.
Qed.

(** ** [peek_file] *)

(** *** A null byte is a character of the header *)

Lemma is_cont_zero : is_cont 0 = false.
Proof. reflexivity. Qed.

Ltac no_zero H :=
  let Hb := fresh "Hb" in
  destruct H as [Hb|H];
  [subst; first [discriminate
                |match goal with
                 | C : is_cont 0 = true |- _ => rewrite is_cont_zero in C; discriminate
                 | C : _ && is_cont 0 = true |- _ =>
                     rewrite is_cont_zero, ?andb_false_r in C; discriminate
                 | C : _ && is_cont 0 && _ = true |- _ =>
                     rewrite is_cont_zero, ?andb_false_r in C; discriminate
                 end]|].

Lemma utf8_points_keeps_zero (n : nat) :
  forall bs s, (length bs <= n)%nat ->
    utf8_points bs = Returned s -> In 0%N bs -> In 0%N s.
Proof.
  induction n as [|n IH]; intros bs s Hlen H Hin.
  - destruct bs; [contradiction|cbn in Hlen; lia].
  - destruct bs as [|b0 r0]; [contradiction|]. cbn [utf8_points] in H.
    cbn [length] in Hlen.
    destruct (b0 <? 128)%N eqn:E0.
    + destruct (utf8_points r0) as [s0|] eqn:R; cbn [bind] in H; [|discriminate].
      injection H as <-. destruct Hin as [->|Hin]; [left; reflexivity|].
      right. apply (IH r0); [lia|exact R|exact Hin].
    + destruct Hin as [Hb|Hin]; [subst b0; discriminate|].
      destruct ((194 <=? b0) && (b0 <=? 223))%N.
      { destruct r0 as [|b1 r1]; [discriminate|].
        destruct (is_cont b1) eqn:C1; [|discriminate].
        destruct (utf8_points r1) as [s1|] eqn:R; cbn [bind] in H; [|discriminate].
        injection H as <-. no_zero Hin.
        right. apply (IH r1); [cbn [length] in Hlen; lia|exact R|exact Hin]. }
      destruct ((224 <=? b0) && (b0 <=? 239))%N.
      { destruct r0 as [|b1 [|b2 r2]]; try discriminate.
        destruct (_ && is_cont b2) eqn:C; [|discriminate].
        apply andb_prop in C as [C1 C2]. apply andb_prop in C1 as [C1 _].
        destruct (utf8_points r2) as [s2|] eqn:R; cbn [bind] in H; [|discriminate].
        injection H as <-.
        destruct Hin as [Hb|Hin];
          [subst b1; destruct (b0 =? 224)%N; discriminate|].
        no_zero Hin.
        right. apply (IH r2); [cbn [length] in Hlen; lia|exact R|exact Hin]. }
      destruct ((240 <=? b0) && (b0 <=? 244))%N; [|discriminate].
      destruct r0 as [|b1 [|b2 [|b3 r3]]]; try discriminate.
      destruct (_ && is_cont b2 && is_cont b3) eqn:C; [|discriminate].
      apply andb_prop in C as [C C3]. apply andb_prop in C as [C1 C2].
      apply andb_prop in C1 as [C1 _].
      destruct (utf8_points r3) as [s3|] eqn:R; cbn [bind] in H; [|discriminate].
      injection H as <-.
      destruct Hin as [Hb|Hin];
        [subst b1; destruct (b0 =? 240)%N; discriminate|].
      no_zero Hin. no_zero Hin.
      right. apply (IH r3); [cbn [length] in Hlen; lia|exact R|exact Hin].
Qed.

Lemma cp1252_points_keeps_zero (bs : list N) (s : str) :
  cp1252_points bs = Returned s -> In 0%N bs -> In 0%N s.
Proof.
  revert s. induction bs as [|b r IH]; intros s H Hin; [contradiction|].
  cbn [cp1252_points] in H. destruct (cp1252_point b) as [c|] eqn:P; [|discriminate].
  destruct (cp1252_points r) as [s'|]; cbn [bind] in H; [|discriminate].
  injection H as <-. destruct Hin as [->|Hin].
  - cbn in P. injection P as <-. left. reflexivity.
  - right. apply IH; [reflexivity|exact Hin].
Qed.

(** A null byte decodes to the character of code 0. *)
Lemma decode_keeps_zero (b : bytes) (encoding : codec) (h : str) :
  decode b encoding = Returned h -> byte_in 0%N b = true -> In 0%N h.
Proof.
  intros H Hnull. unfold byte_in in Hnull. apply existsb_exists in Hnull as [x [Hx Hz]].
  apply N.eqb_eq in Hz.
  assert (Hin : In 0%N (map Byte.to_N b)) by (rewrite <- Hz; apply in_map; exact Hx).
  destruct encoding; cbn [decode] in H.
  - apply (utf8_points_keeps_zero (length (map Byte.to_N b)) _ _ (le_n _) H Hin).
  - apply (cp1252_points_keeps_zero _ _ H Hin).
Qed.

Lemma dropwhile_keeps {A} (p : A -> bool) (x : A) (s : list A) :
  In x s -> p x = false -> In x (dropwhile p s).
Proof.
  intros Hin Hp. induction s as [|c s IH]; [contradiction|]. cbn [dropwhile].
  destruct (p c) eqn:E; [|exact Hin].
  destruct Hin as [->|Hin]; [congruence|apply IH; exact Hin].
Qed.

(** A header of word characters and spaces has no null byte. *)
Lemma header_of_words_no_null (U : UnicodeData) (b : bytes) (encoding : codec) (h : str) :
  decode b encoding = Returned h ->
  forallb Re.word_or_space (rstrip h [CR; LF]) = true ->
  byte_in 0%N b = false.
Proof.
  intros Hd Hwords. destruct (byte_in 0%N b) eqn:Hnull; [|reflexivity].
  pose proof (decode_keeps_zero b encoding h Hd Hnull) as Hin.
  assert (Hkept : In 0%N (rstrip h [CR; LF])).
  { unfold rstrip. apply -> in_rev. apply dropwhile_keeps; [|reflexivity].
    apply -> in_rev. exact Hin. }
  rewrite forallb_forall in Hwords. specialize (Hwords 0%N Hkept). discriminate.
Qed.

(** The header as [peek_file] reads it: under UTF-8 when the whole file
    decodes as UTF-8, under cp1252 otherwise. *)
Lemma peek_file_header (U : UnicodeData) (content : bytes) (path : str) :
  byte_in 0%N (first_line (byte_lines content)) = false ->
  snd (TextDataDoctor.peek_file (Some content) path)
  = match decode (first_line (byte_lines content)) utf8,
          TextDataDoctor.decode_lines (later_lines (byte_lines content)) utf8 with
    | Returned h, Returned _ =>
        snd (TextDataDoctor.peek_guess path (rstrip h [CR; LF]) utf8)
    | _, _ =>
        match decode (first_line (byte_lines content)) cp1252 with
        | Returned h => snd (TextDataDoctor.peek_guess path (rstrip h [CR; LF]) cp1252)
        | Raised e => Raised e
        end
    end.
Proof.
  intros Hnull.
  assert (Hfallback :
            forall sent,
              snd (match TextDataDoctor.peek_fallback content with
                   | (sent', Raised e) => (sent ++ sent', Raised e)
                   | (sent', Returned (header, lines, bad_lines)) =>
                       let dropped :=
                         if truthy bad_lines then
                           Some (PeekResult.failure (-2) path
                                   (TextDataDoctor.invalid_byte_message
                                    ++ join [] (map bytes_repr bad_lines)))
                         else None in
                       let (sent'', r) := TextDataDoctor.peek_guess path header cp1252 in
                       (sent ++ sent' ++ sent'', r)
                   end)
              = match decode (first_line (byte_lines content)) cp1252 with
                | Returned h =>
                    snd (TextDataDoctor.peek_guess path (rstrip h [CR; LF]) cp1252)
                | Raised e => Raised e
                end).
  { intros sent. unfold TextDataDoctor.peek_fallback.
    destruct (decode (first_line (byte_lines content)) cp1252) as [h|e]; [|reflexivity].
    destruct (TextDataDoctor.decode_lines_keeping_bad _ cp1252) as [lines bad_lines].
    cbv zeta.
    destruct (TextDataDoctor.peek_guess path (rstrip h [CR; LF]) cp1252) as [sent'' r].
    reflexivity. }
  unfold TextDataDoctor.peek_file, TextDataDoctor.peek_try. rewrite Hnull.
  destruct (decode (first_line (byte_lines content)) utf8) as [h|e] eqn:D.
  - destruct (TextDataDoctor.decode_lines (later_lines (byte_lines content)) utf8)
      as [lines|e] eqn:L.
    + destruct (TextDataDoctor.peek_guess path (rstrip h [CR; LF]) utf8) as [sent' r].
      reflexivity.
    + apply decode_lines_raises in L as ->. apply Hfallback.
  - apply decode_raises in D as ->. apply Hfallback.
Qed.

(** C10. When the header line of a file holds nothing but word
    characters and spaces, [peek_file] raises [IndexError]: there is no
    spacer to choose from, and the list of spacers is indexed all the
    same.  No [PeekResult] is returned.  The header line is the first
    line as [peek_file] reads it: decoded as UTF-8 when the whole file
    decodes as UTF-8, and as cp1252 when it does not. *)
Theorem header_of_words_raises (U : UnicodeData) (content : bytes) (path : str) :
  let header_bytes := first_line (byte_lines content) in
  match decode header_bytes utf8,
        TextDataDoctor.decode_lines (later_lines (byte_lines content)) utf8 with
  | Returned h, Returned _ => forallb Re.word_or_space (rstrip h [CR; LF]) = true
  | _, _ =>
      exists h, decode header_bytes cp1252 = Returned h
                /\ forallb Re.word_or_space (rstrip h [CR; LF]) = true
  end ->
  snd (TextDataDoctor.peek_file (Some content) path) = Raised IndexError.
Proof.
  intros hb Hwords.
  assert (Hnull : byte_in 0%N hb = false).
  { destruct (decode hb utf8) as [h|e] eqn:D.
    - destruct (TextDataDoctor.decode_lines _ utf8).
      + exact (header_of_words_no_null U hb utf8 h D Hwords).
      + destruct Hwords as [h' [D' Hw]].
        exact (header_of_words_no_null U hb cp1252 h' D' Hw).
    - destruct Hwords as [h' [D' Hw]].
      exact (header_of_words_no_null U hb cp1252 h' D' Hw). }
  rewrite (peek_file_header U content path Hnull). fold hb.
  destruct (decode hb utf8) as [h|e].
  - destruct (TextDataDoctor.decode_lines _ utf8).
    + apply peek_guess_header_of_words. exact Hwords.
    + destruct Hwords as [h' [-> Hw]]. apply peek_guess_header_of_words. exact Hw.
  - destruct Hwords as [h' [-> Hw]]. apply peek_guess_header_of_words. exact Hw.
Qed.

(** The codes [peek_file] returns: -2 is not among them. *)
Lemma peek_guess_codes (U : UnicodeData) (path header : str) (encoding : codec)
  (r : PeekResult.t) :
  snd (TextDataDoctor.peek_guess path header encoding) = Returned r ->
  In (PeekResult.code r) [-3; -4; 1].
Proof.
  unfold TextDataDoctor.peek_guess. cbn [snd].
  destruct (if 1 <? len _ then _ else _) as [check_space|e]; [|discriminate].
  cbn [bind]. destruct (Re.only_spaces check_space).
  - intros H. injection H as <-. cbn. tauto.
  - destruct (TextDataDoctor.first_single _ _); intros H; injection H as <-; cbn; tauto.
Qed.

Lemma peek_file_codes (U : UnicodeData) (file : option bytes) (path : str)
  (r : PeekResult.t) :
  snd (TextDataDoctor.peek_file file path) = Returned r ->
  In (PeekResult.code r) [-6; -1; -3; -4; 1].
Proof.
  assert (Hg : forall header encoding sent r',
            TextDataDoctor.peek_guess path header encoding = (sent, r') ->
            r' = Returned r -> In (PeekResult.code r) [-6; -1; -3; -4; 1]).
  { intros header encoding sent r' G ->.
    pose proof (peek_guess_codes U path header encoding r) as H.
    rewrite G in H. specialize (H eq_refl). cbn in H |- *. tauto. }
  unfold TextDataDoctor.peek_file.
  destruct (TextDataDoctor.peek_try file path) as [sent [r0|e|header lines]] eqn:T.
  - cbn [snd]. intros H. injection H as <-.
    unfold TextDataDoctor.peek_try in T. destruct file as [content|]; [|discriminate].
    destruct (byte_in 0%N _).
    + injection T as _ <-. cbn. tauto.
    + destruct (decode _ utf8); [|discriminate].
      destruct (TextDataDoctor.decode_lines _ utf8); discriminate.
  - destruct e; cbn [snd]; try discriminate.
    + destruct file as [content|]; [|discriminate].
      destruct (TextDataDoctor.peek_fallback content) as [sent' [[[header lines] bad]|e]];
        [|discriminate].
      cbv zeta.
      destruct (TextDataDoctor.peek_guess path header cp1252) as [sent'' r'] eqn:G.
      cbn [snd]. eapply Hg. exact G.
    + intros H. injection H as <-. cbn. tauto.
  - destruct (TextDataDoctor.peek_guess path header utf8) as [sent' r'] eqn:G.
    cbn [snd]. eapply Hg. exact G.
Qed.

(** C4. A file whose body does not decode as UTF-8 and has a line that
    does not decode under cp1252 either: [peek_file] builds the result
    with code -2 and drops it, goes on to the search for the delimiter
    and returns code 1 with the encoding cp1252 and an empty message. *)
Theorem undecodable_bytes_not_reported (U : UnicodeData) (path : str) :
  TextDataDoctor.decode_lines (later_lines (byte_lines Cases.undecodable)) utf8
  = Raised UnicodeDecodeError
  /\ snd (TextDataDoctor.decode_lines_keeping_bad
            (later_lines (byte_lines Cases.undecodable)) cp1252)
     = [[x81; x0a]]
  /\ TextDataDoctor.peek_file (Some Cases.undecodable) path
     = ([lit "Collecting byte header";
         lit "Checking for non 8 byte encoding";
         lit "Reading lines to confirm utf8 encoding";
         lit "utf8 failed. Trying cp1252";
         lit "Finding delimiter and qualifier"],
        Returned (PeekResult.Build 1 path [] (lit ",") [] (lit "cp1252"))).
Proof. repeat split; vm_compute; reflexivity. Qed.

(** ** [get_qualifier_values] on two quoted fields *)

(** C2. On the record made of the quoted fields [ab] and [cd] and
    nothing else, [get_qualifier_values] yields [a] and then [cd] with
    the qualifier that opens it: the leading value stops one character
    short, the trailing value starts one character early.  The two
    fields are not what is yielded. *)
Theorem two_quoted_fields_bounds_off :
  TextDataDoctor.get_qualifier_values Cases.comma_quote Cases.two_quoted
  = Generated [lit "a"; Cases.dq "'cd"] None
  /\ TextDataDoctor.get_qualifier_values Cases.comma_quote Cases.two_quoted
     <> Generated [lit "ab"; lit "cd"] None.
Proof. split; [vm_compute; reflexivity|vm_compute; discriminate]. Qed.

(** Between the two ends the loop finds the values with their bounds. *)
Example four_quoted_fields :
  TextDataDoctor.get_qualifier_values Cases.comma_quote (Cases.dq "'ab','cd','ef','gh'")
  = Generated [lit "a"; Cases.dq "'gh"; lit "cd"; lit "ef"] None.
Proof. vm_compute. reflexivity. Qed.

(** ** Repair and the output file *)

(** C3. The file with header [id,name] and the record whose first field
    is not quoted and whose name holds a qualifier that is not doubled:
    the pass ends with code -2 and one bad-escape record, [fix_record]
    leaves the record as it was, and the value the escape check
    extracts from the fixed record is found improperly escaped again. *)
Theorem repair_leaves_offender (U : UnicodeData) :
  exists self result bad value,
    Cases.unquoted_id = Returned self
    /\ Analysis.analyze_file self = Returned result
    /\ AnalyzeResult.code result = -2
    /\ AnalyzeResult.bad_escapes result = [bad]
    /\ BadEscape.record bad = Cases.dq "1,'Al'ice'"
    /\ BadEscape.fix_record bad = BadEscape.record bad
    /\ Analysis.escape_checks self (BadEscape.fix_record bad) = Returned [value]
    /\ TextDataDoctor.non_escaped_qualifiers self value = true.
Proof.
  do 4 eexists. split; [vm_compute; reflexivity|].
  split; [vm_compute; reflexivity|].
  repeat split; vm_compute; reflexivity.
Qed.

(** The record of the second scenario is left as it was too, and it is
    counted among the records with bad delimiters: the split on the
    qualifier-delimiter-qualifier pattern finds one part. *)
Example scenario_two_pass (U : UnicodeData) :
  exists self result bad,
    Cases.scenario_two = Returned self
    /\ Analysis.analyze_file self = Returned result
    /\ AnalyzeResult.code result = -1
    /\ AnalyzeResult.bad_escapes result = [bad]
    /\ BadEscape.fix_record bad = BadEscape.record bad
    /\ AnalyzeResult.bad_delimiters result = [BadEscape.record bad].
Proof.
  do 3 eexists. split; [vm_compute; reflexivity|].
  split; [vm_compute; reflexivity|].
  repeat split; vm_compute; reflexivity.
Qed.

(** Without a qualifier, a record with one delimiter too many. *)
Example scenario_one_pass (U : UnicodeData) :
  exists self result,
    Cases.scenario_one = Returned self
    /\ Analysis.analyze_file self = Returned result
    /\ AnalyzeResult.code result = -3
    /\ AnalyzeResult.bad_delimiters result = [lit "2,Bob,hi there, friend"]
    /\ AnalyzeResult.temp_file result
       = Cases.lines [lit "id,name,notes"; lit "1,Alice,hello"].
Proof.
  do 2 eexists. split; [vm_compute; reflexivity|].
  split; [vm_compute; reflexivity|].
  repeat split; vm_compute; reflexivity.
Qed.

(** With every field quoted the repair doubles the qualifier. *)
Example repair_when_all_quoted :
  BadEscape.fix_record
    (BadEscape.Build (Cases.dq "'") (Cases.dq "'1','Al'ice'") [Cases.dq "Al'ice"])
  = Cases.dq "'1','Al''ice'".
Proof. vm_compute. reflexivity. Qed.

(** C5. The file with every field quoted and three records, the first
    and the last with a qualifier that is not doubled: the output holds
    the header and the clean record, each ended by a newline, and then
    the two repaired records one after the other with no newline
    between them nor after them. *)
Theorem repaired_records_not_terminated (U : UnicodeData) :
  exists self result,
    Cases.all_quoted = Returned self
    /\ Analysis.analyze_file self = Returned result
    /\ AnalyzeResult.code result = -2
    /\ map BadEscape.fix_record (AnalyzeResult.bad_escapes result)
       = [Cases.dq "'1','Al''ice'"; Cases.dq "'3','C''at'"]
    /\ AnalyzeResult.temp_file result
       = Cases.dq "'id','name'" ++ [LF] ++ Cases.dq "'2','Bob'" ++ [LF]
         ++ Cases.dq "'1','Al''ice'" ++ Cases.dq "'3','C''at'"
    /\ count (AnalyzeResult.temp_file result) [LF] = 2.
Proof.
  do 2 eexists. split; [vm_compute; reflexivity|].
  split; [vm_compute; reflexivity|].
  repeat split; vm_compute; reflexivity.
Qed.

(** ** Undo and redo *)

(** C7. A merge of the first two cells of the only bad record, undone
    and then redone: the merge and the undo do what they say, the redo
    moves the cursor and then raises [IndexError], the row stays as the
    undo left it.  With eleven bad records the redo writes the merged
    row at index 10 and leaves the row it was made from unmerged. *)
Theorem redo_writes_other_row :
  let merged := BadDelimitersTableModel.merge_cells Cases.one_row 10 0 1 in
  let undone := BadDelimitersTableModel.then_ merged BadDelimitersTableModel.undo_change in
  let redone := BadDelimitersTableModel.then_ undone BadDelimitersTableModel.redo_change in
  let rows r := BadDelimitersTableModel.bad_delimiters (BadDelimitersTableModel.model r) in
  let cursor r := BadDelimitersTableModel.current_change (BadDelimitersTableModel.model r) in
  (BadDelimitersTableModel.raised merged = None
   /\ rows merged = [[lit "a,b"; lit "c"]] /\ cursor merged = 0)
  /\ (BadDelimitersTableModel.raised undone = None
      /\ rows undone = [[lit "a"; lit "b"; lit "c"]] /\ cursor undone = -1)
  /\ (BadDelimitersTableModel.raised redone = Some IndexError
      /\ rows redone = [[lit "a"; lit "b"; lit "c"]] /\ cursor redone = 0)
  /\ (let merged := BadDelimitersTableModel.merge_cells Cases.eleven_rows 10 0 1 in
      let undone :=
        BadDelimitersTableModel.then_ merged BadDelimitersTableModel.undo_change in
      let redone :=
        BadDelimitersTableModel.then_ undone BadDelimitersTableModel.redo_change in
      BadDelimitersTableModel.raised redone = None
      /\ rows merged
         = [lit "a,b"; lit "c"] :: repeat [lit "x"; lit "y"; lit "z"] 10
      /\ rows redone
         = [lit "a"; lit "b"; lit "c"] :: repeat [lit "x"; lit "y"; lit "z"] 9
           ++ [[lit "a,b"; lit "c"]]).
Proof. vm_compute. repeat split; reflexivity. Qed.

(** What [undo_change] does after a merge, for every table whose cursor
    is on an entry of the log or just before the first. *)

Lemma length_set_nth {A} (s : list A) (n : nat) (v : A) :
  length (set_nth s n v) = length s.
Proof.
  revert n. induction s as [|x s IH]; intros [|n]; cbn; try reflexivity.
  rewrite IH. reflexivity.
Qed.

Lemma set_nth_twice {A} (s : list A) (n : nat) (v w : A) :
  set_nth (set_nth s n v) n w = set_nth s n w.
Proof.
  revert n. induction s as [|x s IH]; intros [|n]; cbn; try reflexivity.
  rewrite IH. reflexivity.
Qed.

Lemma set_nth_same {A} (s : list A) (n : nat) (v : A) :
  nth_error s n = Some v -> set_nth s n v = s.
Proof.
  revert n. induction s as [|x s IH]; intros [|n]; cbn; try discriminate.
  - intros H. injection H as ->. reflexivity.
  - intros H. rewrite IH by exact H. reflexivity.
Qed.

Lemma getitem_nth {A} (s : list A) (i j : Z) (x : A) :
  getitem s i = Returned x ->
  j = (if i <? 0 then i + len s else i) ->
  0 <= j < len s /\ nth_error s (Z.to_nat j) = Some x.
Proof.
  unfold getitem. intros H Hj. rewrite <- Hj in H.
  destruct ((0 <=? j) && (j <? len s)) eqn:E; [|discriminate].
  apply andb_prop in E as [E1 E2]. apply Z.leb_le in E1. apply Z.ltb_lt in E2.
  split; [lia|]. destruct (nth_error s (Z.to_nat j)); [|discriminate].
  injection H as ->. reflexivity.
Qed.

Lemma drop_later_keeps (reversed : list BadDelimiterChange.t) (current_change : Z) :
  -1 <= current_change < len reversed ->
  len (BadDelimitersTableModel.drop_later reversed current_change) = current_change + 1.
Proof.
  induction reversed as [|c earlier IH]; intros H.
  - unfold len in *. cbn in *. lia.
  - cbn [BadDelimitersTableModel.drop_later].
    destruct (current_change <? len (c :: earlier) - 1) eqn:E.
    + apply Z.ltb_lt in E. apply IH. unfold len in *. cbn [length] in *. lia.
    + apply Z.ltb_ge in E. unfold len in *. cbn [length] in *. lia.
Qed.

Lemma get_row_item (self : BadDelimitersTableModel.t) (row : Z) (cells : list str) :
  BadDelimitersTableModel.get_row self row = Returned cells ->
  getitem (BadDelimitersTableModel.bad_delimiters self) (row - 10) = Returned cells.
Proof.
  unfold BadDelimitersTableModel.get_row.
  destruct (row =? -1); [discriminate|].
  destruct (_ <? row - 10); [discriminate|]. exact (fun H => H).
Qed.

(** Undo after a merge puts back the rows and the cursor the merge
    found. *)
Lemma undo_after_merge (self merged : BadDelimitersTableModel.t) (row start end_ : Z) :
  -1 <= BadDelimitersTableModel.current_change self
     < len (BadDelimitersTableModel.table_changes self) ->
  BadDelimitersTableModel.merge_cells self row start end_
  = BadDelimitersTableModel.Ran merged None ->
  BadDelimitersTableModel.current_change merged
  = BadDelimitersTableModel.current_change self + 1 ->
  exists undone,
    BadDelimitersTableModel.undo_change merged = BadDelimitersTableModel.Ran undone None
    /\ BadDelimitersTableModel.bad_delimiters undone
       = BadDelimitersTableModel.bad_delimiters self
    /\ BadDelimitersTableModel.current_change undone
       = BadDelimitersTableModel.current_change self.
Proof.
  intros Hcursor Hmerge Hmoved. unfold BadDelimitersTableModel.merge_cells in Hmerge.
  destruct (getitem (BadDelimitersTableModel.bad_delimiters self) (row - 10))
    as [cells|e] eqn:Hcells; [|discriminate].
  destruct (end_ <? len cells).
  2:{ injection Hmerge as <-. lia. }
  destruct (BadDelimitersTableModel.get_new_row self row start end_) as [new_row|e];
    [|discriminate].
  destruct (BadDelimitersTableModel.get_row self row) as [old_row|e] eqn:Hold;
    [|discriminate].
  apply get_row_item in Hold. rewrite Hcells in Hold. injection Hold as <-.
  unfold setitem in Hmerge.
  set (rows := BadDelimitersTableModel.bad_delimiters self) in *.
  set (j := if row - 10 <? 0 then row - 10 + len rows else row - 10) in *.
  destruct (getitem_nth rows (row - 10) j cells Hcells eq_refl) as [Hrange Hnth].
  cbn [BadDelimitersTableModel.with_rows BadDelimitersTableModel.bad_delimiters] in Hmerge.
  fold rows in Hmerge. fold j in Hmerge.
  destruct ((0 <=? j) && (j <? len rows)) eqn:E.
  2:{ apply andb_false_iff in E as [E|E];
        [apply Z.leb_gt in E|apply Z.ltb_ge in E]; lia. }
  injection Hmerge as <-.
  set (kept := rev (BadDelimitersTableModel.drop_later _ _)).
  assert (Hkept : len kept = BadDelimitersTableModel.current_change self + 1).
  { unfold kept, len. rewrite length_rev. apply drop_later_keeps.
    unfold len in *. rewrite length_rev. exact Hcursor. }
  unfold BadDelimitersTableModel.undo_change.
  cbn [BadDelimitersTableModel.with_cursor BadDelimitersTableModel.with_changes
       BadDelimitersTableModel.with_rows BadDelimitersTableModel.table_changes
       BadDelimitersTableModel.current_change BadDelimitersTableModel.bad_delimiters
       BadDelimitersTableModel.delimiter BadDelimitersTableModel.columns
       BadDelimitersTableModel.good_records].
  assert (Htruthy : truthy (kept ++ [BadDelimiterChange.Build row start end_ cells]) = true)
    by (destruct kept; reflexivity).
  rewrite Htruthy. cbn [negb orb].
  destruct (BadDelimitersTableModel.current_change self + 1 =? -1) eqn:E1;
    [apply Z.eqb_eq in E1; lia|].
  unfold getitem at 1.
  assert (Hlen : len (kept ++ [BadDelimiterChange.Build row start end_ cells])
                 = BadDelimitersTableModel.current_change self + 2).
  { unfold len in *. rewrite length_app. cbn [length]. lia. }
  rewrite Hlen.
  destruct (BadDelimitersTableModel.current_change self + 1 <? 0) eqn:E2;
    [apply Z.ltb_lt in E2; lia|].
  destruct ((0 <=? BadDelimitersTableModel.current_change self + 1)
            && (BadDelimitersTableModel.current_change self + 1
                <? BadDelimitersTableModel.current_change self + 2)) eqn:E3.
  2:{ apply andb_false_iff in E3 as [E3|E3];
        [apply Z.leb_gt in E3|apply Z.ltb_ge in E3]; lia. }
  rewrite nth_error_app2 by (unfold len in Hkept; lia).
  replace (Z.to_nat (BadDelimitersTableModel.current_change self + 1) - length kept)%nat
    with 0%nat by (unfold len in Hkept; lia).
  cbn [nth_error BadDelimiterChange.row BadDelimiterChange.old_row].
  unfold setitem. unfold len. rewrite length_set_nth. fold (len rows). fold j. rewrite E.
  eexists. split; [reflexivity|].
  cbn [BadDelimitersTableModel.with_cursor BadDelimitersTableModel.with_rows
       BadDelimitersTableModel.bad_delimiters BadDelimitersTableModel.current_change].
  split; [|lia]. rewrite set_nth_twice. apply set_nth_same. exact Hnth.
Qed.

(** The repaired records are the end of the output, one after the other
    as [fix_record] gives them. *)
Lemma repaired_records_written_last (U : UnicodeData) (self : TextDataDoctor.t)
  (result : AnalyzeResult.t) :
  Analysis.analyze_file self = Returned result ->
  exists body,
    AnalyzeResult.temp_file result
    = body ++ concat (map BadEscape.fix_record (AnalyzeResult.bad_escapes result)).
Proof.
  unfold Analysis.analyze_file.
  destruct (TextDataDoctor.get_records self) as [records overflow_lines].
  destruct (Analysis.analyze_records self _ (yielded records)) as [st|e]; [|discriminate].
  cbn [bind]. destruct (ended records); [discriminate|].
  destruct (Analysis.classify _ _ _ _ _) as [code message].
  intros H. injection H as <-. eexists. reflexivity.
Qed.

(** ** Two quoted fields, in general *)

Lemma clamp_inside (n i : Z) : 0 <= i <= n -> clamp n i = i.
Proof.
  intros H. unfold clamp. destruct (i <? 0) eqn:E; [apply Z.ltb_lt in E|]; lia.
Qed.

Lemma slice_between {A} (s : list A) (lo hi : Z) :
  0 <= lo <= len s -> 0 <= hi <= len s ->
  slice s (Some lo) (Some hi) = firstn (Z.to_nat (hi - lo)) (skipn (Z.to_nat lo) s).
Proof. intros Hlo Hhi. unfold slice. rewrite !clamp_inside by lia. reflexivity. Qed.

Lemma slice_from {A} (s : list A) (lo : Z) :
  0 <= lo <= len s -> slice s (Some lo) None = skipn (Z.to_nat lo) s.
Proof.
  intros Hlo. unfold slice. rewrite clamp_inside by lia.
  apply firstn_all2. unfold len in *. rewrite length_skipn. lia.
Qed.

Lemma slice_but_last {A} (s : list A) (x : A) :
  slice (s ++ [x]) None (Some (-1)) = s.
Proof.
  assert (Hn : len (s ++ [x]) = len s + 1)
    by (unfold len; rewrite length_app; cbn [length]; lia).
  unfold slice. rewrite Hn. unfold clamp. change (-1 <? 0) with true. cbv iota.
  replace (Z.to_nat (Z.max 0 (-1 + (len s + 1)) - 0)) with (length s)
    by (unfold len; lia).
  change (Z.to_nat 0) with 0%nat. cbn [skipn].
  rewrite firstn_app, Nat.sub_diag, firstn_all. cbn [firstn]. apply app_nil_r.
Qed.

Section NoSuchCharacter.

Variable c : char.

(** [c] does not occur in [s]. *)
Let without (s : str) : Prop := forall x, In x s -> x <> c.

Lemma startswith_other (x : char) (s sub : str) :
  x <> c -> startswith (x :: s) (c :: sub) = false.
Proof.
  intros H. cbn [startswith]. destruct (c =? x)%N eqn:E; [|reflexivity].
  apply N.eqb_eq in E. congruence.
Qed.

(** [find] passes over a stretch without the first character of what
    it looks for. *)
Lemma find_from_without (sub s rest : str) (pos : Z) :
  without s ->
  find_from (c :: sub) (s ++ rest) pos = find_from (c :: sub) rest (pos + len s).
Proof.
  revert pos. induction s as [|x s IH]; intros pos H.
  - unfold len. cbn [app length]. f_equal. lia.
  - cbn [app find_from]. rewrite startswith_other by (apply H; left; reflexivity).
    rewrite IH by (intros y Hy; apply H; right; exact Hy).
    f_equal. unfold len. cbn [length]. lia.
Qed.

Lemma rfind_from_without (sub s rest : str) (pos last : Z) :
  without s ->
  rfind_from (c :: sub) (s ++ rest) pos last
  = rfind_from (c :: sub) rest (pos + len s) last.
Proof.
  revert pos. induction s as [|x s IH]; intros pos H.
  - unfold len. cbn [app length]. f_equal. lia.
  - cbn [app rfind_from]. rewrite startswith_other by (apply H; left; reflexivity).
    rewrite IH by (intros y Hy; apply H; right; exact Hy).
    f_equal. unfold len. cbn [length]. lia.
Qed.

Lemma find_from_absent (sub s : str) (pos : Z) :
  without s -> find_from (c :: sub) s pos = -1.
Proof.
  intros H. rewrite <- (app_nil_r s). rewrite find_from_without by exact H.
  reflexivity.
Qed.

End NoSuchCharacter.

Lemma getitem_first {A} (x : A) (s : list A) : getitem (x :: s) 0 = Returned x.
Proof.
  unfold getitem. change (0 <? 0) with false. cbv iota.
  assert (H : (0 <? len (x :: s)) = true) by (apply Z.ltb_lt; unfold len; cbn [length]; lia).
  rewrite H. reflexivity.
Qed.

Lemma getitem_last {A} (s : list A) (x : A) : getitem (s ++ [x]) (-1) = Returned x.
Proof.
  assert (Hn : len (s ++ [x]) = len s + 1)
    by (unfold len; rewrite length_app; cbn [length]; lia).
  unfold getitem. rewrite Hn. change (-1 <? 0) with true. cbv iota.
  replace (-1 + (len s + 1)) with (len s) by lia.
  assert (H : (0 <=? len s) && (len s <? len s + 1) = true).
  { apply andb_true_intro. split; [apply Z.leb_le; apply len_nonneg|apply Z.ltb_lt; lia]. }
  rewrite H. unfold len. rewrite Nat2Z.id, nth_error_app2, Nat.sub_diag by lia.
  reflexivity.
Qed.

Lemma find_at_start (s sub : str) : find s sub 0 = find_from sub s 0.
Proof.
  unfold find. assert (H : (len s <? 0) = false) by (apply Z.ltb_ge; apply len_nonneg).
  rewrite H. rewrite clamp_inside by (pose proof (len_nonneg s); lia). reflexivity.
Qed.

Lemma firstn_but_last {A} (s rest : list A) :
  firstn (length s - 1) (s ++ rest) = removelast s.
Proof.
  rewrite firstn_app. replace (length s - 1 - length s)%nat with 0%nat by lia.
  cbn [firstn]. rewrite app_nil_r. rewrite removelast_firstn_len.
  f_equal. lia.
Qed.

Section TwoQuotedFields.

Variable self : TextDataDoctor.t.
Variables q d : char.
Variables a b : str.

Hypothesis qualifier_is : TextDataDoctor.qualifier self = [q].
Hypothesis delimiter_is : TextDataDoctor.delimiter self = [d].
Hypothesis distinct_marks : q <> d.
Hypothesis plain_a : forall x, In x a -> x <> q /\ x <> d.
Hypothesis plain_b : forall x, In x b -> x <> q /\ x <> d.

(** The record of the two quoted fields [a] and [b]. *)
Let rcd : str := q :: a ++ [q; d; q] ++ b ++ [q].

Let end_is : TextDataDoctor.end_pattern self = [q; d].
Proof. unfold TextDataDoctor.end_pattern. rewrite qualifier_is, delimiter_is. reflexivity. Qed.

Let start_is : TextDataDoctor.start_pattern self = [d; q].
Proof. unfold TextDataDoctor.start_pattern. rewrite qualifier_is, delimiter_is. reflexivity. Qed.

Let len_rcd : len rcd = len a + len b + 5.
Proof.
  unfold rcd, len. cbn [length]. rewrite !length_app. cbn [length]. lia.
Qed.

Let dq_false : (d =? q)%N = false.
Proof. apply N.eqb_neq. congruence. Qed.

Let after_first : startswith (a ++ [q; d; q] ++ b ++ [q]) [d] = false.
Proof.
  destruct a as [|x a'].
  - cbn. rewrite dq_false. reflexivity.
  - cbn [app]. apply startswith_other. intros ->. apply (plain_a d); [left|]; reflexivity.
Qed.

Lemma two_quoted_leading :
  TextDataDoctor.leading_value self rcd = Returned ([removelast a], len a).
Proof.
  unfold TextDataDoctor.leading_value, char_at. unfold rcd at 1.
  rewrite getitem_first. cbn [bind]. rewrite qualifier_is, end_is.
  cbn [str_eqb]. rewrite N.eqb_refl. cbn [andb].
  assert (Hall : find_from [q; d] rcd 0 = 1 + len a).
  { unfold rcd. cbn [find_from startswith]. rewrite N.eqb_refl. cbn [andb].
    rewrite after_first.
    rewrite (find_from_without q) by (intros x Hx; apply plain_a; exact Hx).
    cbn [app find_from startswith]. rewrite !N.eqb_refl. cbn [andb].
    destruct (b ++ [q]); reflexivity. }
  unfold contains. rewrite find_at_start, Hall.
  assert (Hpos : (0 <=? 1 + len a) = true)
    by (apply Z.leb_le; pose proof (len_nonneg a); lia).
  rewrite Hpos.
  assert (Htail : slice rcd (Some 1) None = a ++ [q; d; q] ++ b ++ [q]).
  { rewrite slice_from by (rewrite len_rcd; pose proof (len_nonneg a);
                           pose proof (len_nonneg b); lia).
    reflexivity. }
  rewrite Htail. unfold index. rewrite find_at_start.
  rewrite (find_from_without q) by (intros x Hx; apply plain_a; exact Hx).
  cbn [app find_from startswith]. rewrite !N.eqb_refl. cbn [andb].
  replace (0 + len a) with (len a) by lia.
  assert (Hneg : (len a <? 0) = false) by (apply Z.ltb_ge; apply len_nonneg).
  rewrite Hneg. cbn [bind]. do 3 f_equal.
  rewrite slice_between by (rewrite len_rcd; pose proof (len_nonneg a);
                            pose proof (len_nonneg b); lia).
  change (skipn (Z.to_nat 1) rcd) with (a ++ [q; d; q] ++ b ++ [q]).
  replace (Z.to_nat (len a - 1)) with (length a - 1)%nat by (unfold len; lia).
  apply firstn_but_last.
Qed.

Let no_d_before : forall x, In x (q :: a ++ [q]) -> x <> d.
Proof.
  intros x [<-|Hx]; [exact distinct_marks|].
  apply in_app_or in Hx as [Hx|[<-|[]]]; [apply plain_a; exact Hx|exact distinct_marks].
Qed.

Let rcd_split : rcd = (q :: a ++ [q]) ++ d :: q :: b ++ [q].
Proof. unfold rcd. cbn [app]. rewrite <- app_assoc. reflexivity. Qed.

Let rcd_body : rcd = ((q :: a ++ [q]) ++ d :: q :: b) ++ [q].
Proof.
  unfold rcd. cbn [app]. rewrite <- !app_assoc. cbn [app]. reflexivity.
Qed.

Lemma two_quoted_trailing :
  TextDataDoctor.trailing_value self rcd (len rcd)
  = Returned ([q :: b], len a + 3).
Proof.
  unfold TextDataDoctor.trailing_value, char_at.
  rewrite rcd_body at 1. rewrite getitem_last. cbn [bind].
  rewrite qualifier_is, start_is. cbn [str_eqb]. rewrite N.eqb_refl. cbn [andb].
  assert (Hbefore : len (q :: a ++ [q]) = len a + 2)
    by (unfold len; cbn [length]; rewrite length_app; cbn [length]; lia).
  assert (Hall : find_from [d; q] rcd 0 = len a + 2).
  { rewrite rcd_split. rewrite (find_from_without d) by exact no_d_before.
    cbn [find_from startswith]. rewrite !N.eqb_refl. cbn [andb].
    rewrite startswith_nil. lia. }
  unfold contains. rewrite find_at_start, Hall.
  assert (Hpos : (0 <=? len a + 2) = true)
    by (apply Z.leb_le; pose proof (len_nonneg a); lia).
  rewrite Hpos.
  rewrite rcd_body at 1. rewrite slice_but_last.
  assert (Hlast : rfind ((q :: a ++ [q]) ++ d :: q :: b) [d; q] = len a + 2).
  { unfold rfind. rewrite (rfind_from_without d) by exact no_d_before.
    cbn [rfind_from startswith]. rewrite !N.eqb_refl. cbn [andb].
    rewrite startswith_nil, dq_false. cbn [andb].
    rewrite <- (app_nil_r b).
    rewrite (rfind_from_without d) by (intros x Hx; apply plain_b; exact Hx).
    cbn [rfind_from startswith]. lia. }
  unfold rindex. rewrite Hlast.
  assert (Hneg : (len a + 2 <? 0) = false)
    by (apply Z.ltb_ge; pose proof (len_nonneg a); lia).
  rewrite Hneg. cbn [bind]. f_equal. f_equal; [f_equal|lia].
  rewrite slice_between by (rewrite len_rcd; pose proof (len_nonneg a);
                            pose proof (len_nonneg b); lia).
  assert (Hskip : skipn (Z.to_nat (len a + 2 + 1)) rcd = q :: b ++ [q]).
  { replace rcd with ((q :: a ++ [q; d]) ++ q :: b ++ [q])
      by (unfold rcd; cbn [app]; rewrite <- app_assoc; reflexivity).
    replace (Z.to_nat (len a + 2 + 1)) with (length (q :: a ++ [q; d]))
      by (unfold len; cbn [length]; rewrite length_app; cbn [length]; lia).
    rewrite skipn_app, skipn_all, Nat.sub_diag. reflexivity. }
  rewrite Hskip.
  replace (Z.to_nat (len rcd - 1 - (len a + 2 + 1))) with (length (q :: b))
    by (rewrite len_rcd; unfold len; cbn [length]; lia).
  rewrite (app_comm_cons b [q] q), firstn_app, firstn_all, Nat.sub_diag.
  cbn [firstn]. apply app_nil_r.
Qed.

(** The loop has nothing to do: between the new bounds there is no
    start pattern. *)
Lemma two_quoted_loop_over :
  TextDataDoctor.is_not_end_qualified_values self rcd (len a) (len a + 3) = false.
Proof.
  unfold TextDataDoctor.is_not_end_qualified_values. rewrite start_is.
  assert (Hthree : exists x, x <> d /\ slice rcd (Some (len a)) (Some (len a + 3)) = [x; q; d]).
  { destruct (exists_last (l := q :: a)) as [front [x Hx]]; [discriminate|].
    exists x. split.
    - assert (Hin : In x (q :: a)) by (rewrite Hx; apply in_or_app; right; left; reflexivity).
      destruct Hin as [<-|Hin]; [exact distinct_marks|apply plain_a; exact Hin].
    - assert (Hfront : length front = length a).
      { apply (f_equal (@length _)) in Hx. rewrite length_app in Hx.
        cbn [length] in Hx. lia. }
      rewrite slice_between by (rewrite len_rcd; pose proof (len_nonneg a);
                                pose proof (len_nonneg b); lia).
      replace rcd with (front ++ x :: q :: d :: q :: b ++ [q]).
      2:{ unfold rcd.
          change (q :: a ++ [q; d; q] ++ b ++ [q])
            with ((q :: a) ++ [q; d; q] ++ b ++ [q]).
          rewrite Hx, <- app_assoc. reflexivity. }
      replace (Z.to_nat (len a)) with (length front) by (unfold len; lia).
      rewrite skipn_app, skipn_all, Nat.sub_diag.
      replace (Z.to_nat (len a + 3 - len a)) with 3%nat by lia. reflexivity. }
  destruct Hthree as [x [Hxd ->]].
  assert (Hx : (d =? x)%N = false) by (apply N.eqb_neq; congruence).
  assert (Hnone : contains [d; q] [x; q; d] = false).
  { unfold contains, find. cbn. rewrite Hx, dq_false, !N.eqb_refl. reflexivity. }
  rewrite Hnone. reflexivity.
Qed.

(** On every record of two quoted fields that hold neither mark, the
    leading value comes without its last character and the trailing
    value with the qualifier that opens it. *)
Lemma two_quoted_yielded :
  TextDataDoctor.get_qualifier_values self rcd = Generated [removelast a; q :: b] None.
Proof.
  unfold TextDataDoctor.get_qualifier_values, TextDataDoctor.get_qualifier_values_within.
  rewrite qualifier_is. cbn [truthy negb]. unfold rcd at 1. cbn [truthy negb].
  rewrite two_quoted_leading, two_quoted_trailing.
  cbn [TextDataDoctor.scan_loop]. unfold TextDataDoctor.scan_turn.
  cbn [TextDataDoctor.start TextDataDoctor.found]. rewrite two_quoted_loop_over.
  reflexivity.
Qed.

End TwoQuotedFields.

(** ** The general statements at concrete inputs *)

Lemma default_takes_uniform_split_witness :
  TextDataDoctor.init Cases.digit_first (lit "/data/f.csv") (lit "id,name")
    (lit ",") (Cases.dq "'") utf8 = Returned Cases.comma_quote
  /\ TextDataDoctor.all_qualified Cases.comma_quote = true
  /\ Analysis.escape_checks Cases.comma_quote Cases.two_quoted
     = Returned [lit "ab"; lit "cd"].
Proof.
  split; [reflexivity|].
  destruct (default_takes_uniform_split Cases.digit_first (lit "/data/f.csv")
              (lit "id,name") (lit ",") (Cases.dq "'") utf8 Cases.comma_quote eq_refl)
    as [Hflag [Hchecks _]].
  split; [exact Hflag|]. rewrite Hchecks. reflexivity.
Defined.

Lemma first_line_not_a_record_start_witness :
  @TextDataDoctor.get_records Cases.ascii_only Cases.stray_line
  = (Generated [] (Some IndexError), [])
  /\ @Analysis.analyze_file Cases.ascii_only Cases.stray_line = Raised IndexError.
Proof.
  apply (first_line_not_a_record_start Cases.ascii_only Cases.stray_line
           (lit "id,name" ++ [LF]) (Cases.dq "x,'y'" ++ [LF]) []).
  - reflexivity.
  - reflexivity.
  - vm_compute. discriminate.
  - reflexivity.
Defined.

Lemma header_of_words_raises_witness :
  snd (@TextDataDoctor.peek_file Cases.ascii_only (Some Cases.words_header)
         (lit "/data/f.csv"))
  = Raised IndexError.
Proof.
  apply (header_of_words_raises Cases.ascii_only Cases.words_header (lit "/data/f.csv")).
  reflexivity.
Defined.

(** A header with an accented letter, in a file that is UTF-8: its
    reading under cp1252 has other characters, and is not the one
    [peek_file] takes. *)
Example accented_header_raises :
  snd (@TextDataDoctor.peek_file MoreCases.latin_letters (Some MoreCases.accented_header)
         (lit "/data/f.csv"))
  = Raised IndexError
  /\ exists h, decode (first_line (byte_lines MoreCases.accented_header)) cp1252
               = Returned h
               /\ forallb (@Re.word_or_space MoreCases.latin_letters) (rstrip h [CR; LF])
                  = false.
Proof.
  split; [reflexivity|]. eexists. split; reflexivity.
Qed.

(** A file that is not UTF-8: the header is read under cp1252. *)
Example fallback_header_raises :
  snd (@TextDataDoctor.peek_file MoreCases.latin_letters (Some MoreCases.latin1_body)
         (lit "/data/f.csv"))
  = Raised IndexError.
Proof. reflexivity. Qed.

(** * More properties *)

(** ** Option validation *)

Lemma replace_from_half (old new s : str) (skip : nat) :
  length old = 2%nat -> length new = 1%nat -> (skip <= 1)%nat ->
  (length s <= 2 * length (replace_from old new s skip) + skip)%nat.
Proof.
  intros Hold Hnew. revert skip. induction s as [|c s IH]; intros skip Hskip.
  - cbn. lia.
  - cbn [replace_from]. destruct skip as [|k].
    + destruct (startswith (c :: s) old).
      * rewrite length_app, Hnew, Hold. cbn [length Nat.sub].
        specialize (IH 1%nat ltac:(lia)). lia.
      * cbn [length]. specialize (IH 0%nat ltac:(lia)). lia.
    + specialize (IH k ltac:(lia)). cbn [length]. lia.
Qed.

(** What [delimiter.replace("\\t", "\t")] has one character for. *)
Lemma unescaped_one_char (delimiter : str) :
  len (replace delimiter backslash_t [TAB]) = 1
  <-> len delimiter = 1 \/ delimiter = backslash_t.
Proof.
  unfold len. split.
  - destruct delimiter as [|a [|b [|c rest]]].
    + cbn. lia.
    + intros _. left. reflexivity.
    + unfold replace, backslash_t.
      cbn [replace_from startswith length Nat.sub app].
      rewrite ?andb_false_r, ?andb_true_r.
      destruct (92 =? a)%N eqn:Ea; destruct (116 =? b)%N eqn:Eb;
        cbn [andb length app]; try lia.
      apply N.eqb_eq in Ea, Eb. subst. intros _. right. reflexivity.
    + intros H.
      pose proof (replace_from_half backslash_t [TAB] (a :: b :: c :: rest) 0
                    eq_refl eq_refl ltac:(lia)) as Hhalf.
      unfold replace, backslash_t in H. cbn [length] in Hhalf.
      unfold backslash_t in Hhalf. lia.
  - intros [H| ->]; [|reflexivity].
    destruct delimiter as [|a [|b rest]]; cbn [length] in H; try lia.
    unfold replace, backslash_t. cbn [replace_from startswith].
    rewrite andb_false_r. reflexivity.
Qed.

Lemma validate_flag (E : RegexEngine) (regex delimiter qualifier : str) :
  fst (validate_file_options regex delimiter qualifier) = true
  <-> re_compile regex <> None
      /\ len (replace delimiter backslash_t [TAB]) = 1
      /\ len qualifier <= 1.
Proof.
  unfold validate_file_options.
  destruct (re_compile regex) as [m|];
    destruct (len (replace delimiter backslash_t [TAB]) =? 1) eqn:Ed;
    destruct (1 <? len qualifier) eqn:Eq;
    cbn [app truthy negb fst]; (apply Z.eqb_eq in Ed || apply Z.eqb_neq in Ed);
    (apply Z.ltb_lt in Eq || apply Z.ltb_ge in Eq);
    split; try discriminate; try (intros [H1 [H2 H3]]; congruence || lia).
  intros _. split; [discriminate|]. split; [exact Ed|exact Eq].
Qed.

(** X1. [validate_file_options] answers true exactly when the pattern
    compiles, the delimiter is one character or the two characters of a
    backslash and a [t], and the qualifier has at most one character;
    and it answers true exactly when its message is empty. *)
Theorem validate_file_options_accepts (E : RegexEngine) (regex delimiter qualifier : str) :
  (fst (validate_file_options regex delimiter qualifier) = true
   <-> re_compile regex <> None
       /\ (len delimiter = 1 \/ delimiter = backslash_t)
       /\ len qualifier <= 1)
  /\ (fst (validate_file_options regex delimiter qualifier) = true
      <-> snd (validate_file_options regex delimiter qualifier) = []).
Proof.
  split.
  - rewrite validate_flag, unescaped_one_char. reflexivity.
  - unfold validate_file_options.
    destruct (re_compile regex) as [m|];
      destruct (len (replace delimiter backslash_t [TAB]) =? 1);
      destruct (1 <? len qualifier);
      cbn; split; intros H; try reflexivity; discriminate.
Qed.

(** X2. When the options are valid, [MainWindowViewModel.analyze_file]
    builds the doctor: the constructor does not raise, the delimiter it
    is given has exactly one character and the qualifier at most one. *)
Theorem valid_options_build_doctor (E : RegexEngine)
  (regex path text delimiter qualifier : str) (encoding : codec) :
  fst (validate_file_options regex delimiter qualifier) = true ->
  exists self,
    ViewModel.analyze_file regex path text delimiter qualifier encoding
    = inr (Returned self)
    /\ len (TextDataDoctor.delimiter self) = 1
    /\ len (TextDataDoctor.qualifier self) <= 1
    /\ (len delimiter = 1 -> TextDataDoctor.delimiter self = delimiter)
    /\ (delimiter = backslash_t -> TextDataDoctor.delimiter self = [TAB]).
Proof.
  intros Hvalid. pose proof Hvalid as Hflag. apply validate_flag in Hflag.
  destruct Hflag as [Hre [Hd Hq]].
  unfold ViewModel.analyze_file.
  destruct (validate_file_options regex delimiter qualifier) as [is_valid message].
  cbn [fst] in Hvalid. subst is_valid. cbn [negb].
  destruct (re_compile regex) as [matcher|]; [|congruence].
  unfold TextDataDoctor.init.
  destruct (replace delimiter backslash_t [TAB]) as [|c rest] eqn:Hr;
    [unfold len in Hd; cbn in Hd; lia|].
  cbn [split bind]. eexists. split; [reflexivity|].
  cbn [TextDataDoctor.delimiter TextDataDoctor.qualifier].
  split; [exact Hd|]. split; [exact Hq|]. split.
  - intros H1. rewrite <- Hr. destruct delimiter as [|a [|b l]];
      unfold len in H1; cbn [length] in H1; try lia.
    unfold replace, backslash_t. cbn [replace_from startswith].
    rewrite andb_false_r. reflexivity.
  - intros ->. cbn in Hr. symmetry. exact Hr.
Qed.

Lemma valid_options_build_doctor_witness :
  exists self,
    @ViewModel.analyze_file MoreCases.digits_engine (lit "\d") (lit "/data/f.csv")
      (lit "id,name") backslash_t [] utf8 = inr (Returned self)
    /\ TextDataDoctor.delimiter self = [TAB].
Proof.
  destruct (valid_options_build_doctor MoreCases.digits_engine (lit "\d")
              (lit "/data/f.csv") (lit "id,name") backslash_t [] utf8 eq_refl)
    as [self [Hrun [_ [_ [_ Htab]]]]].
  exists self. split; [exact Hrun|]. apply Htab. reflexivity.
Defined.

(** ** What a successful sniff proposes *)

Lemma replace_char_filter (x : char) (s : str) :
  replace s [x] [] = filter (fun c => negb (x =? c)%N) s.
Proof.
  unfold replace. induction s as [|c s IH]; [reflexivity|].
  cbn [replace_from startswith filter length Nat.sub app].
  rewrite startswith_nil, andb_true_r. destruct (x =? c)%N; cbn [negb]; rewrite IH;
    reflexivity.
Qed.

Lemma in_replace_char (x c : char) (s : str) :
  In c (replace s [x] []) -> In c s /\ c <> x.
Proof.
  rewrite replace_char_filter, filter_In. intros [Hin Hne]. split; [exact Hin|].
  apply negb_true_iff, N.eqb_neq in Hne. congruence.
Qed.

Lemma getitem_in {A} (s : list A) (i : Z) (x : A) : getitem s i = Returned x -> In x s.
Proof.
  intros H. destruct (getitem_nth s i _ x H eq_refl) as [_ Hnth].
  eapply nth_error_In. exact Hnth.
Qed.

Lemma first_single_some (chars check_space delimiter : str) :
  TextDataDoctor.first_single chars check_space = Some delimiter ->
  exists c, delimiter = [c] /\ In c chars.
Proof.
  induction chars as [|c chars IH]; [discriminate|].
  cbn [TextDataDoctor.first_single].
  destruct (find check_space [c] 0 =? rfind check_space [c]).
  - intros H. injection H as <-. exists c. split; [reflexivity|left; reflexivity].
  - intros H. destruct (IH H) as [c' [Hd Hin]]. exists c'. split; [exact Hd|].
    right. exact Hin.
Qed.

Lemma in_distinct (c : char) (s : str) : In c (TextDataDoctor.distinct s) -> In c s.
Proof.
  induction s as [|x s IH]; [exact (fun H => H)|].
  cbn [TextDataDoctor.distinct]. destruct (char_in x s).
  - intros H. right. apply IH. exact H.
  - intros [<-|H]; [left; reflexivity|right; apply IH; exact H].
Qed.

Section Sniffed.

Context {U : UnicodeData}.

(** The pieces of [re.split] hold no word character. *)
Lemma split_words_from_other (s cur : str) (in_word : bool) (piece : str) (c : char) :
  (forall x, In x cur -> Re.is_word x = false) ->
  In piece (Re.split_words_from s cur in_word) -> In c piece ->
  Re.is_word c = false.
Proof.
  revert cur in_word. induction s as [|x s IH]; intros cur in_word Hcur Hin Hc.
  - cbn in Hin. destruct Hin as [<-|[]]. apply Hcur. apply in_rev. exact Hc.
  - cbn [Re.split_words_from] in Hin. destruct (Re.is_word x) eqn:W.
    + destruct in_word.
      * eapply IH; [|exact Hin|exact Hc]. intros y [].
      * destruct Hin as [<-|Hin].
        -- apply Hcur. apply in_rev. exact Hc.
        -- eapply IH; [|exact Hin|exact Hc]. intros y [].
    + eapply IH; [|exact Hin|exact Hc].
      intros y [<-|Hy]; [exact W|apply Hcur; exact Hy].
Qed.

(** A mark: neither a word character nor the space. *)
Let mark (c : char) : Prop := Re.word_or_space c = false.

Lemma spacer_marks (header spacer : str) (c : char) :
  In spacer
     (map (fun spacer => replace spacer [space] [])
          (filter (fun spacer => negb (str_eqb (replace spacer [space] []) []))
                  (Re.split_words header))) ->
  In c spacer -> mark c.
Proof.
  intros Hin Hc. apply in_map_iff in Hin as [piece [<- Hpiece]].
  apply filter_In in Hpiece as [Hpiece _].
  apply in_replace_char in Hc as [Hc Hsp].
  unfold mark, Re.word_or_space. unfold Re.split_words in Hpiece.
  assert (W : Re.is_word c = false)
    by (apply (split_words_from_other header [] false piece c);
        [intros x []|exact Hpiece|exact Hc]).
  rewrite W. cbn [orb]. apply N.eqb_neq. exact Hsp.
Qed.

Lemma peek_guess_success (path header : str) (encoding : codec) (r : PeekResult.t) :
  snd (TextDataDoctor.peek_guess path header encoding) = Returned r ->
  PeekResult.code r = 1 ->
  exists c,
    PeekResult.delimiter r = [c] /\ mark c
    /\ (PeekResult.qualifier r = []
        \/ exists k, PeekResult.qualifier r = [k] /\ k <> c /\ mark k)
    /\ PeekResult.encoding r = codec_name encoding.
Proof.
  unfold TextDataDoctor.peek_guess. cbn [snd].
  set (spacers := map _ (filter _ (Re.split_words header))).
  destruct (if 1 <? len spacers then getitem spacers 1 else getitem spacers 0)
    as [check_space|e] eqn:Hget; [|discriminate].
  assert (Hin : In check_space spacers)
    by (destruct (1 <? len spacers); eapply getitem_in; exact Hget).
  cbn [bind]. destruct (Re.only_spaces check_space).
  { intros H. injection H as <-. discriminate. }
  destruct (TextDataDoctor.first_single _ _) as [delimiter|] eqn:Hd.
  2:{ intros H. injection H as <-. discriminate. }
  intros H _. injection H as <-. cbn [PeekResult.delimiter PeekResult.qualifier
                                       PeekResult.encoding].
  change (replace_from [space] [] check_space 0)
    with (replace check_space [space] []) in *.
  apply first_single_some in Hd as [c [-> Hc]].
  apply in_replace_char in Hc as [Hc _].
  exists c. split; [reflexivity|]. split; [eapply spacer_marks; eassumption|].
  split; [|reflexivity].
  destruct (len _ =? 1) eqn:Hone; [|left; reflexivity].
  right. apply Z.eqb_eq in Hone.
  destruct (TextDataDoctor.distinct _) as [|k [|k' rest]] eqn:Hk;
    unfold len in Hone; cbn [length] in Hone; try lia.
  exists k. split; [reflexivity|].
  assert (Hink : In k (TextDataDoctor.distinct
                         (replace (replace check_space [space] []) [c] [])))
    by (rewrite Hk; left; reflexivity).
  apply in_distinct, in_replace_char in Hink as [Hink Hne].
  apply in_replace_char in Hink as [Hink _].
  split; [exact Hne|]. eapply spacer_marks; eassumption.
Qed.

(** A result with code 1 comes out of the search for the delimiter. *)
Lemma peek_file_from_guess (file : option bytes) (path : str) (r : PeekResult.t) :
  snd (TextDataDoctor.peek_file file path) = Returned r ->
  PeekResult.code r = 1 ->
  exists header encoding,
    snd (TextDataDoctor.peek_guess path header encoding) = Returned r.
Proof.
  unfold TextDataDoctor.peek_file.
  destruct (TextDataDoctor.peek_try file path) as [sent [r0|e|header lines]] eqn:T.
  - cbn [snd]. intros H Hcode. injection H as <-.
    unfold TextDataDoctor.peek_try in T. destruct file as [content|]; [|discriminate].
    destruct (byte_in 0%N _).
    + injection T as _ <-. discriminate.
    + destruct (decode _ utf8); [|discriminate].
      destruct (TextDataDoctor.decode_lines _ utf8); discriminate.
  - destruct e; cbn [snd]; try discriminate.
    + destruct file as [content|]; [|discriminate].
      destruct (TextDataDoctor.peek_fallback content) as [sent' [[[header lines] bad]|e]];
        [|discriminate].
      cbv zeta.
      destruct (TextDataDoctor.peek_guess path header cp1252) as [sent'' r'] eqn:G.
      cbn [snd]. intros -> _. exists header, cp1252. rewrite G. reflexivity.
    + intros H Hcode. injection H as <-. discriminate.
  - destruct (TextDataDoctor.peek_guess path header utf8) as [sent' r'] eqn:G.
    cbn [snd]. intros -> _. exists header, utf8. rewrite G. reflexivity.
Qed.

(** X3. When [peek_file] returns code 1, the delimiter it proposes is
    exactly one character, which is neither a word character nor the
    space; the qualifier is empty or one such character, different from
    the delimiter; the encoding is one of the two names. *)
Theorem sniff_proposes_marks (file : option bytes) (path : str) (r : PeekResult.t) :
  snd (TextDataDoctor.peek_file file path) = Returned r ->
  PeekResult.code r = 1 ->
  exists c,
    PeekResult.delimiter r = [c] /\ Re.word_or_space c = false
    /\ (PeekResult.qualifier r = []
        \/ exists k, PeekResult.qualifier r = [k] /\ k <> c
                     /\ Re.word_or_space k = false)
    /\ (PeekResult.encoding r = lit "utf8" \/ PeekResult.encoding r = lit "cp1252").
Proof.
  intros Hr Hcode. destruct (peek_file_from_guess file path r Hr Hcode) as [h [enc Hg]].
  destruct (peek_guess_success path h enc r Hg Hcode) as [c [Hd [Hm [Hq He]]]].
  exists c. split; [exact Hd|]. split; [exact Hm|]. split; [exact Hq|].
  rewrite He. destruct enc; [left|right]; reflexivity.
Qed.

(** X4. The delimiter of a successful sniff, escaped for display by
    [handle_peek_result] and unescaped by [analyze_file], is the sniffed
    delimiter again, and with the sniffed qualifier it passes
    [validate_file_options] for every pattern that compiles. *)
Theorem sniffed_delimiter_round_trip (E : RegexEngine) (file : option bytes)
  (path regex : str) (r : PeekResult.t) :
  snd (TextDataDoctor.peek_file file path) = Returned r ->
  PeekResult.code r = 1 ->
  re_compile regex <> None ->
  replace (ViewModel.shown_delimiter r) backslash_t [TAB] = PeekResult.delimiter r
  /\ fst (validate_file_options regex (ViewModel.shown_delimiter r)
            (PeekResult.qualifier r)) = true.
Proof.
  intros Hr Hcode Hre.
  destruct (peek_file_from_guess file path r Hr Hcode) as [h [enc Hg]].
  destruct (peek_guess_success path h enc r Hg Hcode) as [c [Hd [_ [Hq _]]]].
  assert (Hback : replace (ViewModel.shown_delimiter r) backslash_t [TAB]
                  = PeekResult.delimiter r).
  { unfold ViewModel.shown_delimiter. rewrite Hd. unfold replace, backslash_t, TAB.
    cbn [replace_from startswith length Nat.sub app]. rewrite andb_true_r.
    destruct (9 =? c)%N eqn:Ec.
    - apply N.eqb_eq in Ec. subst c. reflexivity.
    - cbn [replace_from startswith]. rewrite andb_false_r. reflexivity. }
  split; [exact Hback|]. apply validate_flag. split; [exact Hre|].
  rewrite Hback, Hd. split; [reflexivity|].
  destruct Hq as [->|[k [-> _]]]; unfold len; cbn; lia.
Qed.

End Sniffed.

Lemma sniff_proposes_marks_witness :
  exists c,
    PeekResult.delimiter MoreCases.quoted_header_sniffed = [c]
    /\ @Re.word_or_space Cases.ascii_only c = false.
Proof.
  destruct (@sniff_proposes_marks Cases.ascii_only (Some MoreCases.quoted_header)
              (lit "/data/f.csv") MoreCases.quoted_header_sniffed eq_refl eq_refl)
    as [c [Hd [Hm _]]].
  exists c. split; [exact Hd|exact Hm].
Defined.

Lemma sniffed_delimiter_round_trip_witness :
  replace (ViewModel.shown_delimiter MoreCases.quoted_header_sniffed) backslash_t [TAB]
  = lit ",".
Proof.
  apply (@sniffed_delimiter_round_trip Cases.ascii_only MoreCases.digits_engine
           (Some MoreCases.quoted_header) (lit "/data/f.csv") (lit "\d")
           MoreCases.quoted_header_sniffed eq_refl eq_refl).
  discriminate.
Defined.

(** ** Sniffing a header of uniform shape *)

Section UniformHeader.

Context {U : UnicodeData}.

Lemma split_words_from_word_run (w rest : str) :
  forallb Re.is_word w = true ->
  Re.split_words_from (w ++ rest) [] true = Re.split_words_from rest [] true.
Proof.
  induction w as [|c w IH]; [reflexivity|]. cbn [forallb app Re.split_words_from].
  intros H. apply andb_prop in H as [Hc Hw]. rewrite Hc. apply IH. exact Hw.
Qed.

Lemma split_words_from_word (w rest cur : str) :
  w <> [] -> forallb Re.is_word w = true ->
  Re.split_words_from (w ++ rest) cur false
  = rev cur :: Re.split_words_from rest [] true.
Proof.
  destruct w as [|c w]; [congruence|]. intros _. cbn [forallb app Re.split_words_from].
  intros H. apply andb_prop in H as [Hc Hw]. rewrite Hc.
  rewrite split_words_from_word_run by exact Hw. reflexivity.
Qed.

Lemma split_words_from_marks (m rest cur : str) (in_word : bool) :
  m <> [] -> forallb (fun c => negb (Re.is_word c)) m = true ->
  Re.split_words_from (m ++ rest) cur in_word
  = Re.split_words_from rest (rev m ++ cur) false.
Proof.
  revert cur in_word. induction m as [|c m IH]; [congruence|]. intros cur in_word _.
  cbn [forallb app Re.split_words_from]. intros H. apply andb_prop in H as [Hc Hm].
  apply negb_true_iff in Hc. rewrite Hc. destruct m as [|c' m'].
  - reflexivity.
  - rewrite IH by (discriminate || exact Hm). cbn [rev]. rewrite <- !app_assoc.
    reflexivity.
Qed.

Lemma split_words_from_tail (post cur : str) (in_word : bool) :
  forallb (fun c => negb (Re.is_word c)) post = true ->
  Re.split_words_from post cur in_word = [rev cur ++ post].
Proof.
  revert cur in_word. induction post as [|c post IH]; intros cur in_word H.
  - cbn. rewrite app_nil_r. reflexivity.
  - cbn [forallb] in H. apply andb_prop in H as [Hc Hpost].
    apply negb_true_iff in Hc. cbn [Re.split_words_from]. rewrite Hc.
    rewrite IH by exact Hpost. cbn [rev]. rewrite <- app_assoc. reflexivity.
Qed.

Variables sep : str.
Hypothesis sep_some : sep <> [].
Hypothesis sep_marks : forallb (fun c => negb (Re.is_word c)) sep = true.

(** The words of a header: not empty, made of word characters. *)
Let wordy (words : list str) : Prop :=
  Forall (fun w => w <> [] /\ forallb Re.is_word w = true) words.

Lemma split_words_from_joined (words : list str) (post cur : str) :
  words <> [] -> wordy words ->
  forallb (fun c => negb (Re.is_word c)) post = true ->
  Re.split_words_from (join sep words ++ post) cur false
  = rev cur :: repeat sep (length words - 1) ++ [post].
Proof.
  intros Hsome Hwords Hpost. revert cur.
  induction words as [|w words IH]; [congruence|]. intros cur.
  inversion Hwords as [|w' words' [Hw1 Hw2] Hrest]; subst.
  destruct words as [|w2 words].
  - cbn [join length Nat.sub repeat app]. rewrite split_words_from_word by assumption.
    f_equal. apply split_words_from_tail. exact Hpost.
  - change (join sep (w :: w2 :: words)) with (w ++ sep ++ join sep (w2 :: words)).
    rewrite <- !app_assoc. rewrite split_words_from_word by assumption.
    rewrite split_words_from_marks by assumption.
    rewrite IH by (discriminate || exact Hrest).
    rewrite app_nil_r, rev_involutive. cbn [length Nat.sub repeat app].
    rewrite Nat.sub_0_r. reflexivity.
Qed.

End UniformHeader.

Lemma getitem_second {A} (a b : A) (s : list A) : getitem (a :: b :: s) 1 = Returned b.
Proof.
  unfold getitem. change (1 <? 0) with false. cbv iota.
  assert (H : (0 <=? 1) && (1 <? len (a :: b :: s)) = true).
  { apply andb_true_intro. split; [reflexivity|].
    apply Z.ltb_lt. unfold len. cbn [length]. lia. }
  rewrite H. reflexivity.
Qed.

Lemma filter_repeat {A} (f : A -> bool) (x : A) (n : nat) :
  f x = true -> filter f (repeat x n) = repeat x n.
Proof.
  intros H. induction n as [|n IH]; [reflexivity|]. cbn [repeat filter].
  rewrite H, IH. reflexivity.
Qed.

Section SniffedHeader.

Context {U : UnicodeData}.

Variable path : str.
Variable encoding : codec.
Variable words : list str.
Variable d : char.

Hypothesis at_least_two : (2 <= length words)%nat.
Hypothesis wordy :
  Forall (fun w => w <> [] /\ forallb Re.is_word w = true) words.
Hypothesis d_mark : Re.word_or_space d = false.

Let d_other : Re.is_word d = false /\ (d =? space)%N = false.
Proof. unfold Re.word_or_space in d_mark. apply orb_false_iff in d_mark. exact d_mark. Qed.

Let words_some : words <> [].
Proof. destruct words; [cbn in at_least_two; lia|discriminate]. Qed.

Let keep (spacer : str) : bool := negb (str_eqb (replace spacer [space] []) []).

Let strip_spaces (spacer : str) : str := replace spacer [space] [].

(** The header of plain names: the delimiter is found, no qualifier. *)
Lemma peek_guess_plain :
  snd (TextDataDoctor.peek_guess path (join [d] words) encoding)
  = Returned (PeekResult.Build 1 path [] [d] [] (codec_name encoding)).
Proof.
  destruct d_other as [Hw Hs].
  assert (Hsd : (space =? d)%N = false) by (rewrite N.eqb_sym; exact Hs).
  change space with 32%N in Hs.
  unfold TextDataDoctor.peek_guess. cbn [snd]. unfold Re.split_words.
  rewrite <- (app_nil_r (join [d] words)).
  rewrite (split_words_from_joined [d]); try assumption; try discriminate;
    try reflexivity.
  2:{ cbn [forallb]. rewrite Hw. reflexivity. }
  fold keep. fold strip_spaces.
  assert (Hstrip : strip_spaces [d] = [d]).
  { unfold strip_spaces. rewrite replace_char_filter. cbn [filter]. rewrite Hsd.
    reflexivity. }
  assert (Hkeep : keep [d] = true).
  { unfold keep. fold (strip_spaces [d]). rewrite Hstrip. reflexivity. }
  cbn [rev filter]. change (keep []) with false. cbv iota.
  rewrite filter_app, filter_repeat by exact Hkeep.
  cbn [filter]. change (keep []) with false. cbv iota. rewrite app_nil_r.
  rewrite map_repeat, Hstrip.
  destruct (length words - 1)%nat as [|[|n]] eqn:Hn; [lia| |].
  - cbn [repeat]. change (1 <? len [[d]]) with false. cbv iota.
    rewrite getitem_first. cbn [bind Re.only_spaces forallb]. rewrite Hs. cbn [andb].
    fold (strip_spaces [d]). rewrite Hstrip.
    unfold TextDataDoctor.first_single, find, rfind.
    do 3 (cbn; rewrite ?N.eqb_refl). reflexivity.
  - cbn [repeat].
    destruct (1 <? len _) eqn:Hlen;
      [|apply Z.ltb_ge in Hlen; unfold len in Hlen; cbn [length] in Hlen; lia].
    rewrite getitem_second. cbn [bind Re.only_spaces forallb]. rewrite Hs.
    cbn [andb]. fold (strip_spaces [d]). rewrite Hstrip.
    unfold TextDataDoctor.first_single, find, rfind.
    do 3 (cbn; rewrite ?N.eqb_refl). reflexivity.
Qed.

Variable q : char.

Hypothesis q_mark : Re.word_or_space q = false.
Hypothesis d_not_q : d <> q.

Let q_other : Re.is_word q = false /\ (q =? space)%N = false.
Proof. unfold Re.word_or_space in q_mark. apply orb_false_iff in q_mark. exact q_mark. Qed.

(** The header of quoted names: the second spacer gives both marks. *)
Lemma peek_guess_quoted :
  snd (TextDataDoctor.peek_guess path (q :: join [q; d; q] words ++ [q]) encoding)
  = Returned (PeekResult.Build 1 path [] [d] [q] (codec_name encoding)).
Proof.
  destruct d_other as [Hdw Hds]. destruct q_other as [Hqw Hqs].
  assert (Hsd : (space =? d)%N = false) by (rewrite N.eqb_sym; exact Hds).
  assert (Hsq : (space =? q)%N = false) by (rewrite N.eqb_sym; exact Hqs).
  assert (Hdq : (d =? q)%N = false) by (apply N.eqb_neq; exact d_not_q).
  assert (Hqd : (q =? d)%N = false) by (rewrite N.eqb_sym; exact Hdq).
  change space with 32%N in Hds, Hqs.
  unfold TextDataDoctor.peek_guess. cbn [snd]. unfold Re.split_words.
  change (q :: join [q; d; q] words ++ [q]) with ([q] ++ join [q; d; q] words ++ [q]).
  rewrite split_words_from_marks
    by (discriminate || (cbn [forallb]; rewrite Hqw; reflexivity)).
  rewrite (split_words_from_joined [q; d; q]); try assumption; try discriminate.
  2,3:(cbn [forallb]; rewrite ?Hqw, ?Hdw; reflexivity).
  fold keep. fold strip_spaces.
  assert (Hstrip3 : strip_spaces [q; d; q] = [q; d; q]).
  { unfold strip_spaces. rewrite replace_char_filter. cbn [filter]. rewrite Hsd, Hsq.
    reflexivity. }
  assert (Hstrip1 : strip_spaces [q] = [q]).
  { unfold strip_spaces. rewrite replace_char_filter. cbn [filter]. rewrite Hsq.
    reflexivity. }
  assert (Hkeep3 : keep [q; d; q] = true).
  { unfold keep. fold (strip_spaces [q; d; q]). rewrite Hstrip3. reflexivity. }
  assert (Hkeep1 : keep [q] = true).
  { unfold keep. fold (strip_spaces [q]). rewrite Hstrip1. reflexivity. }
  cbn [rev app filter]. rewrite Hkeep1.
  rewrite filter_app, filter_repeat by exact Hkeep3.
  cbn [filter]. rewrite Hkeep1.
  cbn [map]. rewrite map_app, map_repeat, Hstrip1, Hstrip3. cbn [map]. rewrite Hstrip1.
  destruct (length words - 1)%nat as [|n] eqn:Hn; [lia|].
  cbn [repeat app].
  destruct (1 <? len _) eqn:Hlen;
    [|apply Z.ltb_ge in Hlen; unfold len in Hlen; cbn [length] in Hlen; lia].
  rewrite getitem_second. cbn [bind Re.only_spaces forallb]. rewrite Hqs.
  cbn [andb]. fold (strip_spaces [q; d; q]). rewrite Hstrip3.
  unfold TextDataDoctor.first_single, find, rfind.
  do 4 (cbn; rewrite ?N.eqb_refl, ?Hdq, ?Hqd). reflexivity.
Qed.

End SniffedHeader.

(** The file whose lines all decode as UTF-8: the search for the
    delimiter works on the header so decoded. *)
Lemma peek_file_utf8 (U : UnicodeData) (content : bytes) (path h : str) (lines : list str) :
  byte_in 0%N (first_line (byte_lines content)) = false ->
  decode (first_line (byte_lines content)) utf8 = Returned h ->
  TextDataDoctor.decode_lines (later_lines (byte_lines content)) utf8 = Returned lines ->
  snd (TextDataDoctor.peek_file (Some content) path)
  = snd (TextDataDoctor.peek_guess path (rstrip h [CR; LF]) utf8).
Proof.
  intros Hnull Hh Hlines. unfold TextDataDoctor.peek_file, TextDataDoctor.peek_try.
  rewrite Hnull, Hh, Hlines.
  destruct (TextDataDoctor.peek_guess path (rstrip h [CR; LF]) utf8). reflexivity.
Qed.

(** X5. A file that decodes as UTF-8 and whose header is two or more
    names of word characters with one and the same character between
    them, neither a word character nor the space: [peek_file] proposes
    that character as the delimiter and no qualifier. *)
Theorem sniff_plain_header (U : UnicodeData) (content : bytes) (path h : str)
  (lines words : list str) (d : char) :
  byte_in 0%N (first_line (byte_lines content)) = false ->
  decode (first_line (byte_lines content)) utf8 = Returned h ->
  TextDataDoctor.decode_lines (later_lines (byte_lines content)) utf8 = Returned lines ->
  rstrip h [CR; LF] = join [d] words ->
  (2 <= length words)%nat ->
  Forall (fun w => w <> [] /\ forallb Re.is_word w = true) words ->
  Re.word_or_space d = false ->
  snd (TextDataDoctor.peek_file (Some content) path)
  = Returned (PeekResult.Build 1 path [] [d] [] (lit "utf8")).
Proof.
  intros Hnull Hh Hlines Hheader Htwo Hwords Hd.
  rewrite (peek_file_utf8 U content path h lines Hnull Hh Hlines), Hheader.
  apply peek_guess_plain; assumption.
Qed.

(** X6. The same with every name between two qualifier characters: when
    the header is two or more quoted names with the delimiter between
    them, both marks being neither word characters nor spaces,
    [peek_file] proposes the delimiter and the qualifier. *)
Theorem sniff_quoted_header (U : UnicodeData) (content : bytes) (path h : str)
  (lines words : list str) (d q : char) :
  byte_in 0%N (first_line (byte_lines content)) = false ->
  decode (first_line (byte_lines content)) utf8 = Returned h ->
  TextDataDoctor.decode_lines (later_lines (byte_lines content)) utf8 = Returned lines ->
  rstrip h [CR; LF] = q :: join [q; d; q] words ++ [q] ->
  (2 <= length words)%nat ->
  Forall (fun w => w <> [] /\ forallb Re.is_word w = true) words ->
  Re.word_or_space d = false ->
  Re.word_or_space q = false ->
  d <> q ->
  snd (TextDataDoctor.peek_file (Some content) path)
  = Returned (PeekResult.Build 1 path [] [d] [q] (lit "utf8")).
Proof.
  intros Hnull Hh Hlines Hheader Htwo Hwords Hd Hq Hdq.
  rewrite (peek_file_utf8 U content path h lines Hnull Hh Hlines), Hheader.
  apply peek_guess_quoted; assumption.
Qed.

Lemma sniff_plain_header_witness :
  snd (@TextDataDoctor.peek_file Cases.ascii_only (Some MoreCases.plain_header)
         (lit "/data/f.csv"))
  = Returned (PeekResult.Build 1 (lit "/data/f.csv") [] (lit ",") [] (lit "utf8")).
Proof.
  apply (sniff_plain_header Cases.ascii_only MoreCases.plain_header (lit "/data/f.csv")
           (lit "a,b" ++ [LF]) [] [lit "a"; lit "b"] 44%N).
  - reflexivity.
  - reflexivity.
  - reflexivity.
  - reflexivity.
  - cbn. lia.
  - repeat constructor; discriminate.
  - reflexivity.
Defined.

Lemma sniff_quoted_header_witness :
  snd (@TextDataDoctor.peek_file Cases.ascii_only (Some MoreCases.quoted_header)
         (lit "/data/f.csv"))
  = Returned MoreCases.quoted_header_sniffed.
Proof.
  apply (sniff_quoted_header Cases.ascii_only MoreCases.quoted_header (lit "/data/f.csv")
           (Cases.dq "'a','b'" ++ [LF]) [] [lit "a"; lit "b"] 44%N 34%N).
  - reflexivity.
  - reflexivity.
  - reflexivity.
  - reflexivity.
  - cbn. lia.
  - repeat constructor; discriminate.
  - reflexivity.
  - reflexivity.
  - discriminate.
Defined.

(** ** Reassembly of the records *)

Section Reassembly.

Context {U : UnicodeData}.

Variable self : TextDataDoctor.t.

Import TextDataDoctor.

(** What a line does to the list of overflow lines. *)
Lemma read_line_overflow (st st' : reader) (i : Z) (line : str) :
  read_line self st i line = Returned st' ->
  overflow st' = overflow st \/ overflow st' = overflow st ++ [i + 2].
Proof.
  unfold read_line. destruct (record_start_regex self _).
  { intros H. injection H as <-. destruct (truthy (record st)); left; reflexivity. }
  destruct (negb (truthy _)).
  { intros H. injection H as <-. right. reflexivity. }
  destruct (if truthy (qualifier self) then _ else _) as [check_exp|e]; [|discriminate].
  cbn [bind]. destruct check_exp; [|destruct (Re.list_marker _); [|destruct (negb _)]];
    intros H; injection H as <-; cbn; tauto.
Qed.

Lemma read_lines_overflow (lines : list str) (i : Z) (st : reader) :
  exists extra,
    snd (read_lines self lines i st) = overflow st ++ extra
    /\ Forall (fun k => i + 2 <= k <= i + len lines + 1) extra
    /\ StronglySorted Z.lt extra.
Proof.
  revert i st. induction lines as [|line lines IH]; intros i st.
  - exists []. cbn. rewrite app_nil_r. repeat constructor.
  - cbn [read_lines]. destruct (read_line self st i line) as [st'|e] eqn:R.
    + destruct (IH (i + 1) st') as [extra [Hsnd [Hrange Hsorted]]].
      assert (Hlen : len (line :: lines) = len lines + 1)
        by (unfold len; cbn [length]; lia).
      assert (Hrange' : Forall (fun k => i + 2 <= k <= i + len (line :: lines) + 1) extra).
      { eapply Forall_impl; [|exact Hrange]. cbn beta. intros k Hk. lia. }
      destruct (read_line_overflow st st' i line R) as [Ho|Ho].
      * exists extra. rewrite Hsnd, Ho. split; [reflexivity|]. split; assumption.
      * exists ((i + 2) :: extra). rewrite Hsnd, Ho, <- app_assoc.
        split; [reflexivity|]. split.
        -- constructor; [pose proof (len_nonneg lines); lia|exact Hrange'].
        -- constructor; [exact Hsorted|].
           eapply Forall_impl; [|exact Hrange]. cbn beta. intros k Hk. lia.
    + exists []. cbn [snd]. rewrite app_nil_r. repeat constructor.
Qed.

(** X7. The overflow lines [get_records] leaves are line numbers of the
    body, counted from 1 with the header as line 1: they are strictly
    increasing, none is below 2 and none is above the number of lines
    of the file. *)
Theorem overflow_lines_are_body_lines :
  let body := later_lines (text_lines (text self)) in
  StronglySorted Z.lt (snd (get_records self))
  /\ Forall (fun k => 2 <= k <= len body + 1) (snd (get_records self)).
Proof.
  intros body. unfold get_records. fold body.
  destruct (read_lines_overflow body 0 (Reader [] [] [])) as [extra [Hsnd [Hr Hs]]].
  rewrite Hsnd. cbn [overflow app]. split; [exact Hs|].
  eapply Forall_impl; [|exact Hr]. intros k Hk. cbn beta in Hk |- *.
  rewrite !Z.add_0_l in Hk. exact Hk.
Qed.

(** Without a qualifier a line never raises. *)
Lemma read_line_without_qualifier (st : reader) (i : Z) (line : str) :
  qualifier self = [] -> exists st', read_line self st i line = Returned st'.
Proof.
  intros Hq. unfold read_line. rewrite Hq. cbn [truthy bind].
  repeat match goal with
         | |- context [if ?c then _ else _] => destruct c
         end; eexists; reflexivity.
Qed.

(** With a record in the buffer and a pattern that does not match the
    empty line, a line never raises and leaves a record in the buffer. *)
Lemma read_line_with_record (st : reader) (i : Z) (line : str) :
  record_start_regex self [] = false -> record st <> [] ->
  exists st', read_line self st i line = Returned st' /\ record st' <> [].
Proof.
  intros Hempty Hrec. unfold read_line.
  destruct (record_start_regex self (rstrip line [CR; LF])) eqn:M.
  { destruct (rstrip line [CR; LF]) as [|c l] eqn:L; [congruence|].
    destruct (record st); [congruence|]. cbn [truthy]. eexists. split; [reflexivity|].
    cbn. discriminate. }
  assert (Hfold : forall l, record (fold_line st i l) <> []).
  { intros l. cbn. destruct (record st); [congruence|discriminate]. }
  destruct (rstrip line [CR; LF]) as [|c l] eqn:L.
  { cbn [truthy negb]. eexists. split; [reflexivity|apply Hfold]. }
  cbn [truthy negb].
  assert (Hlast : exists last, char_at (record st) (-1) = Returned last).
  { destruct (exists_last Hrec) as [front [x ->]]. unfold char_at.
    rewrite getitem_last. eexists. reflexivity. }
  destruct Hlast as [last Hlast]. rewrite Hlast.
  destruct (truthy (qualifier self)); cbn [bind];
    repeat match goal with
           | |- context [if ?c then _ else _] => destruct c
           end;
    eexists; (split; [reflexivity|]); try apply Hfold; cbn; discriminate.
Qed.

Lemma read_lines_without_qualifier (lines : list str) (i : Z) (st : reader) :
  qualifier self = [] ->
  ended (fst (read_lines self lines i st)) = None
  /\ yielded (fst (read_lines self lines i st)) <> [].
Proof.
  intros Hq. revert i st. induction lines as [|line lines IH]; intros i st.
  - cbn. split; [reflexivity|]. destruct (passed st); discriminate.
  - cbn [read_lines].
    destruct (read_line_without_qualifier st i line Hq) as [st' ->]. apply IH.
Qed.

Lemma read_lines_with_record (lines : list str) (i : Z) (st : reader) :
  record_start_regex self [] = false -> record st <> [] ->
  ended (fst (read_lines self lines i st)) = None.
Proof.
  intros Hempty. revert i st. induction lines as [|line lines IH]; intros i st Hrec.
  - reflexivity.
  - cbn [read_lines].
    destruct (read_line_with_record st i line Hempty Hrec) as [st' [-> Hrec']].
    apply IH. exact Hrec'.
Qed.

(** X8. For a file whose bytes decode under the encoding of the doctor,
    [get_records] raises nothing when the first line of the body
    matches the record-start pattern and the pattern does not match the
    empty line: the buffer is never empty when its last character is
    read.  (A file with bytes that the encoding cannot read raises
    [UnicodeDecodeError] when it is read.) *)
Theorem get_records_safe_after_a_start (content : bytes) (first : str) (rest : list str) :
  decode content (encoding self) = Returned (text self) ->
  later_lines (text_lines (text self)) = first :: rest ->
  record_start_regex self (rstrip first [CR; LF]) = true ->
  record_start_regex self [] = false ->
  ended (fst (get_records self)) = None.
Proof.
  intros _ Hbody Hfirst Hempty. unfold get_records. rewrite Hbody.
  cbn [read_lines]. unfold read_line. rewrite Hfirst. cbn [record truthy].
  apply read_lines_with_record; [exact Hempty|]. cbn [record].
  intros H. rewrite H in Hfirst. congruence.
Qed.

(** Lines that all start a record. *)
Lemma read_lines_all_starts (lines : list str) (i : Z) (st : reader) :
  record_start_regex self [] = false -> record st <> [] ->
  Forall (fun l => record_start_regex self (rstrip l [CR; LF]) = true) lines ->
  read_lines self lines i st
  = (Generated (passed st ++ record st :: map (fun l => rstrip l [CR; LF]) lines) None,
     overflow st).
Proof.
  intros Hempty. revert i st. induction lines as [|line lines IH]; intros i st Hrec Hall.
  - reflexivity.
  - inversion Hall as [|l ls Hline Hrest]; subst. cbn [read_lines]. unfold read_line.
    rewrite Hline. destruct (record st) as [|c r] eqn:R; [congruence|]. cbn [truthy].
    rewrite IH; [|cbn; intros H; rewrite H in Hline; congruence|exact Hrest].
    unfold pass_record. cbn [passed record overflow map]. rewrite R, <- app_assoc.
    reflexivity.
Qed.

(** X9. When every line of a body that is not empty matches the
    record-start pattern, and the pattern does not match the empty
    line, [get_records] yields the lines of the body, one record each
    with its line end removed, and no overflow line. *)
Theorem well_formed_body_is_its_lines :
  let body := later_lines (text_lines (text self)) in
  body <> [] ->
  record_start_regex self [] = false ->
  Forall (fun l => record_start_regex self (rstrip l [CR; LF]) = true) body ->
  get_records self
  = (Generated (map (fun l => rstrip l [CR; LF]) body) None, []).
Proof.
  intros body Hsome Hempty Hall. unfold get_records. fold body.
  destruct body as [|first rest]; [congruence|].
  inversion Hall as [|l ls Hfirst Hrest]; subst.
  cbn [read_lines]. unfold read_line. rewrite Hfirst. cbn [record truthy].
  rewrite read_lines_all_starts;
    [reflexivity|exact Hempty|cbn; intros H; rewrite H in Hfirst; congruence|exact Hrest].
Qed.

End Reassembly.

Lemma get_records_safe_after_a_start_witness :
  ended (fst (@TextDataDoctor.get_records Cases.ascii_only MoreCases.plain_file_quote))
  = None.
Proof.
  apply (@get_records_safe_after_a_start Cases.ascii_only MoreCases.plain_file_quote
           MoreCases.plain_file_bytes (lit "1,Ann" ++ [LF]) [lit "2,Bob" ++ [LF]]);
    reflexivity.
Defined.

Lemma well_formed_body_is_its_lines_witness :
  @TextDataDoctor.get_records Cases.ascii_only MoreCases.plain_file_quote
  = (Generated [lit "1,Ann"; lit "2,Bob"] None, []).
Proof.
  apply (@well_formed_body_is_its_lines Cases.ascii_only MoreCases.plain_file_quote).
  - vm_compute. discriminate.
  - reflexivity.
  - vm_compute. repeat constructor.
Defined.

Section Conservation.

Context {U : UnicodeData}.

Variable self : TextDataDoctor.t.

Import TextDataDoctor.

(** The text of some records without the marks of continuation. *)
Let plain (records : list str) : str :=
  filter (fun c => negb (c =? CR)%N) (concat records).

Lemma plain_app (xs ys : list str) : plain (xs ++ ys) = plain xs ++ plain ys.
Proof. unfold plain. rewrite concat_app, filter_app. reflexivity. Qed.

Lemma plain_cons (r : str) (rs : list str) : plain (r :: rs) = plain [r] ++ plain rs.
Proof. apply (plain_app [r] rs). Qed.

Lemma plain_one (r : str) : plain [r] = filter (fun c => negb (c =? CR)%N) r.
Proof. unfold plain. cbn [concat]. rewrite app_nil_r. reflexivity. Qed.

Lemma read_line_plain (st st' : reader) (i : Z) (line : str) :
  read_line self st i line = Returned st' ->
  plain (passed st' ++ [record st'])
  = plain (passed st ++ [record st]) ++ plain [rstrip line [CR; LF]].
Proof.
  assert (Hfold : forall l,
            plain (passed (fold_line st i l) ++ [record (fold_line st i l)])
            = plain (passed st ++ [record st]) ++ plain [l]).
  { intros l. cbn [fold_line passed record]. rewrite !plain_app, !plain_one.
    rewrite !filter_app. cbn [filter]. rewrite N.eqb_refl. cbn [negb app].
    rewrite app_assoc. reflexivity. }
  assert (Hpass : forall l,
            plain (passed (pass_record st l) ++ [record (pass_record st l)])
            = plain (passed st ++ [record st]) ++ plain [l]).
  { intros l. cbn [pass_record passed record]. rewrite !plain_app. reflexivity. }
  unfold read_line. destruct (record_start_regex self _).
  { intros H. injection H as <-. destruct (record st) as [|c r] eqn:R.
    - cbn [truthy passed record]. rewrite !plain_app, !plain_one. cbn [filter].
      rewrite app_nil_r. reflexivity.
    - cbn [truthy]. rewrite Hpass. reflexivity. }
  destruct (negb (truthy _)).
  { intros H. injection H as <-. apply Hfold. }
  destruct (if truthy (qualifier self) then _ else _) as [check_exp|e]; [|discriminate].
  cbn [bind]. destruct check_exp; [|destruct (Re.list_marker _); [|destruct (negb _)]];
    intros H; injection H as <-; apply Hfold || apply Hpass.
Qed.

Lemma read_lines_plain (lines : list str) (i : Z) (st : reader) :
  ended (fst (read_lines self lines i st)) = None ->
  plain (yielded (fst (read_lines self lines i st)))
  = plain (passed st ++ [record st])
    ++ plain (map (fun l => rstrip l [CR; LF]) lines).
Proof.
  revert i st. induction lines as [|line lines IH]; intros i st.
  - intros _. cbn. rewrite app_nil_r. reflexivity.
  - cbn [read_lines]. destruct (read_line self st i line) as [st'|e] eqn:R.
    + intros Hend. rewrite (IH _ _ Hend), (read_line_plain st st' i line R).
      cbn [map].
      rewrite (plain_cons (rstrip line [CR; LF])
                 (map (fun l => rstrip l [CR; LF]) lines)), app_assoc.
      reflexivity.
    + discriminate.
Qed.

(** X10. When [get_records] raises nothing, the records it yields hold
    the lines of the body, in order and whole: without the carriage
    returns that mark a continuation, the records put end to end are
    the lines put end to end, line ends removed. *)
Theorem reassembly_keeps_the_text :
  ended (fst (get_records self)) = None ->
  filter (fun c => negb (c =? CR)%N) (concat (yielded (fst (get_records self))))
  = filter (fun c => negb (c =? CR)%N)
      (concat (map (fun l => rstrip l [CR; LF])
                   (later_lines (text_lines (text self))))).
Proof.
  intros Hend. unfold get_records in *.
  pose proof (read_lines_plain _ 0 (Reader [] [] []) Hend) as H.
  unfold plain in H. rewrite H. reflexivity.
Qed.

End Conservation.

Lemma reassembly_keeps_the_text_witness :
  filter (fun c => negb (c =? CR)%N)
    (concat (yielded (fst (@TextDataDoctor.get_records Cases.ascii_only
                             MoreCases.plain_file_quote))))
  = lit "1,Ann2,Bob".
Proof.
  rewrite (@reassembly_keeps_the_text Cases.ascii_only MoreCases.plain_file_quote);
    reflexivity.
Defined.

(** ** The pass over the records *)

Section Pass.

Variable self : TextDataDoctor.t.

Import TextDataDoctor Analysis.

(** The record as [analyze_file] keeps it: without its final delimiter
    when the qualifier is in it and every value is taken as
    qualified. *)
Let kept (r : str) : str :=
  if qualifier_in self r
  then if all_qualified self then Re.drop_final (delimiter self) r else r
  else r.






End Pass.


(** ** A file without a qualifier *)

Section NoQualifier.

Context {U : UnicodeData}.

Variable self : TextDataDoctor.t.

Hypothesis no_qualifier : TextDataDoctor.qualifier self = [].

Import TextDataDoctor Analysis.

(** The delimiter count of a record is the count of the header. *)
Let fits (r : str) : bool := count r (delimiter self) =? header_delimiter_count self.

Lemma analyze_record_no_qualifier (st : pass) (r : str) :
  analyze_record self st r
  = Returned
      (if fits r
       then Pass (bad_escapes st) (bad_delimiters st) (too_few_delimiters st)
                 (temp_file st ++ r ++ [LF])
       else Pass (bad_escapes st) (bad_delimiters st ++ [r])
                 (count r (delimiter self) <? header_delimiter_count self)
                 (temp_file st)).
Proof.
  unfold analyze_record, qualifier_in, fits. rewrite no_qualifier.
  cbn [truthy]. rewrite !andb_false_r. cbn [bind].
  destruct (count r (delimiter self) =? header_delimiter_count self);
    cbn [negb bind]; rewrite ?andb_false_r; reflexivity.
Qed.

Lemma analyze_records_no_qualifier (records : list str) (st : pass) :
  exists st',
    analyze_records self st records = Returned st'
    /\ bad_escapes st' = bad_escapes st
    /\ bad_delimiters st'
       = bad_delimiters st ++ filter (fun r => negb (fits r)) records
    /\ temp_file st'
       = temp_file st ++ concat (map (fun r => r ++ [LF]) (filter fits records)).
Proof.
  revert st. induction records as [|r records IH]; intros st.
  - exists st. cbn. rewrite !app_nil_r. repeat split; reflexivity.
  - cbn [analyze_records]. rewrite analyze_record_no_qualifier. cbn [bind filter].
    destruct (fits r).
    + destruct (IH (Pass (bad_escapes st) (bad_delimiters st) (too_few_delimiters st)
                         (temp_file st ++ r ++ [LF]))) as [st' [H [Hb [Hd Ht]]]].
      exists st'. split; [exact H|]. split; [exact Hb|]. split; [exact Hd|].
      rewrite Ht. cbn [temp_file negb map concat]. rewrite <- !app_assoc. reflexivity.
    + destruct (IH (Pass (bad_escapes st) (bad_delimiters st ++ [r])
                         (count r (delimiter self) <? header_delimiter_count self)
                         (temp_file st))) as [st' [H [Hb [Hd Ht]]]].
      exists st'. split; [exact H|]. split; [exact Hb|]. split; [|exact Ht].
      rewrite Hd. cbn [bad_delimiters negb]. rewrite <- app_assoc. reflexivity.
Qed.

(** X12. Without a qualifier, and for a file whose bytes decode under
    the encoding of the doctor, the analysis always returns a result: no
    record is a bad escape; the records with bad delimiters are the
    yielded records whose count of the delimiter is not the count of the
    header, in order; the output is the header and the other records,
    one per line; the code is 1, -3, -4 or -6.  (A file with bytes that
    the encoding cannot read raises [UnicodeDecodeError] when it is
    read.) *)
Theorem analysis_without_qualifier (content : bytes) :
  decode content (encoding self) = Returned (text self) ->
  let records := yielded (fst (get_records self)) in
  exists result,
    analyze_file self = Returned result
    /\ AnalyzeResult.bad_escapes result = []
    /\ AnalyzeResult.bad_delimiters result
       = filter (fun r => negb (count r (delimiter self)
                                =? header_delimiter_count self)) records
    /\ AnalyzeResult.temp_file result
       = header_line self ++ [LF]
         ++ concat (map (fun r => r ++ [LF])
                        (filter (fun r => count r (delimiter self)
                                          =? header_delimiter_count self) records))
    /\ In (AnalyzeResult.code result) [1; -3; -4; -6].
Proof.
  intros _ records. unfold analyze_file, get_records in *.
  pose proof (read_lines_without_qualifier self
                (later_lines (text_lines (text self))) 0 (Reader [] [] [])
                no_qualifier) as [Hend _].
  destruct (read_lines self _ 0 (Reader [] [] [])) as [g overflow_lines].
  cbn [fst] in *. subst records.
  destruct (analyze_records_no_qualifier (yielded g)
              (Pass [] [] false (header_line self ++ [LF])))
    as [st [Hrun [Hbe [Hbd Ht]]]].
  rewrite Hrun. cbn [bind]. rewrite Hend.
  destruct (classify _ _ _ _ _) as [code message] eqn:C.
  eexists. split; [reflexivity|].
  cbn [AnalyzeResult.bad_escapes AnalyzeResult.bad_delimiters AnalyzeResult.temp_file
       AnalyzeResult.code].
  cbn [bad_escapes bad_delimiters temp_file app] in Hbe, Hbd, Ht.
  split; [exact Hbe|]. split; [exact Hbd|]. split.
  - unfold writelines. rewrite Hbe, Ht. cbn [map concat]. rewrite app_nil_r, <- app_assoc.
    reflexivity.
  - assert (Hcode : code = fst (classify (bad_escapes st) (bad_delimiters st)
                                  (qualifier self) (too_few_delimiters st)
                                  overflow_lines)) by (rewrite C; reflexivity).
    rewrite Hcode, Hbe, no_qualifier.
    destruct (bad_delimiters st), (too_few_delimiters st), overflow_lines; cbn; tauto.
Qed.

End NoQualifier.

Lemma analysis_without_qualifier_witness :
  exists result,
    @Analysis.analyze_file Cases.ascii_only MoreCases.plain_file = Returned result
    /\ AnalyzeResult.bad_escapes result = [].
Proof.
  destruct (@analysis_without_qualifier Cases.ascii_only MoreCases.plain_file eq_refl
              MoreCases.plain_file_bytes eq_refl)
    as [result [Hrun [Hbe _]]].
  exists result. split; [exact Hrun|exact Hbe].
Defined.

(** ** A file of a header and nothing else *)

Lemma qualifier_in_empty (self : TextDataDoctor.t) : Analysis.qualifier_in self [] = false.
Proof.
  unfold Analysis.qualifier_in. destruct (TextDataDoctor.qualifier self); reflexivity.
Qed.

(** X13. A file that holds its header and no other line: [get_records]
    yields one empty record; when the header has a delimiter, the
    analysis reports that record among the bad delimiters, as one with
    too few, and ends with code -4. *)
Theorem header_only_file (U : UnicodeData) (self : TextDataDoctor.t) :
  later_lines (text_lines (TextDataDoctor.text self)) = [] ->
  TextDataDoctor.delimiter self <> [] ->
  0 < TextDataDoctor.header_delimiter_count self ->
  TextDataDoctor.get_records self = (Generated [[]] None, [])
  /\ exists result,
       Analysis.analyze_file self = Returned result
       /\ AnalyzeResult.code result = -4
       /\ AnalyzeResult.bad_delimiters result = [[]]
       /\ AnalyzeResult.bad_escapes result = []
       /\ AnalyzeResult.temp_file result = TextDataDoctor.header_line self ++ [LF].
Proof.
  intros Hbody Hd Hcount.
  assert (Hrec : TextDataDoctor.get_records self = (Generated [[]] None, []))
    by (unfold TextDataDoctor.get_records; rewrite Hbody; reflexivity).
  split; [exact Hrec|].
  unfold Analysis.analyze_file. rewrite Hrec.
  cbn [yielded ended Analysis.analyze_records]. unfold Analysis.analyze_record.
  rewrite qualifier_in_empty. cbn [bind].
  destruct (TextDataDoctor.delimiter self) as [|c d] eqn:D; [congruence|].
  cbn [count count_from].
  destruct (0 =? TextDataDoctor.header_delimiter_count self) eqn:E;
    [apply Z.eqb_eq in E; lia|].
  cbn [negb bind]. rewrite qualifier_in_empty. cbn [bind negb].
  assert (Hfew : (0 <? TextDataDoctor.header_delimiter_count self) = true)
    by (apply Z.ltb_lt; exact Hcount).
  rewrite Hfew. cbn [Analysis.bad_escapes Analysis.bad_delimiters
                     Analysis.too_few_delimiters Analysis.temp_file app].
  cbn [bind ended].
  destruct (Analysis.classify _ _ _ _ _) as [code message] eqn:C.
  eexists. split; [reflexivity|].
  cbn [AnalyzeResult.code AnalyzeResult.bad_delimiters AnalyzeResult.bad_escapes
       AnalyzeResult.temp_file].
  split; [|split; [reflexivity|split; [reflexivity|]]].
  - change code with (fst (code, message)). rewrite <- C.
    destruct (TextDataDoctor.qualifier self); reflexivity.
  - unfold Analysis.writelines. cbn [map concat]. rewrite app_nil_r. reflexivity.
Qed.

Lemma header_only_file_witness :
  exists result,
    @Analysis.analyze_file Cases.ascii_only MoreCases.header_only = Returned result
    /\ AnalyzeResult.code result = -4.
Proof.
  destruct (header_only_file Cases.ascii_only MoreCases.header_only) as [_ H].
  - reflexivity.
  - discriminate.
  - reflexivity.
  - destruct H as [result [Hrun [Hcode _]]]. exists result. split; assumption.
Defined.

(** ** Splitting and joining *)

Lemma split_from_some (sep s : str) (skip : nat) (cur : str) :
  split_from sep s skip cur <> [].
Proof.
  revert skip cur. induction s as [|c s IH]; intros skip cur; cbn [split_from].
  - discriminate.
  - destruct skip; [destruct (startswith (c :: s) sep)|]; try discriminate; apply IH.
Qed.

Lemma startswith_split (s sep : str) :
  startswith s sep = true -> s = sep ++ skipn (length sep) s.
Proof.
  revert s. induction sep as [|x sep IH]; intros s.
  - reflexivity.
  - destruct s as [|c s]; [discriminate|]. cbn [startswith]. intros H.
    apply andb_prop in H as [Hx Hs]. apply N.eqb_eq in Hx. subst c.
    cbn [length skipn app]. f_equal. apply IH. exact Hs.
Qed.

Lemma join_cons (sep p : str) (ps : list str) :
  ps <> [] -> join sep (p :: ps) = p ++ sep ++ join sep ps.
Proof. destruct ps; [congruence|reflexivity]. Qed.

(** The pieces of a split, joined by the separator, are the string. *)
Lemma join_split_from (sep s : str) (skip : nat) (cur : str) :
  sep <> [] ->
  join sep (split_from sep s skip cur) = rev cur ++ skipn skip s.
Proof.
  intros Hsep. revert skip cur. induction s as [|c s IH]; intros skip cur.
  - cbn [split_from join]. rewrite skipn_nil, app_nil_r. reflexivity.
  - cbn [split_from]. destruct skip as [|k].
    + destruct (startswith (c :: s) sep) eqn:S.
      * rewrite join_cons by apply split_from_some. rewrite IH. cbn [rev app skipn].
        apply startswith_split in S. f_equal.
        destruct sep as [|x sep']; [congruence|].
        rewrite S at 1. cbn [length Nat.sub skipn app]. rewrite Nat.sub_0_r.
        reflexivity.
      * rewrite IH. cbn [rev skipn]. rewrite <- app_assoc. reflexivity.
    + rewrite IH. reflexivity.
Qed.

Lemma split_from_count (sep s : str) (skip : nat) (cur : str) :
  len (split_from sep s skip cur) = count_from sep s skip + 1.
Proof.
  revert skip cur. induction s as [|c s IH]; intros skip cur; cbn [split_from count_from].
  - reflexivity.
  - destruct skip as [|k]; [destruct (startswith (c :: s) sep)|].
    + unfold len in *. cbn [length]. rewrite Nat2Z.inj_succ, IH. lia.
    + apply IH.
    + apply IH.
Qed.

(** X14. The rows of the table of bad delimiters give the records back:
    a record split at the delimiter, as [ResultWindowViewModel] makes a
    row of it, and joined by the delimiter, as [get_new_row] joins
    cells, is the record. *)
Theorem row_joins_to_record (delimiter record : str) (cells : list str) :
  split record delimiter = Returned cells ->
  join delimiter cells = record.
Proof.
  unfold split. destruct delimiter as [|c d]; [discriminate|].
  intros H. injection H as <-. rewrite join_split_from by discriminate.
  reflexivity.
Qed.

Lemma row_joins_to_record_witness :
  join (lit ",") [lit "2"; lit "Bob"; lit "hi there"; lit " friend"]
  = lit "2,Bob,hi there, friend".
Proof.
  apply (row_joins_to_record (lit ",") (lit "2,Bob,hi there, friend")). reflexivity.
Defined.

(** X15. In the mode in which every value is taken as qualified, the
    delimiter count that [analyze_file] computes again for a record is
    the number of occurrences, counted from the left without overlap,
    of the qualifier, the delimiter and the qualifier in a row. *)
Theorem recount_counts_the_pattern (self : TextDataDoctor.t) (record : str)
  (delimiter_count : Z) :
  TextDataDoctor.all_qualified self = true ->
  TextDataDoctor.qualifier self <> [] ->
  Analysis.recount self record delimiter_count
  = Returned (count record (TextDataDoctor.all_qualified_pattern self)).
Proof.
  intros Hall Hq. unfold Analysis.recount. rewrite Hall.
  unfold TextDataDoctor.all_qualified_pattern.
  destruct (TextDataDoctor.qualifier self) as [|c q]; [congruence|].
  cbn [app split count bind]. rewrite split_from_count. f_equal. lia.
Qed.

Lemma recount_counts_the_pattern_witness :
  Analysis.recount Cases.comma_quote (Cases.dq "'1','a,b','c'") 3 = Returned 2.
Proof.
  rewrite (recount_counts_the_pattern Cases.comma_quote (Cases.dq "'1','a,b','c'") 3).
  - reflexivity.
  - reflexivity.
  - discriminate.
Defined.

(** ** Merging cells *)

Lemma join_app (sep : str) (a b : list str) :
  a <> [] -> b <> [] -> join sep (a ++ b) = join sep a ++ sep ++ join sep b.
Proof.
  intros Ha Hb. induction a as [|p a IH]; [congruence|].
  destruct a as [|p' a'].
  - cbn [app]. apply join_cons. exact Hb.
  - change ((p :: p' :: a') ++ b) with (p :: (p' :: a') ++ b).
    rewrite join_cons by discriminate. rewrite IH by discriminate.
    rewrite (join_cons sep p (p' :: a')) by discriminate.
    rewrite <- !app_assoc. reflexivity.
Qed.

(** Cells joined into one cell leave the joined row as it was. *)
Lemma join_merged (sep : str) (pre mid post : list str) :
  mid <> [] ->
  join sep (pre ++ [join sep mid] ++ post) = join sep (pre ++ mid ++ post).
Proof.
  intros Hmid. destruct pre as [|p pre]; destruct post as [|t post].
  - cbn [app]. rewrite app_nil_r. reflexivity.
  - cbn [app]. rewrite join_cons by discriminate.
    rewrite join_app by (assumption || discriminate). reflexivity.
  - rewrite !app_nil_r. rewrite !join_app by (assumption || discriminate). reflexivity.
  - rewrite (join_app sep (p :: pre)) by discriminate.
    rewrite (join_app sep (p :: pre) (mid ++ t :: post))
      by (discriminate || (destruct mid; [congruence|discriminate])).
    cbn [app]. rewrite (join_cons sep (join sep mid) (t :: post)) by discriminate.
    rewrite (join_app sep mid) by (assumption || discriminate). reflexivity.
Qed.

Lemma slice_to {A} (s : list A) (hi : Z) :
  0 <= hi <= len s -> slice s None (Some hi) = firstn (Z.to_nat hi) s.
Proof.
  intros H. unfold slice. rewrite clamp_inside by lia. rewrite Z.sub_0_r. reflexivity.
Qed.

(** X16. [get_new_row] on a row of the table, for a range of cells that
    is inside the row: the new row has as many cells fewer as the range
    is long, less one, and joined by the delimiter it is the old row
    joined by the delimiter. *)
Theorem merged_row_is_the_same_text (self : BadDelimitersTableModel.t)
  (row start end_ : Z) (old_row : list str) :
  BadDelimitersTableModel.get_row self row = Returned old_row ->
  0 <= start <= end_ -> end_ < len old_row ->
  exists new_row,
    BadDelimitersTableModel.get_new_row self row start end_ = Returned new_row
    /\ join (BadDelimitersTableModel.delimiter self) new_row
       = join (BadDelimitersTableModel.delimiter self) old_row
    /\ len new_row = len old_row - (end_ - start).
Proof.
  intros Hrow Hrange Hend. unfold BadDelimitersTableModel.get_new_row.
  rewrite Hrow. cbn [bind]. eexists. split; [reflexivity|].
  rewrite slice_to, slice_between, slice_from by lia.
  set (pre := firstn (Z.to_nat start) old_row).
  set (mid := firstn (Z.to_nat (end_ + 1 - start)) (skipn (Z.to_nat start) old_row)).
  set (post := skipn (Z.to_nat (end_ + 1)) old_row).
  assert (Hold : old_row = pre ++ mid ++ post).
  { unfold pre, mid, post.
    rewrite <- (firstn_skipn (Z.to_nat start) old_row) at 1. f_equal.
    rewrite <- (firstn_skipn (Z.to_nat (end_ + 1 - start))
                  (skipn (Z.to_nat start) old_row)) at 1.
    f_equal. rewrite skipn_skipn. f_equal. lia. }
  assert (Hpre : length pre = Z.to_nat start)
    by (unfold pre; rewrite length_firstn; unfold len in *; lia).
  assert (Hmid : length mid = Z.to_nat (end_ + 1 - start))
    by (unfold mid; rewrite length_firstn, length_skipn; unfold len in *; lia).
  assert (Hpost : length post = (length old_row - Z.to_nat (end_ + 1))%nat)
    by (unfold post; apply length_skipn).
  split.
  - transitivity (join (BadDelimitersTableModel.delimiter self) (pre ++ mid ++ post));
      [|rewrite <- Hold; reflexivity].
    apply join_merged. intros H. rewrite H in Hmid. cbn in Hmid. lia.
  - unfold len in *. rewrite !length_app, Hpre, Hpost. cbn [length]. lia.
Qed.

Lemma merged_row_is_the_same_text_witness :
  exists new_row,
    BadDelimitersTableModel.get_new_row Cases.one_row 10 0 1 = Returned new_row
    /\ join (lit ",") new_row = lit "a,b,c".
Proof.
  destruct (merged_row_is_the_same_text Cases.one_row 10 0 1
              [lit "a"; lit "b"; lit "c"] eq_refl)
    as [new_row [Hrun [Hjoin _]]].
  - lia.
  - reflexivity.
  - exists new_row. split; [exact Hrun|exact Hjoin].
Defined.

(** ** The log of edits *)

Section EditLog.

Import BadDelimitersTableModel.

(** What a merge does to the log. *)
Lemma merge_cells_log (self : t) (row start end_ : Z) :
  -1 <= current_change self < len (table_changes self) ->
  let r := merge_cells self row start end_ in
  model r = self
  \/ (raised r = None
      /\ current_change (model r) = current_change self + 1
      /\ len (table_changes (model r)) = current_change self + 2).
Proof.
  intros Hcursor. unfold merge_cells.
  destruct (getitem (bad_delimiters self) (row - 10)) as [cells|e]; [|left; reflexivity].
  destruct (end_ <? len cells); [|left; reflexivity].
  destruct (get_new_row self row start end_) as [new_row|e]; [|left; reflexivity].
  destruct (get_row self row) as [old_row|e]; [|left; reflexivity].
  destruct (setitem (bad_delimiters self) (row - 10) new_row) as [rows|e];
    [|left; reflexivity].
  right. cbn [model raised with_cursor with_changes with_rows current_change
              table_changes]. split; [reflexivity|]. split; [reflexivity|].
  unfold len in *. rewrite length_app, length_rev. cbn [length].
  pose proof (drop_later_keeps (rev (table_changes self)) (current_change self)) as H.
  unfold len in H. rewrite length_rev in H. specialize (H Hcursor). lia.
Qed.

End EditLog.

(** X17. The three edits keep the cursor on an entry of the log or just
    before the first, whether they return or raise. *)
Theorem edits_keep_the_cursor_in_the_log (self : BadDelimitersTableModel.t)
  (row start end_ : Z) :
  -1 <= BadDelimitersTableModel.current_change self
     < len (BadDelimitersTableModel.table_changes self) ->
  let inside m :=
    -1 <= BadDelimitersTableModel.current_change m
       < len (BadDelimitersTableModel.table_changes m) in
  inside (BadDelimitersTableModel.model
            (BadDelimitersTableModel.merge_cells self row start end_))
  /\ inside (BadDelimitersTableModel.model (BadDelimitersTableModel.undo_change self))
  /\ inside (BadDelimitersTableModel.model (BadDelimitersTableModel.redo_change self)).
Proof.
  intros Hcursor inside. unfold inside. split; [|split].
  - destruct (merge_cells_log self row start end_ Hcursor) as [->|[_ [Hc Hl]]];
      [exact Hcursor|]. rewrite Hc, Hl. lia.
  - unfold BadDelimitersTableModel.undo_change.
    destruct (negb _ || (_ =? -1)) eqn:E; [exact Hcursor|].
    apply orb_false_iff in E as [_ E]. apply Z.eqb_neq in E.
    destruct (getitem _ _) as [change|e]; [|exact Hcursor].
    destruct (setitem _ _ _) as [rows|e]; [|exact Hcursor].
    cbn. lia.
  - unfold BadDelimitersTableModel.redo_change.
    destruct (_ + 1 =? len _) eqn:E; [exact Hcursor|]. apply Z.eqb_neq in E.
    cbn [BadDelimitersTableModel.with_cursor BadDelimitersTableModel.table_changes
         BadDelimitersTableModel.current_change BadDelimitersTableModel.bad_delimiters].
    destruct (getitem _ _) as [change|e]; [|cbn; lia].
    destruct (BadDelimitersTableModel.get_new_row _ _ _ _) as [new_row|e]; [|cbn; lia].
    destruct (setitem _ _ _) as [rows|e]; cbn; lia.
Qed.

Lemma edits_keep_the_cursor_in_the_log_witness :
  -1 <= BadDelimitersTableModel.current_change
          (BadDelimitersTableModel.model
             (BadDelimitersTableModel.merge_cells
                (BadDelimitersTableModel.model
                   (BadDelimitersTableModel.merge_cells Cases.one_row 10 0 1))
                10 0 1))
     < 2.
Proof.
  pose proof (edits_keep_the_cursor_in_the_log
                (BadDelimitersTableModel.model
                   (BadDelimitersTableModel.merge_cells Cases.one_row 10 0 1))
                10 0 1) as H.
  cbn beta zeta in H. destruct H as [H _]; [vm_compute; split; [discriminate|reflexivity]|].
  vm_compute in H |- *. exact H.
Defined.

(** X18. A merge that is recorded discards the edits that had been
    undone: after it the cursor is on the last entry of the log, and
    [redo_change] leaves the table as it is. *)
Theorem merge_leaves_nothing_to_redo (self : BadDelimitersTableModel.t)
  (row start end_ : Z) :
  -1 <= BadDelimitersTableModel.current_change self
     < len (BadDelimitersTableModel.table_changes self) ->
  let merged :=
    BadDelimitersTableModel.model
      (BadDelimitersTableModel.merge_cells self row start end_) in
  merged <> self ->
  BadDelimitersTableModel.current_change merged + 1
  = len (BadDelimitersTableModel.table_changes merged)
  /\ BadDelimitersTableModel.redo_change merged
     = BadDelimitersTableModel.Ran merged None.
Proof.
  intros Hcursor merged Hdiff.
  destruct (merge_cells_log self row start end_ Hcursor) as [H|[_ [Hc Hl]]];
    [contradiction|].
  fold merged in Hc, Hl.
  assert (Hend : BadDelimitersTableModel.current_change merged + 1
                 = len (BadDelimitersTableModel.table_changes merged)) by lia.
  split; [exact Hend|]. unfold BadDelimitersTableModel.redo_change.
  rewrite Hend, Z.eqb_refl. reflexivity.
Qed.

Lemma merge_leaves_nothing_to_redo_witness :
  BadDelimitersTableModel.redo_change
    (BadDelimitersTableModel.model (BadDelimitersTableModel.merge_cells Cases.one_row 10 0 1))
  = BadDelimitersTableModel.Ran
      (BadDelimitersTableModel.model
         (BadDelimitersTableModel.merge_cells Cases.one_row 10 0 1)) None.
Proof.
  apply (merge_leaves_nothing_to_redo Cases.one_row 10 0 1).
  - vm_compute. split; [discriminate|reflexivity].
  - vm_compute. discriminate.
Defined.

(** X20. Undo after a merge that was recorded puts back the rows and
    the cursor the merge found, and raises nothing. *)
Theorem undo_takes_a_merge_back (self : BadDelimitersTableModel.t) (row start end_ : Z) :
  -1 <= BadDelimitersTableModel.current_change self
     < len (BadDelimitersTableModel.table_changes self) ->
  let merged :=
    BadDelimitersTableModel.model
      (BadDelimitersTableModel.merge_cells self row start end_) in
  merged <> self ->
  exists undone,
    BadDelimitersTableModel.undo_change merged = BadDelimitersTableModel.Ran undone None
    /\ BadDelimitersTableModel.bad_delimiters undone
       = BadDelimitersTableModel.bad_delimiters self
    /\ BadDelimitersTableModel.current_change undone
       = BadDelimitersTableModel.current_change self.
Proof.
  intros Hcursor merged Hdiff.
  destruct (merge_cells_log self row start end_ Hcursor) as [H|[Hnone [Hc _]]];
    [contradiction|].
  apply (undo_after_merge self merged row start end_ Hcursor); [|exact Hc].
  unfold merged.
  destruct (BadDelimitersTableModel.merge_cells self row start end_) as [m r].
  cbn in Hnone |- *. rewrite Hnone. reflexivity.
Qed.

Lemma undo_takes_a_merge_back_witness :
  exists undone,
    BadDelimitersTableModel.undo_change
      (BadDelimitersTableModel.model
         (BadDelimitersTableModel.merge_cells Cases.one_row 10 0 1))
    = BadDelimitersTableModel.Ran undone None
    /\ BadDelimitersTableModel.bad_delimiters undone
       = BadDelimitersTableModel.bad_delimiters Cases.one_row
    /\ BadDelimitersTableModel.current_change undone
       = BadDelimitersTableModel.current_change Cases.one_row.
Proof.
  apply (undo_takes_a_merge_back Cases.one_row 10 0 1).
  - vm_compute. split; [discriminate|reflexivity].
  - vm_compute. discriminate.
Defined.

(** ** The headers of the table *)

Lemma fold_left_max_bounds (l : list Z) (x : Z) :
  x <= fold_left Z.max l x /\ Forall (fun y => y <= fold_left Z.max l x) l.
Proof.
  revert x. induction l as [|y l IH]; intros x; cbn [fold_left].
  - split; [lia|constructor].
  - destruct (IH (Z.max x y)) as [H1 H2]. split; [lia|].
    constructor; [lia|exact H2].
Qed.

(** X19. The headers [BadDelimitersTableModel.__init__] builds start
    with the columns of the file and are as many as the longest bad
    record has cells, or as the columns when there are more of those:
    every cell of every row has a header.  With no bad record the
    constructor raises [ValueError]. *)
Theorem headers_cover_every_row (columns : list str) (bad_delimiters : list (list str)) :
  (bad_delimiters = [] ->
   ViewModel.table_headers columns bad_delimiters = Raised ValueError)
  /\ (bad_delimiters <> [] ->
      exists headers,
        ViewModel.table_headers columns bad_delimiters = Returned headers
        /\ firstn (length columns) headers = columns
        /\ len columns <= len headers
        /\ Forall (fun row => len row <= len headers) bad_delimiters).
Proof.
  split; [intros ->; reflexivity|]. intros Hsome. unfold ViewModel.table_headers.
  destruct bad_delimiters as [|row rows]; [congruence|].
  cbn [map ViewModel.max_of bind]. eexists. split; [reflexivity|].
  set (m := fold_left Z.max (map len rows) (len row)).
  destruct (fold_left_max_bounds (map len rows) (len row)) as [Hrow Hrows].
  fold m in Hrow, Hrows.
  assert (Hlen : len (columns ++ map (fun i => lit "extra" ++ str_of_int (Z.of_nat i + 1))
                                    (seq 0 (Z.to_nat (m - len columns))))
                 = Z.max (len columns) m).
  { unfold len. rewrite length_app, length_map, length_seq. unfold len. lia. }
  split; [|split; [|constructor]].
  - rewrite firstn_app, Nat.sub_diag, firstn_all. cbn [firstn]. apply app_nil_r.
  - rewrite Hlen. lia.
  - rewrite Hlen. lia.
  - rewrite Hlen. rewrite Forall_map in Hrows.
    eapply Forall_impl; [|exact Hrows]. cbn beta. intros r Hr. lia.
Qed.

Example headers_of_extra_cells :
  ViewModel.table_headers [lit "id"; lit "name"]
    [[lit "1"; lit "a"; lit "b"; lit "c"]; [lit "2"; lit "x"; lit "y"]]
  = Returned [lit "id"; lit "name"; lit "extra1"; lit "extra2"].
Proof. reflexivity. Qed.

Lemma headers_cover_every_row_witness :
  exists headers,
    ViewModel.table_headers [lit "id"; lit "name"]
      [[lit "1"; lit "a"; lit "b"; lit "c"]; [lit "2"; lit "x"; lit "y"]]
    = Returned headers
    /\ firstn 2 headers = [lit "id"; lit "name"]
    /\ 2 <= len headers
    /\ Forall (fun row => len row <= len headers)
         [[lit "1"; lit "a"; lit "b"; lit "c"]; [lit "2"; lit "x"; lit "y"]].
Proof.
  apply (proj2 (headers_cover_every_row [lit "id"; lit "name"]
                  [[lit "1"; lit "a"; lit "b"; lit "c"]; [lit "2"; lit "x"; lit "y"]])).
  discriminate.
Defined.

(** ** The escape check on one value *)

Section EscapeCheck.

Variable q : char.

Lemma inner_runs_from_others (s : str) (after_other : bool) :
  Forall (fun c => c <> q) s -> Re.inner_runs_from q s None after_other = [].
Proof.
  intros H. revert after_other. induction H as [|c s Hc _ IH]; intros after_other;
    [reflexivity|].
  cbn [Re.inner_runs_from]. apply N.eqb_neq in Hc. rewrite Hc. apply IH.
Qed.

Lemma inner_runs_from_prefix (a rest : str) (after_other : bool) :
  Forall (fun c => c <> q) a -> a <> [] ->
  Re.inner_runs_from q (a ++ rest) None after_other
  = Re.inner_runs_from q rest None true.
Proof.
  intros H. revert after_other. induction H as [|c s Hc _ IH]; intros after_other Hne;
    [congruence|].
  cbn [app Re.inner_runs_from]. apply N.eqb_neq in Hc. rewrite Hc.
  destruct s as [|d s]; [reflexivity|]. apply IH. discriminate.
Qed.

Lemma inner_runs_from_run (n k : nat) (rest : str) :
  Re.inner_runs_from q (repeat q n ++ rest) (Some (repeat q k)) false
  = Re.inner_runs_from q rest (Some (repeat q (n + k))) false.
Proof.
  revert k. induction n as [|n IH]; intros k; [reflexivity|].
  cbn [repeat app Re.inner_runs_from]. rewrite N.eqb_refl.
  change (q :: repeat q k) with (repeat q (S k)). rewrite IH. do 3 f_equal. lia.
Qed.

Lemma inner_runs_from_unopened (n : nat) (rest : str) :
  Re.inner_runs_from q (repeat q (S n) ++ rest) None false
  = Re.inner_runs_from q rest None false.
Proof.
  induction n as [|n IH].
  - cbn [repeat app Re.inner_runs_from]. rewrite N.eqb_refl. reflexivity.
  - change (repeat q (S (S n)) ++ rest) with (q :: repeat q (S n) ++ rest).
    cbn [Re.inner_runs_from]. rewrite N.eqb_refl. exact IH.
Qed.

Lemma inner_runs_from_open_end (n : nat) (run : option str) (after_other : bool) :
  Re.inner_runs_from q (repeat q n) run after_other = [].
Proof.
  revert run after_other. induction n as [|n IH]; intros run after_other; [reflexivity|].
  cbn [repeat Re.inner_runs_from]. rewrite N.eqb_refl. destruct run; apply IH.
Qed.

Lemma count_from_repeat (n : nat) : count_from [q] (repeat q n) 0 = Z.of_nat n.
Proof.
  induction n as [|n IH]; [reflexivity|].
  cbn [repeat count_from startswith length Nat.sub]. rewrite N.eqb_refl, startswith_nil.
  cbn [andb]. rewrite IH. lia.
Qed.

(** The runs the check looks at, for a value with one run of
    qualifiers inside. *)
Lemma inner_runs_one (a b : str) (n : nat) :
  Forall (fun c => c <> q) a -> Forall (fun c => c <> q) b -> a <> [] -> b <> [] ->
  Re.inner_runs q (a ++ repeat q (S n) ++ b) = [repeat q (S n)].
Proof.
  intros Ha Hb Hane Hbne. unfold Re.inner_runs.
  rewrite inner_runs_from_prefix by assumption.
  change (repeat q (S n) ++ b) with (q :: repeat q n ++ b).
  cbn [Re.inner_runs_from]. rewrite N.eqb_refl.
  change [q] with (repeat q 1). rewrite inner_runs_from_run.
  destruct b as [|y b]; [congruence|]. inversion Hb as [|? ? Hy Hb']; subst.
  cbn [Re.inner_runs_from]. apply N.eqb_neq in Hy. rewrite Hy.
  rewrite inner_runs_from_others by exact Hb'. do 2 f_equal. lia.
Qed.

End EscapeCheck.

(** X21. [non_escaped_qualifiers] on a value with one run of the
    qualifier character: inside the value, between two characters that
    are not the qualifier, the run is reported when its length is odd
    and accepted when it is even; at the very start or the very end of
    the value it is never reported, whatever its length.  The qualifier
    is a character that a pattern reads as itself. *)
Theorem one_run_of_qualifiers (self : TextDataDoctor.t) (q : char) (a b : str) (n : nat) :
  TextDataDoctor.qualifier self = [q] -> reads_literally q = true ->
  Forall (fun c => c <> q) a -> Forall (fun c => c <> q) b ->
  (a <> [] -> b <> [] ->
   TextDataDoctor.non_escaped_qualifiers self (a ++ repeat q n ++ b) = Nat.odd n)
  /\ TextDataDoctor.non_escaped_qualifiers self (repeat q n ++ b) = false
  /\ TextDataDoctor.non_escaped_qualifiers self (a ++ repeat q n) = false.
Proof.
  intros Hq _ Ha Hb. unfold TextDataDoctor.non_escaped_qualifiers. rewrite Hq.
  split; [|split].
  - intros Hane Hbne. destruct n as [|n].
    + cbn [repeat app]. unfold Re.inner_runs.
      rewrite inner_runs_from_others; [reflexivity|].
      apply Forall_app. split; assumption.
    + rewrite inner_runs_one by assumption. cbn [existsb]. rewrite orb_false_r.
      unfold count. rewrite count_from_repeat.
      rewrite <- Nat.negb_even. f_equal.
      rewrite Nat2Z.inj_succ. rewrite <- (Nat2Z.inj_succ n).
      destruct (Nat.even (S n)) eqn:E.
      * apply Nat.even_spec in E. destruct E as [k Hk]. rewrite Hk.
        apply Z.eqb_eq. rewrite Nat2Z.inj_mul. change (Z.of_nat 2) with 2.
        rewrite Z.mul_comm. apply Z_mod_mult.
      * apply Z.eqb_neq. intros Hm.
        assert (Nat.even (S n) = true); [|congruence].
        apply Nat.even_spec. exists (Z.to_nat (Z.of_nat (S n) / 2)).
        pose proof (Z.div_mod (Z.of_nat (S n)) 2 ltac:(lia)) as D.
        pose proof (Z.div_pos (Z.of_nat (S n)) 2 ltac:(lia) ltac:(lia)). lia.
  - unfold Re.inner_runs. destruct n as [|n].
    + cbn [repeat app]. rewrite inner_runs_from_others by exact Hb. reflexivity.
    + rewrite inner_runs_from_unopened.
      rewrite inner_runs_from_others by exact Hb. reflexivity.
  - unfold Re.inner_runs. destruct a as [|x a].
    + cbn [app]. rewrite inner_runs_from_open_end. reflexivity.
    + rewrite inner_runs_from_prefix by (exact Ha || discriminate).
      rewrite inner_runs_from_open_end. reflexivity.
Qed.

Lemma one_run_of_qualifiers_witness :
  TextDataDoctor.non_escaped_qualifiers Cases.comma_quote (Cases.dq "a'b") = true
  /\ TextDataDoctor.non_escaped_qualifiers Cases.comma_quote (Cases.dq "a''b") = false
  /\ TextDataDoctor.non_escaped_qualifiers Cases.comma_quote (Cases.dq "'b") = false.
Proof.
  assert (Ha : Forall (fun c => c <> 34%N) (lit "a"))
    by (repeat constructor; discriminate).
  assert (Hb : Forall (fun c => c <> 34%N) (lit "b"))
    by (repeat constructor; discriminate).
  split; [|split].
  - exact (proj1 (one_run_of_qualifiers Cases.comma_quote 34%N (lit "a") (lit "b") 1
                    eq_refl eq_refl Ha Hb)
             ltac:(discriminate) ltac:(discriminate)).
  - exact (proj1 (one_run_of_qualifiers Cases.comma_quote 34%N (lit "a") (lit "b") 2
                    eq_refl eq_refl Ha Hb)
             ltac:(discriminate) ltac:(discriminate)).
  - exact (proj1 (proj2 (one_run_of_qualifiers Cases.comma_quote 34%N (lit "a") (lit "b") 1
                           eq_refl eq_refl Ha Hb))).
Defined.

(** ** A repair with nothing to repair *)

Lemma find_from_none (sub s : str) (pos : Z) :
  0 <= pos -> find_from sub s pos < 0 ->
  startswith s sub = false
  /\ match s with [] => True | _ :: s' => find_from sub s' (pos + 1) < 0 end.
Proof.
  intros Hpos H. destruct s as [|c s]; cbn [find_from] in H.
  - destruct (startswith [] sub); [lia|]. split; [reflexivity|exact I].
  - destruct (startswith (c :: s) sub); [lia|]. split; [reflexivity|exact H].
Qed.

Lemma replace_from_none (old new s : str) (pos : Z) :
  0 <= pos -> find_from old s pos < 0 -> replace_from old new s 0 = s.
Proof.
  revert pos. induction s as [|c s IH]; intros pos Hpos H; [reflexivity|].
  destruct (find_from_none old (c :: s) pos Hpos H) as [Hs Hrest].
  cbn [replace_from]. rewrite Hs. f_equal. apply (IH (pos + 1)); [lia|exact Hrest].
Qed.

(** [replace] did not find what it was to replace. *)
Lemma replace_absent (s old new : str) : contains old s = false -> replace s old new = s.
Proof.
  unfold contains. rewrite find_at_start. intros H. apply Z.leb_gt in H.
  destruct old as [|x old].
  - destruct s; cbn [find_from startswith] in H; lia.
  - unfold replace. apply (replace_from_none (x :: old) new s 0); [lia|exact H].
Qed.

Lemma replace_from_same (old s : str) (skip : nat) :
  old <> [] -> replace_from old old s skip = skipn skip s.
Proof.
  intros Hold. revert skip. induction s as [|c s IH]; intros skip.
  - destruct skip; reflexivity.
  - cbn [replace_from]. destruct skip as [|k]; [|apply IH].
    destruct (startswith (c :: s) old) eqn:E.
    + rewrite IH. apply startswith_split in E.
      destruct old as [|x old]; [congruence|].
      cbn [length Nat.sub skipn app] in E |- *. rewrite Nat.sub_0_r.
      injection E as Hx Hs. subst x. f_equal. exact (eq_sym Hs).
    + rewrite IH. reflexivity.
Qed.

(** Replacing a text by itself. *)
Lemma replace_same (s old : str) : replace s old old = s.
Proof.
  destruct old as [|x old].
  - unfold replace. rewrite app_nil_r. induction s as [|c s IH]; [reflexivity|].
    cbn [flat_map app]. f_equal. exact IH.
  - unfold replace. rewrite replace_from_same by discriminate. reflexivity.
Qed.

(** X22. [fix_record] changes nothing for values that hold no
    qualifier: the record it returns is the record it was given. *)
Theorem repair_without_inner_qualifier (self : BadEscape.t) :
  Forall (fun value => contains (BadEscape.qualifier self) value = false)
         (BadEscape.values self) ->
  BadEscape.fix_record self = BadEscape.record self.
Proof.
  unfold BadEscape.fix_record. generalize (BadEscape.record self) as record.
  induction (BadEscape.values self) as [|value values IH]; intros record H;
    [reflexivity|].
  inversion H as [|? ? Hvalue Hvalues]; subst. cbn [fold_left].
  unfold BadEscape.escape_qualifiers at 2.
  rewrite (replace_absent value _ _ Hvalue), replace_same. apply IH. exact Hvalues.
Qed.

Lemma repair_without_inner_qualifier_witness :
  BadEscape.fix_record
    (BadEscape.Build (Cases.dq "'") (Cases.dq "1,'ab','cd'") [lit "ab"; lit "cd"])
  = Cases.dq "1,'ab','cd'".
Proof.
  apply (repair_without_inner_qualifier
           (BadEscape.Build (Cases.dq "'") (Cases.dq "1,'ab','cd'") [lit "ab"; lit "cd"])).
  repeat constructor.
Defined.

(** ** Where a quoted value ends *)

Lemma find_from_occurs (sub s : str) (pos r : Z) :
  find_from sub s pos = r -> r <> -1 -> 0 <= pos ->
  startswith (skipn (Z.to_nat (r - pos)) s) sub = true.
Proof.
  revert pos. induction s as [|c s IH]; intros pos Hr Hne Hpos; cbn [find_from] in Hr.
  - destruct (startswith [] sub) eqn:E; [|congruence].
    rewrite skipn_nil. exact E.
  - destruct (startswith (c :: s) sub) eqn:E.
    + subst r. rewrite Z.sub_diag. exact E.
    + pose proof (find_from_range _ _ _ _ Hr Hne ltac:(lia)) as Hrange.
      specialize (IH (pos + 1) Hr Hne ltac:(lia)).
      replace (Z.to_nat (r - pos)) with (S (Z.to_nat (r - (pos + 1)))) by lia.
      exact IH.
Qed.

(** What [find] answers is a place where the text stands. *)
Lemma find_occurs (s sub : str) (start r : Z) :
  find s sub start = r -> r <> -1 ->
  startswith (skipn (Z.to_nat r) s) sub = true.
Proof.
  unfold find. intros Hr Hne.
  destruct (len s <? start) eqn:E; [congruence|]. apply Z.ltb_ge in E.
  pose proof (clamp_range (len s) start (len_nonneg s)) as Hc.
  pose proof (find_from_range _ _ _ _ Hr Hne ltac:(lia)) as Hrange.
  apply find_from_occurs in Hr; [|assumption|lia].
  rewrite skipn_skipn in Hr.
  replace (Z.to_nat r) with (Z.to_nat (r - clamp (len s) start)
                             + Z.to_nat (clamp (len s) start))%nat by lia.
  exact Hr.
Qed.

Lemma find_value_end_within_lands (depth : nat) (self : TextDataDoctor.t) (record : str)
  (end_position : Z) :
  let result := TextDataDoctor.find_value_end_within depth self record end_position in
  result = end_position
  \/ (end_position < result <= len record
      /\ 0 <= result
      /\ startswith (skipn (Z.to_nat result) record) (TextDataDoctor.end_pattern self)
         = true).
Proof.
  revert end_position. induction depth as [|depth IH]; intros e;
    cbn [TextDataDoctor.find_value_end_within].
  - destruct (negb _); [destruct (_ || _)|]; left; reflexivity.
  - destruct (negb (find record (TextDataDoctor.end_pattern self) (e + 1) =? -1)) eqn:N;
      [|left; reflexivity].
    destruct (_ || _); [|left; reflexivity].
    apply negb_true_iff, Z.eqb_neq in N.
    destruct (find_range record _ (e + 1) _ eq_refl N) as [Hr Hs].
    pose proof (find_occurs record _ (e + 1) _ eq_refl N) as Ho.
    assert (He : e < find record (TextDataDoctor.end_pattern self) (e + 1))
      by (destruct (Z_lt_le_dec (e + 1) 0); lia).
    right. destruct (IH (find record (TextDataDoctor.end_pattern self) (e + 1)))
      as [->|[H1 [H2 H3]]].
    + split; [lia|]. split; [lia|exact Ho].
    + split; [lia|]. split; [lia|exact H3].
Qed.

(** X23. [find_value_end] never answers a position to the left of the
    one it is given: it answers that position, or a later one inside the
    record at which the qualifier followed by the delimiter stands. *)
Theorem find_value_end_lands (self : TextDataDoctor.t) (record : str) (end_position : Z) :
  let result := TextDataDoctor.find_value_end self record end_position in
  result = end_position
  \/ (end_position < result <= len record
      /\ startswith (slice record (Some result) None) (TextDataDoctor.end_pattern self)
         = true).
Proof.
  unfold TextDataDoctor.find_value_end.
  destruct (find_value_end_within_lands (S (length record)) self record end_position)
    as [H|[H1 [H2 H3]]]; [left; exact H|right].
  split; [exact H1|]. rewrite slice_from by lia. exact H3.
Qed.

Example find_value_end_skips_inner_pattern :
  TextDataDoctor.find_value_end Cases.comma_quote (Cases.dq "1,'a',b','c'") 4 = 7.
Proof. reflexivity. Qed.

(** ** The rows of the table *)



(** ** The doctor and the table it leads to *)

(** What [__init__] leaves in the doctor it builds. *)
Lemma init_built (record_start_regex : str -> bool) (path text delimiter qualifier : str)
  (encoding : codec) (self : TextDataDoctor.t) :
  TextDataDoctor.init record_start_regex path text delimiter qualifier encoding
  = Returned self ->
  delimiter <> []
  /\ TextDataDoctor.delimiter self = delimiter
  /\ TextDataDoctor.qualifier self = qualifier
  /\ TextDataDoctor.header_line self = rstrip (first_line (text_lines text)) [CR; LF]
  /\ TextDataDoctor.columns self
     = map (fun column => replace column qualifier [])
           (split_from delimiter (TextDataDoctor.header_line self) 0 [])
  /\ TextDataDoctor.header_delimiter_count self
     = count_from delimiter (TextDataDoctor.header_line self) 0.
Proof.
  unfold TextDataDoctor.init, split. destruct delimiter as [|c d]; [discriminate|].
  cbn [bind]. intros H. injection H as <-. cbn. repeat split. discriminate.
Qed.

(** X25. [TextDataDoctor.__init__] raises [ValueError] for an empty
    delimiter.  For any other it builds a doctor that has one column
    more than its header line has delimiters; without a qualifier the
    columns, joined by the delimiter, are the header line. *)
Theorem doctor_columns_and_count (record_start_regex : str -> bool)
  (path text delimiter qualifier : str) (encoding : codec) :
  (delimiter = [] ->
   TextDataDoctor.init record_start_regex path text delimiter qualifier encoding
   = Raised ValueError)
  /\ (delimiter <> [] ->
      exists self,
        TextDataDoctor.init record_start_regex path text delimiter qualifier encoding
        = Returned self
        /\ len (TextDataDoctor.columns self)
           = TextDataDoctor.header_delimiter_count self + 1
        /\ (qualifier = [] ->
            join delimiter (TextDataDoctor.columns self)
            = TextDataDoctor.header_line self)).
Proof.
  split; [intros ->; reflexivity|]. intros Hd.
  destruct (TextDataDoctor.init record_start_regex path text delimiter qualifier encoding)
    as [self|e] eqn:I.
  - destruct (init_built _ _ _ _ _ _ _ I) as [_ [_ [_ [_ [Hc Hn]]]]].
    exists self. split; [reflexivity|]. rewrite Hc, Hn. split.
    + unfold len. rewrite length_map. apply split_from_count.
    + intros ->. erewrite map_ext; [|intros column; apply (replace_same column [])].
      rewrite map_id. rewrite join_split_from by exact Hd. reflexivity.
  - unfold TextDataDoctor.init, split in I. destruct delimiter; [congruence|discriminate].
Qed.

Lemma doctor_columns_and_count_witness :
  exists self,
    TextDataDoctor.init Cases.digit_first (lit "/data/f.csv") MoreCases.comma_in_value
      (lit ",") [] utf8
    = Returned self
    /\ len (TextDataDoctor.columns self) = TextDataDoctor.header_delimiter_count self + 1
    /\ ([] = @nil char ->
        join (lit ",") (TextDataDoctor.columns self) = TextDataDoctor.header_line self).
Proof.
  apply (proj2 (doctor_columns_and_count Cases.digit_first (lit "/data/f.csv")
                  MoreCases.comma_in_value (lit ",") [] utf8)).
  discriminate.
Defined.

Section BadRows.

Variable self : TextDataDoctor.t.

Import TextDataDoctor Analysis.

(** A record whose count of the delimiter is not that of the header. *)
Let off_count (r : str) : Prop := count r (delimiter self) <> header_delimiter_count self.

Lemma analyze_record_off_count (st st' : pass) (r : str) :
  analyze_record self st r = Returned st' ->
  Forall off_count (bad_delimiters st) -> Forall off_count (bad_delimiters st').
Proof.
  unfold analyze_record.
  set (r' := if all_qualified self then Re.drop_final (delimiter self) r else r).
  assert (Hadd : forall r0 : str,
             negb (count r0 (delimiter self) =? header_delimiter_count self) = true ->
             Forall off_count (bad_delimiters st) ->
             Forall off_count (bad_delimiters st ++ [r0])).
  { intros r0 C HP. apply Forall_app. split; [exact HP|].
    constructor; [|constructor]. apply negb_true_iff, Z.eqb_neq in C. exact C. }
  destruct (qualifier_in self r) eqn:Q.
  - destruct (escape_checks self r') as [checks|e]; [|discriminate]. cbn [bind].
    destruct (truthy (filter _ checks)); cbn [bind];
      (destruct (negb (count r' _ =? _)) eqn:C;
       [destruct (qualifier_in self r');
        [destruct (recount self r' _) as [n|e]; cbn [bind];
         [destruct (negb (n =? _))|discriminate]|]|]);
      cbn [bind]; intros H; injection H as <-; cbn [bad_delimiters]; intros HP;
      first [exact HP|exact (Hadd r' C HP)].
  - cbn [bind]. rewrite Q.
    destruct (negb (count r _ =? _)) eqn:C; cbn [bind]; intros H; injection H as <-;
      cbn [bad_delimiters]; intros HP; first [exact HP|exact (Hadd r C HP)].
Qed.

Lemma analyze_records_off_count (records : list str) (st st' : pass) :
  analyze_records self st records = Returned st' ->
  Forall off_count (bad_delimiters st) -> Forall off_count (bad_delimiters st').
Proof.
  revert st. induction records as [|r records IH]; intros st; cbn [analyze_records].
  - intros H. injection H as <-. exact (fun HP => HP).
  - destruct (analyze_record self st r) as [st1|e] eqn:R; [|discriminate]. cbn [bind].
    intros Hrest HP. apply (IH st1 Hrest). exact (analyze_record_off_count st st1 r R HP).
Qed.

(** The records [analyze_file] reports for their delimiters. *)
Lemma analyze_file_off_count (U : UnicodeData) (result : AnalyzeResult.t) :
  analyze_file self = Returned result ->
  AnalyzeResult.delimiter result = delimiter self
  /\ AnalyzeResult.columns result = columns self
  /\ Forall off_count (AnalyzeResult.bad_delimiters result).
Proof.
  unfold analyze_file. destruct (get_records self) as [records overflow_lines].
  destruct (analyze_records self _ (yielded records)) as [st|e] eqn:R; [|discriminate].
  cbn [bind]. destruct (ended records); [discriminate|].
  destruct (classify _ _ _ _ _) as [code message].
  intros H. injection H as <-. cbn. repeat split.
  apply (analyze_records_off_count _ _ _ R). constructor.
Qed.

End BadRows.

Lemma bad_delimiter_records_rows (delimiter : str) (bad_delimiters : list str) :
  delimiter <> [] ->
  ViewModel.bad_delimiter_records delimiter bad_delimiters
  = Returned (map (fun bd => split_from delimiter bd 0 []) bad_delimiters).
Proof.
  intros Hd. induction bad_delimiters as [|bd rest IH]; [reflexivity|].
  cbn [ViewModel.bad_delimiter_records map]. rewrite IH. unfold split.
  destruct delimiter; [congruence|reflexivity].
Qed.

(** X26. Every row the table of bad delimiters opens with needs a fix:
    for a doctor built by [__init__], each record [analyze_file] reports
    for its delimiters splits into a number of cells that is not the
    number of columns, so that [validate_fixes] is false for the table
    as [ResultWindowViewModel] builds it, when there is such a
    record.  The delimiter and the qualifier are of characters that a
    pattern reads as themselves. *)
Theorem bad_rows_need_a_fix (U : UnicodeData) (record_start_regex : str -> bool)
  (path text delimiter qualifier : str) (encoding : codec)
  (self : TextDataDoctor.t) (result : AnalyzeResult.t) :
  Forall (fun c => reads_literally c = true) (delimiter ++ qualifier) ->
  TextDataDoctor.init record_start_regex path text delimiter qualifier encoding
  = Returned self ->
  Analysis.analyze_file self = Returned result ->
  exists rows,
    ViewModel.bad_delimiter_records (AnalyzeResult.delimiter result)
      (AnalyzeResult.bad_delimiters result)
    = Returned rows
    /\ Forall (fun row => len row <> len (AnalyzeResult.columns result)) rows
    /\ (rows <> [] ->
        forall good_records,
          ViewModel.validate_fixes
            (BadDelimitersTableModel.Build (AnalyzeResult.delimiter result) (-1) []
               (AnalyzeResult.columns result) rows good_records)
          = false).
Proof.
  intros _ Hinit Hrun.
  destruct (init_built _ _ _ _ _ _ _ Hinit) as [Hd [Hdel [_ [_ [Hc Hn]]]]].
  destruct (analyze_file_off_count self U result Hrun) as [Hrd [Hrc Hoff]].
  rewrite Hrd, Hrc, Hdel. rewrite Hdel in Hoff.
  rewrite bad_delimiter_records_rows by exact Hd. eexists. split; [reflexivity|].
  assert (Hrows : Forall (fun row : list str => len row <> len (TextDataDoctor.columns self))
                    (map (fun bd => split_from delimiter bd 0 [])
                         (AnalyzeResult.bad_delimiters result))).
  { assert (Hcols : len (TextDataDoctor.columns self)
                    = TextDataDoctor.header_delimiter_count self + 1)
      by (rewrite Hc, Hn; unfold len; rewrite length_map; apply split_from_count).
    apply Forall_map. eapply Forall_impl; [|exact Hoff]. cbn beta. intros r Hr.
    rewrite split_from_count, Hcols.
    unfold count in Hr. destruct delimiter as [|c d]; [congruence|]. lia. }
  split; [exact Hrows|]. intros Hsome good_records. unfold ViewModel.validate_fixes.
  cbn [BadDelimitersTableModel.columns BadDelimitersTableModel.bad_delimiters].
  destruct (map _ (AnalyzeResult.bad_delimiters result)) as [|row rows]; [congruence|].
  inversion Hrows as [|? ? Hrow _]; subst. cbn [forallb].
  apply Z.eqb_neq in Hrow. rewrite Hrow. reflexivity.
Qed.

Lemma bad_rows_need_a_fix_witness :
  exists result rows,
    @Analysis.analyze_file Cases.ascii_only MoreCases.comma_in_value_doctor = Returned result
    /\ ViewModel.bad_delimiter_records (AnalyzeResult.delimiter result)
         (AnalyzeResult.bad_delimiters result)
       = Returned rows
    /\ Forall (fun row => len row <> len (AnalyzeResult.columns result)) rows.
Proof.
  assert (R : exists result,
             @Analysis.analyze_file Cases.ascii_only MoreCases.comma_in_value_doctor
             = Returned result) by (vm_compute; eexists; reflexivity).
  destruct R as [result R]. exists result.
  destruct (bad_rows_need_a_fix Cases.ascii_only Cases.digit_first (lit "/data/f.csv")
              MoreCases.comma_in_value (lit ",") [] utf8
              MoreCases.comma_in_value_doctor result ltac:(repeat constructor)
              eq_refl R)
    as [rows [Hrows [Hlen _]]].
  exists rows. split; [exact R|]. split; [exact Hrows|exact Hlen].
Defined.

(** ** Rows above the bad records *)

(** X27. [get_row] does not refuse the rows of the good records: for a
    row from 0 to 9 it counts [row - 10] from the end of the records
    with bad delimiters and returns that record when there are enough
    of them, and raises [IndexError] when there are not. *)
Theorem good_rows_reach_bad_records (self : BadDelimitersTableModel.t) (row : Z) :
  0 <= row < 10 ->
  let n := len (BadDelimitersTableModel.bad_delimiters self) in
  (10 - row <= n ->
   exists cells,
     BadDelimitersTableModel.get_row self row = Returned cells
     /\ BadDelimitersTableModel.get_row self (n + row) = Returned cells)
  /\ (n < 10 - row -> BadDelimitersTableModel.get_row self row = Raised IndexError).
Proof.
  intros Hrow n. unfold BadDelimitersTableModel.get_row. fold n.
  pose proof (len_nonneg (BadDelimitersTableModel.bad_delimiters self)) as Hn. fold n in Hn.
  assert (E1 : (row =? -1) = false) by (apply Z.eqb_neq; lia).
  assert (E2 : (n - 1 <? row - 10) = false) by (apply Z.ltb_ge; lia).
  rewrite E1, E2. unfold getitem. fold n.
  assert (E3 : (row - 10 <? 0) = true) by (apply Z.ltb_lt; lia). rewrite E3.
  split.
  - intros Henough.
    assert (E4 : (n + row =? -1) = false) by (apply Z.eqb_neq; lia).
    assert (E5 : (n - 1 <? n + row - 10) = false) by (apply Z.ltb_ge; lia).
    assert (E6 : (n + row - 10 <? 0) = false) by (apply Z.ltb_ge; lia).
    rewrite E4, E5, E6.
    replace (row - 10 + n) with (n + row - 10) by lia.
    assert (E7 : (0 <=? n + row - 10) && (n + row - 10 <? n) = true)
      by (apply andb_true_intro; split; [apply Z.leb_le|apply Z.ltb_lt]; lia).
    rewrite E7.
    destruct (nth_error (BadDelimitersTableModel.bad_delimiters self)
                (Z.to_nat (n + row - 10))) as [cells|] eqn:N.
    + exists cells. split; reflexivity.
    + apply nth_error_None in N. unfold n, len in *. lia.
  - intros Hfew.
    assert (E7 : (0 <=? row - 10 + n) && (row - 10 + n <? n) = false)
      by (apply andb_false_iff; left; apply Z.leb_gt; lia).
    rewrite E7. reflexivity.
Qed.

Lemma good_rows_reach_bad_records_witness :
  exists cells,
    BadDelimitersTableModel.get_row Cases.one_row 9 = Returned cells
    /\ BadDelimitersTableModel.get_row Cases.one_row 10 = Returned cells.
Proof.
  apply (proj1 (good_rows_reach_bad_records Cases.one_row 9 ltac:(lia))).
  vm_compute. discriminate.
Defined.
